(** * serial_tester: the framed packet protocol and the test engine

    A shallow embedding of [src/core/protocol.py], of the send and
    reassembly paths of [src/core/serial_handler.py] and of the bookkeeping
    of [src/core/test_engine.py], followed by the properties of the
    specification that concern them.

    Conventions of the embedding.
    - A Python [int] is a [Z]; [bytes] and [bytearray] are [list byte].
    - A Python [float] holding a point in time is an exact rational [Q]
      (seconds); [int(x)] is truncation toward zero.
    - A call that may raise returns an [outcome]: [Ret v] or [Raise e].
    - Objects are records, methods take the object and return it updated.
    - The clock and the serial port are inputs of the functions that read
      them: the value [time.time()] returned, the result of [write]. *)

From Stdlib Require Import ZArith List Lia Bool QArith String Ascii.
From Stdlib Require Import DecimalString DecimalZ.
From Stdlib.Strings Require Import Byte.
Import ListNotations.

Local Open Scope Z_scope.

(* ================================================================== *)
(** * Python outcomes *)

Module Py.

Inductive exn : Type :=
| StructError        (* struct.error *)
| ValueError
| IndexError
| KeyError
| SerialException.   (* serial.SerialException *)

Inductive outcome (A : Type) : Type :=
| Ret (a : A)
| Raise (e : exn).
Arguments Ret {A} a.
Arguments Raise {A} e.

Definition bind {A B} (m : outcome A) (k : A -> outcome B) : outcome B :=
  match m with
  | Ret a => k a
  | Raise e => Raise e
  end.

Definition returns {A} (m : outcome A) : bool :=
  match m with Ret _ => true | Raise _ => false end.

Definition exn_eqb (a b : exn) : bool :=
  match a, b with
  | StructError, StructError | ValueError, ValueError
  | IndexError, IndexError | KeyError, KeyError
  | SerialException, SerialException => true
  | _, _ => false
  end.

(** [try: m except (e1, e2, ...): h] *)
Definition try_except {A} (m : outcome A) (caught : list exn)
           (h : outcome A) : outcome A :=
  match m with
  | Ret a => Ret a
  | Raise e => if existsb (exn_eqb e) caught then h else Raise e
  end.

(** [int(x)] on a float: truncation toward zero. *)
Definition int_of_float (x : Q) : Z := Z.quot (Qnum x) (Z.pos (Qden x)).

(** [len(x)] *)
Definition len {A} (l : list A) : Z := Z.of_nat (List.length l).

(** [x[a:b]] for non-negative [a] and [b]. *)
Definition slice {A} (a b : Z) (l : list A) : list A :=
  firstn (Z.to_nat (b - a)) (skipn (Z.to_nat a) l).

(** [str(n)] on an int. *)
Definition str (n : Z) : string := NilZero.string_of_int (Z.to_int n).

(** [range(a, b)] *)
Definition range (a b : Z) : list Z :=
  map (fun i => a + Z.of_nat i) (seq 0 (Z.to_nat (b - a))).

(** [x > y] on floats. *)
Definition gt (x y : Q) : bool := negb (Qle_bool x y).

(** [s.add(k)] on a set kept as a duplicate-free list. *)
Definition set_add (k : Z) (s : list Z) : list Z :=
  if existsb (Z.eqb k) s then s else s ++ [k].

End Py.
Import Py.

Notation "x <- m ;; k" := (Py.bind m (fun x => k))
  (at level 61, m at next level, right associativity).
Notation "' p <- m ;; k" := (Py.bind m (fun p => k))
  (at level 61, p pattern, m at next level, right associativity).

(* ================================================================== *)
(** * Bytes *)

Module Bytes.

Definition b2z (b : byte) : Z := Z.of_N (Byte.to_N b).

Definition z2b (z : Z) : byte :=
  match Byte.of_N (Z.to_N (z mod 256)) with
  | Some b => b
  | None => x00
  end.

Definition xor (a b : byte) : byte := z2b (Z.lxor (b2z a) (b2z b)).

End Bytes.
Import Bytes.

(* ================================================================== *)
(** * The [struct] module, for the formats the program uses

    Network byte order ([!]): big-endian, no padding.  [pack] raises
    [struct.error] on a value outside the range of its field, [unpack] on a
    buffer whose length is not the size of the format. *)

Module Struct.

Definition in_range (bits : Z) (v : Z) : bool :=
  (0 <=? v) && (v <? 2 ^ bits).

Definition be16 (v : Z) : list byte :=
  [z2b (Z.shiftr v 8); z2b v].

Definition be32 (v : Z) : list byte :=
  [z2b (Z.shiftr v 24); z2b (Z.shiftr v 16); z2b (Z.shiftr v 8); z2b v].

Definition of_be16 (a b : byte) : Z :=
  b2z a * 2 ^ 8 + b2z b.

Definition of_be32 (a b c d : byte) : Z :=
  b2z a * 2 ^ 24 + b2z b * 2 ^ 16 + b2z c * 2 ^ 8 + b2z d.

(** [struct.pack('!I', v)] *)
Definition pack_I (v : Z) : outcome (list byte) :=
  if in_range 32 v then Ret (be32 v) else Raise StructError.

(** [struct.unpack('!I', buf)[0]] *)
Definition unpack_I (buf : list byte) : outcome Z :=
  match buf with
  | [a; b; c; d] => Ret (of_be32 a b c d)
  | _ => Raise StructError
  end.

(** [struct.calcsize('!BBHI')] *)
Definition calcsize_BBHI : Z := 1 + 1 + 2 + 4.

(** [struct.pack('!BBHI', b0, b1, h, i)] *)
Definition pack_BBHI (b0 b1 h i : Z) : outcome (list byte) :=
  if in_range 8 b0 && in_range 8 b1 && in_range 16 h && in_range 32 i
  then Ret ([z2b b0; z2b b1] ++ be16 h ++ be32 i)
  else Raise StructError.

(** [struct.unpack('!BBHI', buf)] *)
Definition unpack_BBHI (buf : list byte) : outcome (Z * Z * Z * Z) :=
  match buf with
  | [m; t; s1; s0; t3; t2; t1; t0] =>
      Ret (b2z m, b2z t, of_be16 s1 s0, of_be32 t3 t2 t1 t0)
  | _ => Raise StructError
  end.

End Struct.

(* ================================================================== *)
(** * [zlib.crc32]

    The CRC-32 of zlib (reflected polynomial [0xEDB88320], initial value and
    final complement [0xFFFFFFFF]), one bit at a time. *)

Module Zlib.

Definition POLY : Z := 0xEDB88320.

Definition crc_step (c : Z) : Z :=
  if Z.testbit c 0 then Z.lxor (Z.shiftr c 1) POLY else Z.shiftr c 1.

Definition crc_byte (c : Z) (b : byte) : Z :=
  Nat.iter 8 crc_step (Z.lxor c (b2z b)).

Definition crc_update (c : Z) (data : list byte) : Z :=
  fold_left crc_byte data c.

Definition crc32 (data : list byte) : Z :=
  Z.lxor (crc_update 0xFFFFFFFF data) 0xFFFFFFFF.

(** The values of the 32-bit register. *)
Definition word32 (c : Z) : Prop := 0 <= c < 2 ^ 32.

End Zlib.

(* ================================================================== *)
(** * [core/protocol.py] *)

Module Protocol.

Inductive PacketType : Type := DATA | ACK | HEARTBEAT.

Definition value (t : PacketType) : Z :=
  match t with DATA => 0x01 | ACK => 0x02 | HEARTBEAT => 0x03 end.

(** [PacketType(v)]: raises [ValueError] on a value that is no member. *)
Definition PacketType_of (v : Z) : outcome PacketType :=
  if v =? 0x01 then Ret DATA
  else if v =? 0x02 then Ret ACK
  else if v =? 0x03 then Ret HEARTBEAT
  else Raise ValueError.

Definition PacketType_eqb (a b : PacketType) : bool := value a =? value b.

Record Packet : Type := mkPacket {
  packet_type : PacketType;
  sequence_id : Z;
  timestamp : Q;
  payload : list byte
}.

Definition payload_size (p : Packet) : Z := len (payload p).

Record ProtocolHandler : Type := mkProtocolHandler {
  sequence_counter : Z
}.

Definition HEADER_SIZE : Z := Struct.calcsize_BBHI + 4.
Definition FOOTER_SIZE : Z := 4.
Definition MAGIC_BYTE : Z := 0xAA.

(** [ProtocolHandler.__init__] *)
Definition init : ProtocolHandler := mkProtocolHandler 0.

(** [create_packet]; [now] is the value of [time.time()]. *)
Definition create_packet (self : ProtocolHandler) (now : Q)
           (ty : PacketType) (data : list byte)
  : Packet * ProtocolHandler :=
  let packet := mkPacket ty (sequence_counter self) now data in
  (packet, mkProtocolHandler (sequence_counter self + 1)).

(** Milliseconds put on the wire: [int(packet.timestamp * 1000)]. *)
Definition timestamp_ms (p : Packet) : Z :=
  int_of_float (timestamp p * 1000).

Definition serialize_packet (self : ProtocolHandler) (packet : Packet)
  : outcome (list byte) :=
  header <- Struct.pack_BBHI MAGIC_BYTE (value (packet_type packet))
              (sequence_id packet) (timestamp_ms packet) ;;
  payload_size <- Struct.pack_I (payload_size packet) ;;
  let data := header ++ payload_size ++ payload packet in
  let checksum := Z.land (Zlib.crc32 data) 0xffffffff in
  footer <- Struct.pack_I checksum ;;
  Ret (data ++ footer).

(** The body of the [try] block of [deserialize_packet]. *)
Definition deserialize_try (data : list byte) : outcome (option Packet) :=
  ' (magic, ptype, seq_id, timestamp_ms) <-
      Struct.unpack_BBHI (slice 0 Struct.calcsize_BBHI data) ;;
  if negb (magic =? MAGIC_BYTE) then Ret None else
  payload_size <- Struct.unpack_I (slice Struct.calcsize_BBHI HEADER_SIZE data) ;;
  let payload_start := HEADER_SIZE in
  let payload_end := payload_start + payload_size in
  if len data <? payload_end + FOOTER_SIZE then Ret None else
  let payload := slice payload_start payload_end data in
  let checksum_data := slice 0 payload_end data in
  expected_checksum <-
    Struct.unpack_I (slice payload_end (payload_end + FOOTER_SIZE) data) ;;
  let actual_checksum := Z.land (Zlib.crc32 checksum_data) 0xffffffff in
  if negb (expected_checksum =? actual_checksum) then Ret None else
  ty <- PacketType_of ptype ;;
  Ret (Some (mkPacket ty seq_id (timestamp_ms # 1000) payload)).

(** [deserialize_packet]: the result, and the handler after the call. *)
Definition deserialize_packet (self : ProtocolHandler) (data : list byte)
  : outcome (option Packet) * ProtocolHandler :=
  if len data <? HEADER_SIZE + FOOTER_SIZE then (Ret None, self)
  else (try_except (deserialize_try data) [StructError; ValueError]
          (Ret None), self).

Definition create_data_packet (self : ProtocolHandler) (now : Q)
           (data : list byte) : Packet * ProtocolHandler :=
  create_packet self now DATA data.

(** [create_ack_packet]: [struct.pack('!I', sequence_id)] may raise. *)
Definition create_ack_packet (self : ProtocolHandler) (now : Q)
           (sequence_id : Z) : outcome (Packet * ProtocolHandler) :=
  ack_payload <- Struct.pack_I sequence_id ;;
  Ret (create_packet self now ACK ack_payload).

Definition create_heartbeat_packet (self : ProtocolHandler) (now : Q)
  : Packet * ProtocolHandler :=
  create_packet self now HEARTBEAT [].

Definition get_acked_sequence (self : ProtocolHandler) (ack_packet : Packet)
  : outcome (option Z) :=
  if negb (PacketType_eqb (packet_type ack_packet) ACK)
     || (len (payload ack_packet) <? 4)
  then Ret None
  else try_except
         (v <- Struct.unpack_I (slice 0 4 (payload ack_packet)) ;; Ret (Some v))
         [StructError] (Ret None).

End Protocol.

(* ================================================================== *)
(** * [core/serial_handler.py] *)

Module Serial.
Import Protocol.

(** The Qt signals of [SerialHandler]. *)
Inductive signal : Type :=
| connection_status_changed (up : bool)
| packet_received (p : Packet)
| error_occurred (msg : string).

(** [serial_connection] is [true] when a port object is held; [emitted]
    is the trace of the signals emitted so far, oldest first.  The
    listeners live in another thread and run later: emitting a signal
    does nothing else here, and nothing they raise reaches the emitter. *)
Record SerialHandler : Type := mkSerialHandler {
  protocol : ProtocolHandler;
  is_connected : bool;
  serial_connection : bool;
  bytes_sent : Z;
  bytes_received : Z;
  packets_sent : Z;
  packets_received : Z;
  emitted : list signal
}.

(** [SerialHandler.__init__] *)
Definition init : SerialHandler :=
  mkSerialHandler Protocol.init false false 0 0 0 0 [].

Definition set_protocol (p : ProtocolHandler) (s : SerialHandler) :=
  mkSerialHandler p (is_connected s) (serial_connection s) (bytes_sent s)
    (bytes_received s) (packets_sent s) (packets_received s) (emitted s).

Definition emit (sg : signal) (s : SerialHandler) :=
  mkSerialHandler (protocol s) (is_connected s) (serial_connection s)
    (bytes_sent s) (bytes_received s) (packets_sent s) (packets_received s)
    (emitted s ++ [sg]).

Definition add_sent (n : Z) (s : SerialHandler) :=
  mkSerialHandler (protocol s) (is_connected s) (serial_connection s)
    (bytes_sent s + n) (bytes_received s) (packets_sent s + 1)
    (packets_received s) (emitted s).

Definition add_bytes_received (n : Z) (s : SerialHandler) :=
  mkSerialHandler (protocol s) (is_connected s) (serial_connection s)
    (bytes_sent s) (bytes_received s + n) (packets_sent s)
    (packets_received s) (emitted s).

Definition incr_packets_received (s : SerialHandler) :=
  mkSerialHandler (protocol s) (is_connected s) (serial_connection s)
    (bytes_sent s) (bytes_received s) (packets_sent s)
    (packets_received s + 1) (emitted s).

(** The packets handed to the listeners of [packet_received]. *)
Fixpoint packets_of (tr : list signal) : list Packet :=
  match tr with
  | [] => []
  | packet_received p :: tr' => p :: packets_of tr'
  | _ :: tr' => packets_of tr'
  end.

(** [send_packet].  [port data] is what [write(data)] followed by
    [flush()] does on the open port: the number of bytes written, or the
    exception raised. *)
Definition send_packet (self : SerialHandler)
           (port : list byte -> outcome Z) (packet : Packet)
  : outcome bool * SerialHandler :=
  if negb (is_connected self) || negb (serial_connection self)
  then (Ret false, self)
  else
    match serialize_packet (protocol self) packet with
    | Raise SerialException =>
        (Ret false, emit (error_occurred "Send failed") self)
    | Raise e => (Raise e, self)
    | Ret data =>
        match port data with
        | Ret bytes_written => (Ret true, add_sent bytes_written self)
        | Raise SerialException =>
            (Ret false, emit (error_occurred "Send failed") self)
        | Raise e => (Raise e, self)
        end
    end.

(** [buffer.find(MAGIC_BYTE)]: index of the first occurrence. *)
Fixpoint find (v : Z) (buffer : list byte) : option nat :=
  match buffer with
  | [] => None
  | b :: rest =>
      if b2z b =? v then Some O
      else match find v rest with
           | Some i => Some (S i)
           | None => None
           end
  end.

(** [del buffer[0]] *)
Definition del_first (buffer : list byte) : outcome (list byte) :=
  match buffer with
  | [] => Raise IndexError
  | _ :: rest => Ret rest
  end.

Inductive control : Type := Break | Continue.

(** The [try] block of one iteration of the loop of [_parse_buffer].
    Everything that can raise comes before the first assignment, so the
    [except] clause sees the buffer as it was when the block started. *)
Definition parse_try (self : SerialHandler) (buffer : list byte)
  : outcome (control * SerialHandler * list byte) :=
  payload_size <-
    Struct.unpack_I (slice Struct.calcsize_BBHI HEADER_SIZE buffer) ;;
  let total_packet_size := HEADER_SIZE + payload_size + FOOTER_SIZE in
  if len buffer <? total_packet_size then Ret (Break, self, buffer) else
  let packet_data := slice 0 total_packet_size buffer in
  let '(r, proto) := deserialize_packet (protocol self) packet_data in
  let self := set_protocol proto self in
  packet <- r ;;
  match packet with
  | Some p =>
      let self := incr_packets_received self in
      let self := emit (packet_received p) self in
      Ret (Continue, self, skipn (Z.to_nat total_packet_size) buffer)
  | None =>
      buffer' <- del_first buffer ;;
      Ret (Continue, self, buffer')
  end.

(** One iteration of the [while] loop of [_parse_buffer], entered with
    [len(buffer) >= HEADER_SIZE + FOOTER_SIZE]. *)
Definition parse_iteration (self : SerialHandler) (buffer : list byte)
  : outcome (control * SerialHandler * list byte) :=
  match find MAGIC_BYTE buffer with
  | None => Ret (Break, self, [])
  | Some magic_index =>
      let buffer :=
        if (0 <? Z.of_nat magic_index)%Z then skipn magic_index buffer
        else buffer in
      if len buffer <? HEADER_SIZE then Ret (Break, self, buffer) else
      match parse_try self buffer with
      | Raise e =>
          if existsb (exn_eqb e) [StructError; IndexError]
          then buffer' <- del_first buffer ;; Ret (Continue, self, buffer')
          else Raise e
      | Ret r => Ret r
      end
  end.

(** The [while] loop, for at most [fuel] iterations; [None] when the fuel
    runs out before the loop ends. *)
Fixpoint parse_loop (fuel : nat) (self : SerialHandler) (buffer : list byte)
  : option (outcome (SerialHandler * list byte)) :=
  if len buffer <? HEADER_SIZE + FOOTER_SIZE then Some (Ret (self, buffer))
  else
    match fuel with
    | O => None
    | S fuel' =>
        match parse_iteration self buffer with
        | Raise e => Some (Raise e)
        | Ret (Break, self', buffer') => Some (Ret (self', buffer'))
        | Ret (Continue, self', buffer') => parse_loop fuel' self' buffer'
        end
    end.

(** [_parse_buffer]: the handler and the buffer after the call.  Every
    iteration that continues shortens the buffer, so [len(buffer)]
    iterations are enough. *)
Definition _parse_buffer (self : SerialHandler) (buffer : list byte)
  : option (outcome (SerialHandler * list byte)) :=
  parse_loop (List.length buffer) self buffer.

(** The body of [_receive_loop] for one chunk read from the port:
    extend the buffer, count the bytes, parse. *)
Definition receive_chunk (self : SerialHandler) (buffer : list byte)
           (data : list byte)
  : option (outcome (SerialHandler * list byte)) :=
  let buffer := buffer ++ data in
  let self := add_bytes_received (len data) self in
  _parse_buffer self buffer.

(** [_receive_loop] over the successive chunks the port delivers,
    starting from the empty buffer it allocates. *)
Fixpoint receive_chunks (self : SerialHandler) (buffer : list byte)
         (chunks : list (list byte))
  : option (outcome (SerialHandler * list byte)) :=
  match chunks with
  | [] => Some (Ret (self, buffer))
  | data :: rest =>
      match receive_chunk self buffer data with
      | Some (Ret (self', buffer')) => receive_chunks self' buffer' rest
      | other => other
      end
  end.

Definition _receive_loop (self : SerialHandler) (chunks : list (list byte)) :=
  receive_chunks self [] chunks.

End Serial.

(* ================================================================== *)
(** * Python [dict] with integer keys

    Entries in insertion order, one per key. *)

Module Dict.

Definition t (V : Type) : Type := list (Z * V).

Definition empty {V} : t V := [].

(** [d.get(k)] *)
Fixpoint get {V} (k : Z) (d : t V) : option V :=
  match d with
  | [] => None
  | (k', v) :: rest => if k' =? k then Some v else get k rest
  end.

(** [k in d] *)
Definition contains {V} (k : Z) (d : t V) : bool :=
  match get k d with Some _ => true | None => false end.

(** [d[k] = v]: an existing key keeps its place, a new one goes last. *)
Fixpoint set {V} (k : Z) (v : V) (d : t V) : t V :=
  match d with
  | [] => [(k, v)]
  | (k', v') :: rest =>
      if k' =? k then (k, v) :: rest else (k', v') :: set k v rest
  end.

Fixpoint remove {V} (k : Z) (d : t V) : t V :=
  match d with
  | [] => []
  | (k', v') :: rest =>
      if k' =? k then rest else (k', v') :: remove k rest
  end.

(** [del d[k]]: raises [KeyError] when [k] is absent. *)
Definition del {V} (k : Z) (d : t V) : outcome (t V) :=
  if contains k d then Ret (remove k d) else Raise KeyError.

(** [d.items()] *)
Definition items {V} (d : t V) : list (Z * V) := d.

Definition keys {V} (d : t V) : list Z := map fst d.

(** What every dict satisfies: no key twice. *)
Definition wf {V} (d : t V) : Prop := NoDup (keys d).

End Dict.

(* ================================================================== *)
(** * [core/test_engine.py] *)

Module Engine.
Import Protocol Serial.

Inductive TestMode : Type := TRANSMITTER | RECEIVER.

Definition mode_value (m : TestMode) : string :=
  match m with TRANSMITTER => "transmitter" | RECEIVER => "receiver" end.

Record TestMetrics : Type := mkTestMetrics {
  start_time : Q;
  end_time : Q;
  packets_sent : Z;
  packets_received : Z;
  packets_lost : Z;
  bytes_transmitted : Z;
  latency_samples : list Q;
  bandwidth_samples : list Q;
  errors : list string
}.

Definition empty_metrics : TestMetrics :=
  mkTestMetrics 0 0 0 0 0 0 [] [] [].

(** The Qt signals of [TestEngine]. *)
Inductive signal : Type :=
| test_started
| test_stopped
| test_paused
| test_resumed
| status_message (msg : string).

(** [test_thread] is [true] once a drive-loop thread has been started;
    [stop_event] and [pause_event] are the flags of the two
    [threading.Event]s; [signals] is the trace of emitted signals. *)
Record TestEngine : Type := mkTestEngine {
  serial_handler : SerialHandler;
  mode : TestMode;
  packet_size : Z;
  transmission_rate : Z;
  test_duration : Z;
  heartbeat_interval : Z;
  is_running : bool;
  is_paused : bool;
  test_thread : bool;
  stop_event : bool;
  pause_event : bool;
  metrics : TestMetrics;
  pending_acks : Dict.t Q;
  expected_sequences : list Z;
  received_sequences : list Z;
  last_sequence : Z;
  signals : list signal
}.

(** [TestEngine.__init__] *)
Definition init (serial_handler : SerialHandler) : TestEngine :=
  mkTestEngine serial_handler TRANSMITTER 64 10 60 5
    false false false false false empty_metrics Dict.empty [] [] (-1) [].

(** ** Field updates *)

Definition set_serial_handler (s : SerialHandler) (e : TestEngine) :=
  mkTestEngine s (mode e) (packet_size e) (transmission_rate e)
    (test_duration e) (heartbeat_interval e) (is_running e) (is_paused e)
    (test_thread e) (stop_event e) (pause_event e) (metrics e)
    (pending_acks e) (expected_sequences e) (received_sequences e)
    (last_sequence e) (signals e).

Definition set_config (m : TestMode) (ps tr td : Z) (e : TestEngine) :=
  mkTestEngine (serial_handler e) m ps tr td (heartbeat_interval e)
    (is_running e) (is_paused e) (test_thread e) (stop_event e)
    (pause_event e) (metrics e) (pending_acks e) (expected_sequences e)
    (received_sequences e) (last_sequence e) (signals e).

Definition set_flags (running paused thread stop pause : bool)
           (e : TestEngine) :=
  mkTestEngine (serial_handler e) (mode e) (packet_size e)
    (transmission_rate e) (test_duration e) (heartbeat_interval e)
    running paused thread stop pause (metrics e) (pending_acks e)
    (expected_sequences e) (received_sequences e) (last_sequence e)
    (signals e).

Definition set_metrics (m : TestMetrics) (e : TestEngine) :=
  mkTestEngine (serial_handler e) (mode e) (packet_size e)
    (transmission_rate e) (test_duration e) (heartbeat_interval e)
    (is_running e) (is_paused e) (test_thread e) (stop_event e)
    (pause_event e) m (pending_acks e) (expected_sequences e)
    (received_sequences e) (last_sequence e) (signals e).

Definition set_pending_acks (d : Dict.t Q) (e : TestEngine) :=
  mkTestEngine (serial_handler e) (mode e) (packet_size e)
    (transmission_rate e) (test_duration e) (heartbeat_interval e)
    (is_running e) (is_paused e) (test_thread e) (stop_event e)
    (pause_event e) (metrics e) d (expected_sequences e)
    (received_sequences e) (last_sequence e) (signals e).

Definition set_expected_sequences (l : list Z) (e : TestEngine) :=
  mkTestEngine (serial_handler e) (mode e) (packet_size e)
    (transmission_rate e) (test_duration e) (heartbeat_interval e)
    (is_running e) (is_paused e) (test_thread e) (stop_event e)
    (pause_event e) (metrics e) (pending_acks e) l
    (received_sequences e) (last_sequence e) (signals e).

Definition set_received_sequences (l : list Z) (e : TestEngine) :=
  mkTestEngine (serial_handler e) (mode e) (packet_size e)
    (transmission_rate e) (test_duration e) (heartbeat_interval e)
    (is_running e) (is_paused e) (test_thread e) (stop_event e)
    (pause_event e) (metrics e) (pending_acks e) (expected_sequences e)
    l (last_sequence e) (signals e).

Definition set_last_sequence (n : Z) (e : TestEngine) :=
  mkTestEngine (serial_handler e) (mode e) (packet_size e)
    (transmission_rate e) (test_duration e) (heartbeat_interval e)
    (is_running e) (is_paused e) (test_thread e) (stop_event e)
    (pause_event e) (metrics e) (pending_acks e) (expected_sequences e)
    (received_sequences e) n (signals e).

Definition emit (sg : signal) (e : TestEngine) :=
  mkTestEngine (serial_handler e) (mode e) (packet_size e)
    (transmission_rate e) (test_duration e) (heartbeat_interval e)
    (is_running e) (is_paused e) (test_thread e) (stop_event e)
    (pause_event e) (metrics e) (pending_acks e) (expected_sequences e)
    (received_sequences e) (last_sequence e) (signals e ++ [sg]).

Definition set_end_time (t : Q) (m : TestMetrics) :=
  mkTestMetrics (start_time m) t (packets_sent m) (packets_received m)
    (packets_lost m) (bytes_transmitted m) (latency_samples m)
    (bandwidth_samples m) (errors m).

Definition add_packets_sent (n : Z) (m : TestMetrics) :=
  mkTestMetrics (start_time m) (end_time m) (packets_sent m + n)
    (packets_received m) (packets_lost m) (bytes_transmitted m)
    (latency_samples m) (bandwidth_samples m) (errors m).

Definition add_packets_received (n : Z) (m : TestMetrics) :=
  mkTestMetrics (start_time m) (end_time m) (packets_sent m)
    (packets_received m + n) (packets_lost m) (bytes_transmitted m)
    (latency_samples m) (bandwidth_samples m) (errors m).

Definition add_packets_lost (n : Z) (m : TestMetrics) :=
  mkTestMetrics (start_time m) (end_time m) (packets_sent m)
    (packets_received m) (packets_lost m + n) (bytes_transmitted m)
    (latency_samples m) (bandwidth_samples m) (errors m).

Definition add_bytes_transmitted (n : Z) (m : TestMetrics) :=
  mkTestMetrics (start_time m) (end_time m) (packets_sent m)
    (packets_received m) (packets_lost m) (bytes_transmitted m + n)
    (latency_samples m) (bandwidth_samples m) (errors m).

Definition append_latency (x : Q) (m : TestMetrics) :=
  mkTestMetrics (start_time m) (end_time m) (packets_sent m)
    (packets_received m) (packets_lost m) (bytes_transmitted m)
    (latency_samples m ++ [x]) (bandwidth_samples m) (errors m).

Definition append_error (s : string) (m : TestMetrics) :=
  mkTestMetrics (start_time m) (end_time m) (packets_sent m)
    (packets_received m) (packets_lost m) (bytes_transmitted m)
    (latency_samples m) (bandwidth_samples m) (errors m ++ [s]).

(** ** Lifecycle *)

Definition configure_test (self : TestEngine) (mode : TestMode)
           (packet_size transmission_rate test_duration : Z)
  : bool * TestEngine :=
  if is_running self then (false, self)
  else (true, set_config mode packet_size transmission_rate test_duration
                self).

Definition _reset_metrics (self : TestEngine) : TestEngine :=
  let self := set_metrics empty_metrics self in
  let self := set_pending_acks Dict.empty self in
  let self := set_expected_sequences [] self in
  let self := set_received_sequences [] self in
  set_last_sequence (-1) self.

Definition start_test (self : TestEngine) : bool * TestEngine :=
  if is_running self || negb (Serial.is_connected (serial_handler self))
  then (false, self)
  else
    let self := _reset_metrics self in
    let self := set_flags true false true false false self in
    let self := emit test_started self in
    let self :=
      emit (status_message
              ("Test started in " ++ mode_value (mode self) ++ " mode"))
           self in
    (true, self).

(** [stop_test]; [now] is the value of [time.time()]. *)
Definition stop_test (self : TestEngine) (now : Q) : TestEngine :=
  if negb (is_running self) then self
  else
    let self := set_flags false (is_paused self) (test_thread self) true
                  (pause_event self) self in
    let self := set_metrics (set_end_time now (metrics self)) self in
    let self := emit test_stopped self in
    emit (status_message "Test stopped") self.

Definition pause_test (self : TestEngine) : TestEngine :=
  if negb (is_running self) || is_paused self then self
  else
    let self := set_flags (is_running self) true (test_thread self)
                  (stop_event self) true self in
    let self := emit test_paused self in
    emit (status_message "Test paused") self.

Definition resume_test (self : TestEngine) : TestEngine :=
  if negb (is_running self) || negb (is_paused self) then self
  else
    let self := set_flags (is_running self) false (test_thread self)
                  (stop_event self) false self in
    let self := emit test_resumed self in
    emit (status_message "Test resumed") self.

(** The states of the session, read off the two flags. *)
Inductive session_state : Type := IDLE_OR_STOPPED | RUNNING | PAUSED.

Definition state_of (self : TestEngine) : session_state :=
  if is_running self
  then (if is_paused self then PAUSED else RUNNING)
  else IDLE_OR_STOPPED.

(** ** Inbound packets *)

Definition missing_msg (seq : Z) : string :=
  "Missing packet: seq=" ++ str seq.

Definition timeout_msg (seq : Z) : string :=
  "ACK timeout: seq=" ++ str seq.

Definition unexpected_data_msg (seq : Z) : string :=
  "Unexpected DATA packet: seq=" ++ str seq.

Definition unexpected_ack_msg (seq : Z) : string :=
  "Unexpected ACK packet: seq=" ++ str seq.

(** [for seq in ...: self.metrics.errors.append(msg(seq))] *)
Definition append_errors (msg : Z -> string) (seqs : list Z)
           (m : TestMetrics) : TestMetrics :=
  fold_left (fun m seq => append_error (msg seq) m) seqs m.

(** [_handle_data_packet_receiver].  [port] is the behaviour of the serial
    port for the acknowledgement, [ack_now] the clock read by
    [create_packet] for it.  The engine is returned as the call leaves
    it, also when the call raises. *)
Definition _handle_data_packet_receiver (self : TestEngine)
           (port : list byte -> outcome Z) (ack_now : Q)
           (packet : Packet) (current_time : Q)
  : outcome unit * TestEngine :=
  let self := set_metrics (add_packets_received 1 (metrics self)) self in
  let self :=
    set_metrics (add_bytes_transmitted (len (payload packet)) (metrics self))
                self in
  let self :=
    set_received_sequences
      (set_add (sequence_id packet) (received_sequences self)) self in
  let self :=
    if last_sequence self + 1 <? sequence_id packet then
      let lost_count := sequence_id packet - last_sequence self - 1 in
      let self :=
        set_metrics (add_packets_lost lost_count (metrics self)) self in
      set_metrics
        (append_errors missing_msg
           (range (last_sequence self + 1) (sequence_id packet))
           (metrics self)) self
    else self in
  let self :=
    set_last_sequence (Z.max (last_sequence self) (sequence_id packet))
                      self in
  match create_ack_packet (protocol (serial_handler self)) ack_now
          (sequence_id packet) with
  | Raise e => (Raise e, self)
  | Ret (ack_packet, proto) =>
      let self :=
        set_serial_handler (set_protocol proto (serial_handler self)) self in
      match send_packet (serial_handler self) port ack_packet with
      | (Raise e, sh) => (Raise e, set_serial_handler sh self)
      | (Ret _, sh) =>
          let self := set_serial_handler sh self in
          let latency := (current_time - timestamp packet)%Q in
          if gt latency 0
          then (Ret tt,
                set_metrics (append_latency latency (metrics self)) self)
          else (Ret tt, self)
      end
  end.

Definition _handle_ack_packet_transmitter (self : TestEngine)
           (packet : Packet) (current_time : Q)
  : outcome unit * TestEngine :=
  match get_acked_sequence (protocol (serial_handler self)) packet with
  | Raise e => (Raise e, self)
  | Ret None => (Ret tt, self)
  | Ret (Some acked_seq) =>
      match Dict.get acked_seq (pending_acks self) with
      | None => (Ret tt, self)
      | Some send_time =>
          let latency := (current_time - send_time)%Q in
          let self :=
            set_metrics (append_latency latency (metrics self)) self in
          match Dict.del acked_seq (pending_acks self) with
          | Raise e => (Raise e, self)
          | Ret d =>
              let self := set_pending_acks d self in
              (Ret tt,
               set_metrics (add_packets_received 1 (metrics self)) self)
          end
      end
  end.

(** [_handle_received_packet]; [now] is the clock it reads. *)
Definition _handle_received_packet (self : TestEngine)
           (port : list byte -> outcome Z) (ack_now : Q)
           (packet : Packet) (now : Q)
  : outcome unit * TestEngine :=
  if negb (is_running self) then (Ret tt, self)
  else
    let current_time := now in
    match packet_type packet, mode self with
    | DATA, TRANSMITTER =>
        (Ret tt,
         set_metrics
           (append_error (unexpected_data_msg (sequence_id packet))
              (metrics self)) self)
    | DATA, RECEIVER =>
        _handle_data_packet_receiver self port ack_now packet current_time
    | ACK, TRANSMITTER =>
        _handle_ack_packet_transmitter self packet current_time
    | ACK, RECEIVER =>
        (Ret tt,
         set_metrics
           (append_error (unexpected_ack_msg (sequence_id packet))
              (metrics self)) self)
    | HEARTBEAT, _ => (Ret tt, self)
    end.

(** ** The originator's bookkeeping *)

(** The first loop of [_check_ack_timeouts]: the keys found too old. *)
Definition timed_out (pending : Dict.t Q) (current_time timeout : Q)
  : list Z :=
  map fst
    (filter (fun kv => gt (current_time - snd kv)%Q timeout)
       (Dict.items pending)).

(** The second loop of [_check_ack_timeouts]. *)
Fixpoint expire (seqs : list Z) (self : TestEngine)
  : outcome unit * TestEngine :=
  match seqs with
  | [] => (Ret tt, self)
  | seq_id :: rest =>
      match Dict.del seq_id (pending_acks self) with
      | Raise e => (Raise e, self)
      | Ret d =>
          let self := set_pending_acks d self in
          let self := set_metrics (add_packets_lost 1 (metrics self)) self in
          let self :=
            set_metrics (append_error (timeout_msg seq_id) (metrics self))
                        self in
          expire rest self
      end
  end.

Definition _check_ack_timeouts (self : TestEngine) (current_time : Q)
           (timeout : Q) : outcome unit * TestEngine :=
  expire (timed_out (pending_acks self) current_time timeout) self.

Definition default_timeout : Q := 5.

(** [b'X' * n] *)
Definition filler (n : Z) : list byte := repeat "X"%byte (Z.to_nat n).

(** The block of [_transmitter_loop] that originates one DATA packet
    (the body of [if current_time >= next_packet_time], schedule
    excluded); [create_now] is the clock read by [create_packet]. *)
Definition transmit_data (self : TestEngine)
           (port : list byte -> outcome Z) (create_now : Q)
           (current_time : Q) : outcome unit * TestEngine :=
  let test_data := filler (packet_size self) in
  let '(packet, proto) :=
    create_data_packet (protocol (serial_handler self)) create_now
      test_data in
  let self :=
    set_serial_handler (set_protocol proto (serial_handler self)) self in
  match send_packet (serial_handler self) port packet with
  | (Raise e, sh) => (Raise e, set_serial_handler sh self)
  | (Ret false, sh) => (Ret tt, set_serial_handler sh self)
  | (Ret true, sh) =>
      let self := set_serial_handler sh self in
      let self := set_metrics (add_packets_sent 1 (metrics self)) self in
      let self :=
        set_metrics (add_bytes_transmitted (len test_data) (metrics self))
                    self in
      let self :=
        set_pending_acks
          (Dict.set (sequence_id packet) current_time (pending_acks self))
          self in
      (Ret tt,
       set_expected_sequences
         (expected_sequences self ++ [sequence_id packet]) self)
  end.

(** What happens to a running engine, one call at a time. *)
Inductive event : Type :=
| Sweep (current_time : Q)
| Transmit (port : list byte -> outcome Z) (create_now current_time : Q)
| Received (port : list byte -> outcome Z) (ack_now : Q)
           (packet : Packet) (now : Q).

Definition step (self : TestEngine) (ev : event)
  : outcome unit * TestEngine :=
  match ev with
  | Sweep current_time =>
      _check_ack_timeouts self current_time default_timeout
  | Transmit port create_now current_time =>
      transmit_data self port create_now current_time
  | Received port ack_now packet now =>
      _handle_received_packet self port ack_now packet now
  end.

(** The engine after a series of calls; an exception ends the call that
    raised it and leaves the engine as that call left it. *)
Definition run (self : TestEngine) (evs : list event) : TestEngine :=
  fold_left (fun e ev => snd (step e ev)) evs self.

End Engine.

(* ================================================================== *)
(** * Frames *)

Module Frames.
Import Struct Zlib Protocol.

(** The frame of a packet, as [serialize_packet] lays it out. *)
Definition frame_body (p : Packet) : list byte :=
  [z2b MAGIC_BYTE; z2b (value (packet_type p))]
    ++ be16 (sequence_id p) ++ be32 (timestamp_ms p)
    ++ be32 (payload_size p) ++ payload p.

Definition frame (p : Packet) : list byte :=
  frame_body p ++ be32 (crc32 (frame_body p)).

(** The packets [struct.pack] accepts. *)
Definition encodable (p : Packet) : bool :=
  in_range 16 (sequence_id p) && in_range 32 (timestamp_ms p)
  && in_range 32 (payload_size p).

(** What [deserialize_packet] makes of the frame of [p]. *)
Definition decoded (p : Packet) : Packet :=
  mkPacket (packet_type p) (sequence_id p) (timestamp_ms p # 1000)
    (payload p).

(** The bytes of a series of frames, one after the other. *)
Definition stream (ps : list Packet) : list byte :=
  List.concat (map frame ps).

(** The codec after a series of [create_packet] calls, each given by the
    clock it read and the type and payload asked for. *)
Definition after_creating (self : ProtocolHandler)
           (calls : list (Q * PacketType * list byte)) : ProtocolHandler :=
  fold_left
    (fun h c => snd (create_packet h (fst (fst c)) (snd (fst c)) (snd c)))
    calls self.

End Frames.

(* ================================================================== *)
(** * The conditions under which a buffer is no frame *)

Module DecodeSpec.
Import Struct Zlib Protocol.

Definition byte_at (i : nat) (data : list byte) : byte := nth i data x00.

Definition magic_of (data : list byte) : Z := b2z (byte_at 0 data).

Definition type_of (data : list byte) : Z := b2z (byte_at 1 data).

(** The payload length the buffer declares, at offset 8. *)
Definition declared_len (data : list byte) : Z :=
  of_be32 (byte_at 8 data) (byte_at 9 data) (byte_at 10 data)
    (byte_at 11 data).

(** The four bytes that follow the declared payload. *)
Definition stored_checksum (data : list byte) : Z :=
  let e := Z.to_nat (HEADER_SIZE + declared_len data) in
  of_be32 (byte_at e data) (byte_at (e + 1) data) (byte_at (e + 2) data)
    (byte_at (e + 3) data).

(** The CRC-32 of everything before them. *)
Definition computed_checksum (data : list byte) : Z :=
  crc32 (firstn (Z.to_nat (HEADER_SIZE + declared_len data)) data).

Definition too_short (data : list byte) : Prop :=
  len data < HEADER_SIZE + FOOTER_SIZE.

Definition magic_mismatch (data : list byte) : Prop :=
  magic_of data <> MAGIC_BYTE.

Definition frame_exceeds_buffer (data : list byte) : Prop :=
  len data < HEADER_SIZE + declared_len data + FOOTER_SIZE.

Definition checksum_mismatch (data : list byte) : Prop :=
  stored_checksum data <> computed_checksum data.

Definition unknown_type (data : list byte) : Prop :=
  ~ In (type_of data) [0x01; 0x02; 0x03].

(** Bit [i] of a buffer: bit [i mod 8] of byte [i / 8]. *)
Fixpoint flip_bit (i : nat) (data : list byte) : list byte :=
  match data with
  | [] => []
  | b :: rest =>
      if (i <? 8)%nat then Bytes.xor b (z2b (2 ^ Z.of_nat i)) :: rest
      else b :: flip_bit (i - 8) rest
  end.

(** A buffer that is exactly one accepted frame. *)
Definition exact_frame (f : list byte) : Prop :=
  len f = HEADER_SIZE + declared_len f + FOOTER_SIZE
  /\ magic_of f = MAGIC_BYTE
  /\ stored_checksum f = computed_checksum f.

(** The size of the frame a buffer announces. *)
Definition announced_size (b : list byte) : Z :=
  HEADER_SIZE + declared_len b + FOOTER_SIZE.

End DecodeSpec.

(* ================================================================== *)
(** * Vocabulary of the reassembler's properties *)

Module Reassembly.
Import Protocol Serial Frames.

(** The handler after a packet was received and signalled. *)
Definition received (p : Packet) (s : SerialHandler) : SerialHandler :=
  emit (packet_received p) (incr_packets_received s).

(** The handler after each packet of a series was received. *)
Definition receive_all (ps : list Packet) (s : SerialHandler)
  : SerialHandler :=
  fold_left (fun s p => received (decoded p) s) ps s.

(** What keeps the loop from going on: the first frame still expected is
    not wholly in the buffer, [skip] bytes of which precede it. *)
Definition waiting (skip : Z) (l : list byte) (ps : list Packet) : Prop :=
  match ps with
  | [] => True
  | p :: _ => len l < skip + len (frame p)
  end.

End Reassembly.

(* ================================================================== *)
(** * Vocabulary of the engine's properties *)

Module Bookkeeping.
Import Protocol Serial Engine.

Definition counter (e : TestEngine) : Z :=
  Protocol.sequence_counter (protocol (serial_handler e)).

(** The first half of [_handle_data_packet_receiver]: counters, seen
    set, gap and [last_sequence]. *)
Definition track_data (e : TestEngine) (p : Protocol.Packet) : TestEngine :=
  let e := set_metrics (add_packets_received 1 (metrics e)) e in
  let e :=
    set_metrics
      (add_bytes_transmitted (len (Protocol.payload p)) (metrics e)) e in
  let e :=
    set_received_sequences
      (set_add (Protocol.sequence_id p) (received_sequences e)) e in
  let e :=
    if last_sequence e + 1 <? Protocol.sequence_id p then
      let lost_count := Protocol.sequence_id p - last_sequence e - 1 in
      let e := set_metrics (add_packets_lost lost_count (metrics e)) e in
      set_metrics
        (append_errors missing_msg
           (range (last_sequence e + 1) (Protocol.sequence_id p))
           (metrics e)) e
    else e in
  set_last_sequence (Z.max (last_sequence e) (Protocol.sequence_id p)) e.

(** The second half: acknowledgement and latency sample. *)
Definition acknowledge (e : TestEngine) (port : list byte -> outcome Z)
           (ack_now : Q) (p : Protocol.Packet) (t : Q)
  : outcome unit * TestEngine :=
  match Protocol.create_ack_packet (protocol (serial_handler e)) ack_now
          (Protocol.sequence_id p) with
  | Raise ex => (Raise ex, e)
  | Ret (ack_packet, proto) =>
      let e :=
        set_serial_handler (set_protocol proto (serial_handler e)) e in
      match send_packet (serial_handler e) port ack_packet with
      | (Raise ex, sh) => (Raise ex, set_serial_handler sh e)
      | (Ret _, sh) =>
          let e := set_serial_handler sh e in
          let latency := (t - Protocol.timestamp p)%Q in
          if gt latency 0
          then (Ret tt,
                set_metrics (append_latency latency (metrics e)) e)
          else (Ret tt, e)
      end
  end.

(** One DATA packet reaching [_handle_data_packet_receiver]: the port's
    behaviour for the acknowledgement, the clock read when the
    acknowledgement is created, the packet, the clock read on arrival. *)
Record arrival : Type := mkArrival {
  arr_port : list byte -> outcome Z;
  arr_ack_now : Q;
  arr_packet : Packet;
  arr_now : Q
}.

Definition handle_arrival (e : TestEngine) (a : arrival) : TestEngine :=
  snd (_handle_data_packet_receiver e (arr_port a) (arr_ack_now a)
         (arr_packet a) (arr_now a)).

(** The engine after the responder handled the arrivals in order. *)
Definition handle_data_packets (e : TestEngine) (arrivals : list arrival)
  : TestEngine :=
  fold_left handle_arrival arrivals e.

Definition arr_seq (a : arrival) : Z := sequence_id (arr_packet a).

(** A sequence id that is absent from the table and below the codec's
    counter: it was issued and is resolved. *)
Definition resolved (k : Z) (e : TestEngine) : Prop :=
  Dict.get k (pending_acks e) = None /\ k < counter e.

Definition timeouts_logged (k : Z) (e : TestEngine) : nat :=
  count_occ string_dec (errors (metrics e)) (timeout_msg k).

End Bookkeeping.

Import Frames DecodeSpec Reassembly Bookkeeping.

(* ================================================================== *)
(** * More of [core/protocol.py]: series of packets *)

Module Codec.
Import Protocol.

(** A call of [create_packet]: the clock it reads, the type, the payload. *)
Record creation : Type := mkCreation {
  cr_now : Q;
  cr_type : PacketType;
  cr_payload : list byte
}.

(** The packets a codec hands out over a series of [create_packet] calls,
    in order, and the codec afterwards. *)
Fixpoint create_packets (self : ProtocolHandler) (calls : list creation)
  : list Packet * ProtocolHandler :=
  match calls with
  | [] => ([], self)
  | c :: rest =>
      let '(p, self) :=
        create_packet self (cr_now c) (cr_type c) (cr_payload c) in
      let '(ps, self) := create_packets self rest in
      (p :: ps, self)
  end.

End Codec.

(* ================================================================== *)
(** * More of [core/serial_handler.py]: the connection *)

Module Port.
Import Protocol Serial.

Definition set_connection (connected port : bool) (s : SerialHandler) :=
  mkSerialHandler (protocol s) connected port (bytes_sent s)
    (bytes_received s) (packets_sent s) (packets_received s) (emitted s).

(** [disconnect].  The receive thread is stopped and the port closed; a
    failure to close is logged and nothing else. *)
Definition disconnect (self : SerialHandler) : SerialHandler :=
  if negb (is_connected self) then self
  else
    let self := set_connection false false self in
    emit (connection_status_changed false) self.

(** [connect].  [opened] is what [serial.Serial(...)] does: it returns the
    port or raises. *)
Definition connect (self : SerialHandler) (opened : outcome unit)
  : outcome bool * SerialHandler :=
  let self := if is_connected self then disconnect self else self in
  match opened with
  | Ret _ =>
      let self := set_connection true true self in
      let self := emit (connection_status_changed true) self in
      (Ret true, self)
  | Raise SerialException =>
      (Ret false, emit (error_occurred "Connection failed") self)
  | Raise e => (Raise e, self)
  end.

(** The dictionary [get_statistics] returns. *)
Record Statistics : Type := mkStatistics {
  st_bytes_sent : Z;
  st_bytes_received : Z;
  st_packets_sent : Z;
  st_packets_received : Z;
  st_is_connected : bool
}.

Definition get_statistics (self : SerialHandler) : Statistics :=
  mkStatistics (bytes_sent self) (bytes_received self) (packets_sent self)
    (packets_received self) (is_connected self).

Definition reset_statistics (self : SerialHandler) : SerialHandler :=
  mkSerialHandler (protocol self) (is_connected self)
    (serial_connection self) 0 0 0 0 (emitted self).

End Port.

(* ================================================================== *)
(** * More of [core/test_engine.py]: the derived metrics *)

Module Metrics.
Import Engine.

(** [TestMetrics.test_duration]; [now] is the clock it may read. *)
Definition test_duration (m : TestMetrics) (now : Q) : Q :=
  if gt (end_time m) 0 then (end_time m - start_time m)%Q
  else (now - start_time m)%Q.

(** [TestMetrics.packet_loss_rate] *)
Definition packet_loss_rate (m : TestMetrics) : Q :=
  if packets_sent m =? 0 then 0%Q
  else (inject_Z (packets_lost m) / inject_Z (packets_sent m) * 100)%Q.

(** [statistics.mean] on a non-empty list. *)
Definition mean (xs : list Q) : Q :=
  (fold_right Qplus 0 xs / inject_Z (len xs))%Q.

(** [TestMetrics.average_latency] *)
Definition average_latency (m : TestMetrics) : Q :=
  match latency_samples m with
  | [] => 0%Q
  | _ => mean (latency_samples m)
  end.

(** [TestMetrics.average_bandwidth] *)
Definition average_bandwidth (m : TestMetrics) : Q :=
  match bandwidth_samples m with
  | [] => 0%Q
  | _ => mean (bandwidth_samples m)
  end.

End Metrics.

(* ================================================================== *)
(** * More of [core/test_engine.py]: the drive loops

    An iteration of a loop is given by a [tick]: the clock the iteration
    reads, and for the heartbeat and the DATA packet it may send the
    behaviour of the port and the clock read by [create_packet].  The wait
    on [pause_event] at the head of an iteration is taken to be over. *)

Module Drive.
Import Protocol Serial Engine.

(** [x >= y] on floats. *)
Definition ge (x y : Q) : bool := Qle_bool y x.

Definition set_start_time (t : Q) (m : TestMetrics) :=
  mkTestMetrics t (end_time m) (packets_sent m) (packets_received m)
    (packets_lost m) (bytes_transmitted m) (latency_samples m)
    (bandwidth_samples m) (errors m).

Definition append_bandwidth (x : Q) (m : TestMetrics) :=
  mkTestMetrics (start_time m) (end_time m) (packets_sent m)
    (packets_received m) (packets_lost m) (bytes_transmitted m)
    (latency_samples m) (bandwidth_samples m ++ [x]) (errors m).

(** The signals of [TestEngine] that carry metrics. *)
Inductive report : Type :=
| metrics_updated (m : TestMetrics)
| progress_updated (elapsed_time : Q).

Record tick : Type := mkTick {
  tick_now : Q;
  hb_port : list byte -> outcome Z;
  hb_now : Q;
  data_port : list byte -> outcome Z;
  data_now : Q
}.

(** The local variables of a loop. *)
Record locals : Type := mkLocals {
  last_heartbeat : Q;
  last_bandwidth_calc : Q;
  bytes_at_last_calc : Z;
  next_packet_time : Q
}.

(** [create_heartbeat_packet] followed by [send_packet]. *)
Definition send_heartbeat (self : TestEngine)
           (port : list byte -> outcome Z) (now : Q)
  : outcome unit * TestEngine :=
  let '(heartbeat, proto) :=
    create_heartbeat_packet (protocol (serial_handler self)) now in
  let self :=
    set_serial_handler (set_protocol proto (serial_handler self)) self in
  match send_packet (serial_handler self) port heartbeat with
  | (Raise e, sh) => (Raise e, set_serial_handler sh self)
  | (Ret _, sh) => (Ret tt, set_serial_handler sh self)
  end.

(** "Send heartbeat if needed", in both loops. *)
Definition heartbeat_block (self : TestEngine) (loc : locals) (tk : tick)
  : outcome unit * locals * TestEngine :=
  let current_time := tick_now tk in
  if ge (current_time - last_heartbeat loc)
        (inject_Z (heartbeat_interval self))
  then
    match send_heartbeat self (hb_port tk) (hb_now tk) with
    | (Raise e, self) => (Raise e, loc, self)
    | (Ret _, self) =>
        (Ret tt,
         mkLocals current_time (last_bandwidth_calc loc)
           (bytes_at_last_calc loc) (next_packet_time loc), self)
    end
  else (Ret tt, loc, self).

(** "Send data packet if it's time", in [_transmitter_loop]. *)
Definition data_block (self : TestEngine) (packet_interval : Q)
           (loc : locals) (tk : tick)
  : outcome unit * locals * TestEngine :=
  let current_time := tick_now tk in
  if ge current_time (next_packet_time loc)
  then
    match transmit_data self (data_port tk) (data_now tk) current_time with
    | (Raise e, self) => (Raise e, loc, self)
    | (Ret _, self) =>
        (Ret tt,
         mkLocals (last_heartbeat loc) (last_bandwidth_calc loc)
           (bytes_at_last_calc loc)
           (next_packet_time loc + packet_interval), self)
    end
  else (Ret tt, loc, self).

(** "Calculate bandwidth periodically"; the responder keeps a sample only
    when it is positive. *)
Definition bandwidth_block (self : TestEngine) (positive_only : bool)
           (loc : locals) (tk : tick) : locals * TestEngine :=
  let current_time := tick_now tk in
  if ge (current_time - last_bandwidth_calc loc) 1
  then
    let bytes_diff :=
      bytes_transmitted (metrics self) - bytes_at_last_calc loc in
    let bandwidth :=
      (inject_Z bytes_diff / (current_time - last_bandwidth_calc loc))%Q in
    let self :=
      if negb positive_only || gt bandwidth 0
      then set_metrics (append_bandwidth bandwidth (metrics self)) self
      else self in
    (mkLocals (last_heartbeat loc) current_time
       (bytes_transmitted (metrics self)) (next_packet_time loc), self)
  else (loc, self).

(** Whether the test has run its time at [current_time]. *)
Definition duration_exceeded (self : TestEngine) (current_time : Q) : bool :=
  ge (current_time - start_time (metrics self))
     (inject_Z (test_duration self)).

(** One iteration of the [while] loop of [_transmitter_loop]. *)
Definition transmitter_iteration (self : TestEngine) (packet_interval : Q)
           (loc : locals) (tk : tick)
  : outcome control * locals * TestEngine :=
  if duration_exceeded self (tick_now tk) then (Ret Break, loc, self)
  else
    match heartbeat_block self loc tk with
    | (Raise e, loc, self) => (Raise e, loc, self)
    | (Ret _, loc, self) =>
        match data_block self packet_interval loc tk with
        | (Raise e, loc, self) => (Raise e, loc, self)
        | (Ret _, loc, self) =>
            let '(loc, self) := bandwidth_block self false loc tk in
            match _check_ack_timeouts self (tick_now tk) default_timeout with
            | (Raise e, self) => (Raise e, loc, self)
            | (Ret _, self) => (Ret Continue, loc, self)
            end
        end
    end.

(** One iteration of the [while] loop of [_receiver_loop]. *)
Definition receiver_iteration (self : TestEngine) (loc : locals) (tk : tick)
  : outcome control * locals * TestEngine :=
  if duration_exceeded self (tick_now tk) then (Ret Break, loc, self)
  else
    match heartbeat_block self loc tk with
    | (Raise e, loc, self) => (Raise e, loc, self)
    | (Ret _, loc, self) =>
        let '(loc, self) := bandwidth_block self true loc tk in
        (Ret Continue, loc, self)
    end.

(** What a loop can raise: what its calls raise, and a division by
    zero. *)
Inductive loop_exn : Type :=
| ZeroDivisionError
| Raised (e : exn).

(** How a loop stands after the ticks given: it has exited, it is still
    going, or it has raised. *)
Inductive loop_end : Type :=
| Exited
| Unfinished
| Failed (e : loop_exn).

(** The [while not self.stop_event.is_set()] loop, over the ticks. *)
Fixpoint while_not_stopped
         (iteration : TestEngine -> locals -> tick
                      -> outcome control * locals * TestEngine)
         (self : TestEngine) (loc : locals) (ticks : list tick)
  : loop_end * locals * TestEngine :=
  if stop_event self then (Exited, loc, self)
  else
    match ticks with
    | [] => (Unfinished, loc, self)
    | tk :: rest =>
        match iteration self loc tk with
        | (Raise e, loc, self) => (Failed (Raised e), loc, self)
        | (Ret Break, loc, self) => (Exited, loc, self)
        | (Ret Continue, loc, self) =>
            while_not_stopped iteration self loc rest
        end
    end.

(** [_transmitter_loop]; [sched_now] is the clock read for
    [next_packet_time]. *)
Definition _transmitter_loop (self : TestEngine)
           (last_heartbeat last_bandwidth_calc : Q) (bytes_at_last_calc : Z)
           (sched_now : Q) (ticks : list tick) : loop_end * TestEngine :=
  if transmission_rate self =? 0 then (Failed ZeroDivisionError, self)
  else
    let packet_interval := (1 / inject_Z (transmission_rate self))%Q in
    let next_packet_time := sched_now in
    let '(r, _, self) :=
      while_not_stopped
        (fun self loc tk => transmitter_iteration self packet_interval loc tk)
        self
        (mkLocals last_heartbeat last_bandwidth_calc bytes_at_last_calc
           next_packet_time)
        ticks in
    (r, self).

(** [_receiver_loop] *)
Definition _receiver_loop (self : TestEngine)
           (last_heartbeat last_bandwidth_calc : Q) (bytes_at_last_calc : Z)
           (ticks : list tick) : loop_end * TestEngine :=
  let '(r, _, self) :=
    while_not_stopped receiver_iteration self
      (mkLocals last_heartbeat last_bandwidth_calc bytes_at_last_calc 0)
      ticks in
  (r, self).

(** The clock readings of [_test_loop] itself. *)
Record clock : Type := mkClock {
  start_now : Q;
  heartbeat_now : Q;
  bandwidth_now : Q;
  sched_now : Q;
  end_now : Q
}.

(** [_test_loop], the body of the test thread; a loop that raises ends
    the thread there. *)
Definition _test_loop (self : TestEngine) (ck : clock) (ticks : list tick)
  : loop_end * list report * TestEngine :=
  let self :=
    set_metrics (set_start_time (start_now ck) (metrics self)) self in
  let last_heartbeat := heartbeat_now ck in
  let last_bandwidth_calc := bandwidth_now ck in
  let bytes_at_last_calc := 0 in
  let '(r, self) :=
    match mode self with
    | TRANSMITTER =>
        _transmitter_loop self last_heartbeat last_bandwidth_calc
          bytes_at_last_calc (sched_now ck) ticks
    | RECEIVER =>
        _receiver_loop self last_heartbeat last_bandwidth_calc
          bytes_at_last_calc ticks
    end in
  match r with
  | Exited =>
      let self := set_metrics (set_end_time (end_now ck) (metrics self)) self in
      let self :=
        set_flags false (is_paused self) (test_thread self)
          (stop_event self) (pause_event self) self in
      let self := emit test_stopped self in
      let self := emit (status_message "Test completed") self in
      (Exited, [metrics_updated (metrics self)], self)
  | _ => (r, [], self)
  end.

(** [_emit_metrics_update], the slot of the one-second timer. *)
Definition _emit_metrics_update (self : TestEngine) (now : Q) : list report :=
  if is_running self
  then [metrics_updated (metrics self);
        progress_updated (now - start_time (metrics self))]
  else [].

(** The iteration of the loop that [_test_loop] chose by the mode. *)
Definition loop_iteration (self : TestEngine) (packet_interval : Q)
           (loc : locals) (tk : tick)
  : outcome control * locals * TestEngine :=
  match mode self with
  | TRANSMITTER => transmitter_iteration self packet_interval loc tk
  | RECEIVER => receiver_iteration self loc tk
  end.

(** What goes on while a test runs, one piece at a time: an iteration of
    the drive loop, or a packet handed over by the receive thread. *)
Inductive activity : Type :=
| Iterate (packet_interval : Q) (tk : tick)
| Inbound (port : list byte -> outcome Z) (ack_now : Q)
          (packet : Packet) (now : Q).

Definition act (st : locals * TestEngine) (a : activity)
  : locals * TestEngine :=
  let '(loc, self) := st in
  match a with
  | Iterate packet_interval tk =>
      let '(_, loc, self) := loop_iteration self packet_interval loc tk in
      (loc, self)
  | Inbound port ack_now packet now =>
      (loc, snd (_handle_received_packet self port ack_now packet now))
  end.

Definition activities (st : locals * TestEngine) (l : list activity)
  : locals * TestEngine :=
  fold_left act l st.

End Drive.

(* ================================================================== *)
(** * Vocabulary of the connection's properties *)

Module Link.
Import Protocol Serial Port.

(** The calls made on a [SerialHandler]: by the application, and by the
    receive thread on the buffer it holds. *)
Inductive op : Type :=
| Connect (opened : outcome unit)
| Disconnect
| Send (port : list byte -> outcome Z) (packet : Packet)
| Parse (buffer : list byte)
| ResetStatistics.

Definition apply (s : SerialHandler) (o : op) : SerialHandler :=
  match o with
  | Connect opened => snd (connect s opened)
  | Disconnect => disconnect s
  | Send port packet => snd (send_packet s port packet)
  | Parse buffer =>
      match _parse_buffer s buffer with
      | Some (Ret (s', _)) => s'
      | _ => s
      end
  | ResetStatistics => reset_statistics s
  end.

Definition after (s : SerialHandler) (ops : list op) : SerialHandler :=
  fold_left apply ops s.

Definition is_reset (o : op) : bool :=
  match o with ResetStatistics => true | _ => false end.

(** What the listeners of [connection_status_changed] heard last;
    [default] when they heard nothing. *)
Fixpoint last_status (tr : list signal) (default : bool) : bool :=
  match tr with
  | [] => default
  | connection_status_changed up :: tr' => last_status tr' up
  | _ :: tr' => last_status tr' default
  end.

(** The handler after the packets were received and signalled, in
    order. *)
Definition heard (ps : list Packet) (s : SerialHandler) : SerialHandler :=
  fold_left (fun s p => Reassembly.received p s) ps s.

(** [p] is what [deserialize_packet] makes of a slice of [buffer]. *)
Definition decoded_from (h : ProtocolHandler) (buffer : list byte)
           (p : Packet) : Prop :=
  exists i n,
    fst (deserialize_packet h (slice 0 n (skipn i buffer))) = Ret (Some p).

(** A buffer the parsing loop leaves alone: too short for a frame, or the
    start of a frame that is not all there. *)
Definition at_rest (buffer : list byte) : Prop :=
  len buffer < HEADER_SIZE + FOOTER_SIZE
  \/ (DecodeSpec.magic_of buffer = MAGIC_BYTE
      /\ len buffer < DecodeSpec.announced_size buffer).

End Link.

(* ================================================================== *)
(** * Vocabulary of the session's properties *)

Module Accounting.
Import Protocol Serial Engine Bookkeeping.

(** A packet handed to [_handle_received_packet]. *)
Definition inbound (a : arrival) : event :=
  Received (arr_port a) (arr_ack_now a) (arr_packet a) (arr_now a).

(** The engine after the packets were handed over, in order. *)
Definition deliver (e : TestEngine) (arrivals : list arrival) : TestEngine :=
  run e (map inbound arrivals).

(** Sequence ids that go up, from above [last]. *)
Fixpoint ascending (last : Z) (ids : list Z) : Prop :=
  match ids with
  | [] => True
  | k :: rest => last < k /\ ascending k rest
  end.

Definition is_data (a : arrival) : bool :=
  PacketType_eqb (packet_type (arr_packet a)) DATA.

(** Every packet counted as sent is acknowledged, lost or pending. *)
Definition balanced (e : TestEngine) : Prop :=
  packets_sent (metrics e)
  = packets_received (metrics e) + packets_lost (metrics e)
    + len (pending_acks e).

(** The state of the originator's books between calls. *)
Definition sound (e : TestEngine) : Prop :=
  Dict.wf (pending_acks e)
  /\ (forall k, In k (Dict.keys (pending_acks e)) -> k < counter e)
  /\ 0 <= packets_received (metrics e)
  /\ 0 <= packets_lost (metrics e)
  /\ balanced e.

(** What a running test leaves alone: the configuration, the flags, the
    start and end times, and the signals emitted. *)
Definition same_session (e e' : TestEngine) : Prop :=
  mode e' = mode e
  /\ packet_size e' = packet_size e
  /\ transmission_rate e' = transmission_rate e
  /\ test_duration e' = test_duration e
  /\ heartbeat_interval e' = heartbeat_interval e
  /\ is_running e' = is_running e
  /\ is_paused e' = is_paused e
  /\ stop_event e' = stop_event e
  /\ pause_event e' = pause_event e
  /\ start_time (metrics e') = start_time (metrics e)
  /\ end_time (metrics e') = end_time (metrics e)
  /\ signals e' = signals e.

Definition positive (xs : list Q) : Prop := Forall (fun x => (0 < x)%Q) xs.

(** An engine in the middle of a test in mode [m], on an open port, its
    codec at a sequence id that two bytes can hold. *)
Definition ready (m : TestMode) (e : TestEngine) : Prop :=
  is_running e = true /\ mode e = m
  /\ is_connected (serial_handler e) = true
  /\ serial_connection (serial_handler e) = true
  /\ 0 <= counter e < 2 ^ 16.

(** A clock reading that the four timestamp bytes can hold. *)
Definition early (now : Q) : Prop :=
  0 <= int_of_float (now * 1000) < 2 ^ 32.

(** A port that writes whatever it is given. *)
Definition accepting (port : list byte -> outcome Z) : Prop :=
  forall d, exists n, port d = Ret n.




End Accounting.

(* ================================================================== *)
(** * Facts about bytes, [struct] and CRC-32 *)

Module BytesFacts.

Lemma b2z_range (b : byte) : 0 <= b2z b < 256.
Proof.
  unfold b2z. pose proof (Byte.to_N_bounded b). lia.
Qed.

Lemma b2z_z2b (z : Z) : b2z (z2b z) = z mod 256.
Proof.
  unfold b2z, z2b.
  pose proof (Z.mod_pos_bound z 256 ltac:(lia)) as Hm.
  destruct (Byte.of_N (Z.to_N (z mod 256))) as [b|] eqn:E.
  - apply Byte.to_of_N in E. rewrite E. lia.
  - apply Byte.of_N_None_iff in E. lia.
Qed.

Lemma z2b_b2z (b : byte) : z2b (b2z b) = b.
Proof.
  unfold z2b, b2z.
  pose proof (Byte.to_N_bounded b).
  rewrite Z.mod_small by lia.
  rewrite N2Z.id, Byte.of_to_N. reflexivity.
Qed.

Lemma b2z_inj (a b : byte) : b2z a = b2z b -> a = b.
Proof.
  intros H. rewrite <- (z2b_b2z a), <- (z2b_b2z b), H. reflexivity.
Qed.

Lemma b2z_z2b_small (z : Z) : 0 <= z < 256 -> b2z (z2b z) = z.
Proof. intros H. rewrite b2z_z2b. apply Z.mod_small; exact H. Qed.

End BytesFacts.

Module StructFacts.
Import BytesFacts Struct.

Lemma of_be32_range (a b c d : byte) : 0 <= of_be32 a b c d < 2 ^ 32.
Proof.
  unfold of_be32.
  pose proof (b2z_range a); pose proof (b2z_range b);
    pose proof (b2z_range c); pose proof (b2z_range d).
  change (2 ^ 24) with 16777216; change (2 ^ 16) with 65536;
    change (2 ^ 8) with 256; change (2 ^ 32) with 4294967296.
  lia.
Qed.

Lemma of_be32_inj (a b c d a' b' c' d' : byte) :
  of_be32 a b c d = of_be32 a' b' c' d' ->
  a = a' /\ b = b' /\ c = c' /\ d = d'.
Proof.
  unfold of_be32.
  pose proof (b2z_range a); pose proof (b2z_range b);
    pose proof (b2z_range c); pose proof (b2z_range d).
  pose proof (b2z_range a'); pose proof (b2z_range b');
    pose proof (b2z_range c'); pose proof (b2z_range d').
  change (2 ^ 24) with 16777216; change (2 ^ 16) with 65536;
    change (2 ^ 8) with 256.
  intros E.
  repeat split; apply b2z_inj; lia.
Qed.

Lemma of_be32_be32 (v : Z) :
  0 <= v < 2 ^ 32 ->
  match be32 v with
  | [a; b; c; d] => of_be32 a b c d = v
  | _ => False
  end.
Proof.
  intros Hv. unfold be32, of_be32.
  rewrite !b2z_z2b, !Z.shiftr_div_pow2 by lia.
  change (2 ^ 24) with 16777216 in *; change (2 ^ 16) with 65536 in *;
    change (2 ^ 8) with 256 in *; change (2 ^ 32) with 4294967296 in *.
  Z.div_mod_to_equations. lia.
Qed.

Lemma of_be16_be16 (v : Z) :
  0 <= v < 2 ^ 16 ->
  match be16 v with
  | [a; b] => of_be16 a b = v
  | _ => False
  end.
Proof.
  intros Hv. unfold be16, of_be16.
  rewrite !b2z_z2b, !Z.shiftr_div_pow2 by lia.
  change (2 ^ 16) with 65536 in *; change (2 ^ 8) with 256 in *.
  Z.div_mod_to_equations. lia.
Qed.

Lemma be32_length (v : Z) : List.length (be32 v) = 4%nat.
Proof. reflexivity. Qed.

Lemma unpack_I_be32 (v : Z) :
  0 <= v < 2 ^ 32 -> unpack_I (be32 v) = Ret v.
Proof.
  intros Hv. pose proof (of_be32_be32 v Hv) as H.
  unfold be32 in *. simpl. f_equal. exact H.
Qed.

Lemma in_range_true (n v : Z) :
  in_range n v = true <-> 0 <= v < 2 ^ n.
Proof. unfold in_range. rewrite andb_true_iff. lia. Qed.

Lemma in_range_false (n v : Z) :
  in_range n v = false <-> ~ (0 <= v < 2 ^ n).
Proof.
  rewrite <- in_range_true. destruct (in_range n v); intuition congruence.
Qed.

End StructFacts.

Module ZlibFacts.
Import BytesFacts Zlib.

Lemma testbit_above (n a i : Z) :
  0 <= n -> 0 <= a < 2 ^ n -> n <= i -> Z.testbit a i = false.
Proof.
  intros Hn Ha Hi.
  rewrite <- (Z.mod_small a (2 ^ n)) by exact Ha.
  apply Z.mod_pow2_bits_high. lia.
Qed.

Lemma lxor_range (n a b : Z) :
  0 <= n -> 0 <= a < 2 ^ n -> 0 <= b < 2 ^ n -> 0 <= Z.lxor a b < 2 ^ n.
Proof.
  intros Hn Ha Hb.
  assert (Hnn : 0 <= Z.lxor a b) by (apply Z.lxor_nonneg; lia).
  split; [exact Hnn|].
  rewrite <- (Z.mod_small (Z.lxor a b) (2 ^ n)); [apply Z.mod_pos_bound; lia|].
  split; [exact Hnn|].
  destruct (Z.eq_dec (Z.lxor a b) 0) as [E|E]; [rewrite E; lia|].
  assert (Hpos : 0 < n).
  { destruct (Z.eq_dec n 0) as [N|N]; [|lia].
    exfalso. apply E. subst n. change (2 ^ 0) with 1 in *.
    replace a with 0 by lia. replace b with 0 by lia. reflexivity. }
  assert (Hlog : forall x, 0 <= x < 2 ^ n -> Z.log2 x < n).
  { intros x Hx. destruct (Z.eq_dec x 0) as [X|X].
    - subst x. simpl. exact Hpos.
    - apply Z.log2_lt_pow2; lia. }
  apply Z.log2_lt_pow2; [lia|].
  eapply Z.le_lt_trans; [apply Z.log2_lxor; lia|].
  apply Z.max_lub_lt; apply Hlog; assumption.
Qed.

Lemma lxor_cancel_r (a b c : Z) : Z.lxor a c = Z.lxor b c -> a = b.
Proof.
  intros H.
  assert (E : Z.lxor (Z.lxor a c) c = Z.lxor (Z.lxor b c) c)
    by (rewrite H; reflexivity).
  rewrite !Z.lxor_assoc, !Z.lxor_nilpotent, !Z.lxor_0_r in E. exact E.
Qed.

Lemma lxor_cancel_l (a b c : Z) : Z.lxor c a = Z.lxor c b -> a = b.
Proof.
  rewrite (Z.lxor_comm c a), (Z.lxor_comm c b). apply lxor_cancel_r.
Qed.

Lemma POLY_word32 : word32 POLY.
Proof. unfold word32, POLY. lia. Qed.

Lemma shiftr1_range (c : Z) : word32 c -> 0 <= Z.shiftr c 1 < 2 ^ 31.
Proof.
  unfold word32. intros H. rewrite Z.shiftr_div_pow2 by lia.
  change (2 ^ 1) with 2. change (2 ^ 32) with 4294967296 in H.
  change (2 ^ 31) with 2147483648.
  Z.div_mod_to_equations. lia.
Qed.

Lemma crc_step_range (c : Z) : word32 c -> word32 (crc_step c).
Proof.
  intros H. pose proof (shiftr1_range c H) as Hs.
  unfold crc_step. destruct (Z.testbit c 0).
  - apply lxor_range; [lia| |apply POLY_word32].
    change (2 ^ 31) with 2147483648 in Hs.
    change (2 ^ 32) with 4294967296. lia.
  - unfold word32. change (2 ^ 31) with 2147483648 in Hs.
    change (2 ^ 32) with 4294967296. lia.
Qed.

(** The top bit of a step tells whether the polynomial was added. *)
Lemma crc_step_top (c : Z) :
  word32 c -> Z.testbit (crc_step c) 31 = Z.testbit c 0.
Proof.
  intros H. pose proof (shiftr1_range c H) as Hs.
  assert (Hhi : Z.testbit (Z.shiftr c 1) 31 = false)
    by (apply (testbit_above 31); lia).
  unfold crc_step. destruct (Z.testbit c 0).
  - rewrite Z.lxor_spec, Hhi. reflexivity.
  - exact Hhi.
Qed.

Lemma shiftr1_bit0 (a b : Z) :
  Z.shiftr a 1 = Z.shiftr b 1 -> Z.testbit a 0 = Z.testbit b 0 -> a = b.
Proof.
  intros Hs Hb.
  rewrite !Z.shiftr_div_pow2 in Hs by lia. change (2 ^ 1) with 2 in Hs.
  pose proof (Z.bit0_mod a) as Ha. pose proof (Z.bit0_mod b) as Hb'.
  rewrite Hb in Ha. rewrite Ha in Hb'.
  rewrite (Z.div_mod a 2), (Z.div_mod b 2) by lia.
  rewrite Hs, Hb'. reflexivity.
Qed.

Lemma crc_step_inj (a b : Z) :
  word32 a -> word32 b -> crc_step a = crc_step b -> a = b.
Proof.
  intros Ha Hb E.
  assert (Hbit : Z.testbit a 0 = Z.testbit b 0).
  { rewrite <- (crc_step_top a Ha), <- (crc_step_top b Hb), E.
    reflexivity. }
  apply shiftr1_bit0; [|exact Hbit].
  unfold crc_step in E. rewrite Hbit in E.
  destruct (Z.testbit b 0); [eapply lxor_cancel_r; exact E|exact E].
Qed.

Lemma iter_step_range (n : nat) (c : Z) :
  word32 c -> word32 (Nat.iter n crc_step c).
Proof.
  intros H. induction n as [|n IH]; simpl; [exact H|].
  apply crc_step_range, IH.
Qed.

Lemma iter_step_inj (n : nat) (a b : Z) :
  word32 a -> word32 b ->
  Nat.iter n crc_step a = Nat.iter n crc_step b -> a = b.
Proof.
  intros Ha Hb. induction n as [|n IH]; simpl; [auto|].
  intros E. apply IH.
  apply crc_step_inj; [apply iter_step_range, Ha|apply iter_step_range, Hb|].
  exact E.
Qed.

Lemma b2z_word32 (b : byte) : word32 (b2z b).
Proof.
  pose proof (b2z_range b). unfold word32.
  change (2 ^ 32) with 4294967296. lia.
Qed.

Lemma crc_byte_range (c : Z) (b : byte) : word32 c -> word32 (crc_byte c b).
Proof.
  intros H. unfold crc_byte. apply iter_step_range.
  apply lxor_range; [lia|exact H|apply b2z_word32].
Qed.

Lemma crc_byte_inj_state (c1 c2 : Z) (b : byte) :
  word32 c1 -> word32 c2 -> crc_byte c1 b = crc_byte c2 b -> c1 = c2.
Proof.
  intros H1 H2 E. unfold crc_byte in E.
  apply iter_step_inj in E;
    [|apply lxor_range; [lia|assumption|apply b2z_word32]..].
  eapply lxor_cancel_r; exact E.
Qed.

Lemma crc_byte_inj_byte (c : Z) (b1 b2 : byte) :
  word32 c -> crc_byte c b1 = crc_byte c b2 -> b1 = b2.
Proof.
  intros H E. unfold crc_byte in E.
  apply iter_step_inj in E;
    [|apply lxor_range; [lia|assumption|apply b2z_word32]..].
  apply b2z_inj. eapply lxor_cancel_l; exact E.
Qed.

Lemma crc_update_range (data : list byte) (c : Z) :
  word32 c -> word32 (crc_update c data).
Proof.
  revert c. induction data as [|b data IH]; simpl; intros c H; [exact H|].
  apply IH, crc_byte_range, H.
Qed.

Lemma crc_update_inj_state (data : list byte) (c1 c2 : Z) :
  word32 c1 -> word32 c2 ->
  crc_update c1 data = crc_update c2 data -> c1 = c2.
Proof.
  revert c1 c2. induction data as [|b data IH]; simpl; intros c1 c2 H1 H2 E;
    [exact E|].
  apply IH in E; [|apply crc_byte_range; assumption..].
  eapply crc_byte_inj_state; eassumption.
Qed.

Lemma crc_update_app (a b : list byte) (c : Z) :
  crc_update c (a ++ b) = crc_update (crc_update c a) b.
Proof. unfold crc_update. apply fold_left_app. Qed.

Lemma init_word32 : word32 0xFFFFFFFF.
Proof. unfold word32. lia. Qed.

Lemma crc32_range (data : list byte) : 0 <= crc32 data < 2 ^ 32.
Proof.
  unfold crc32. apply lxor_range; [lia| |apply init_word32].
  apply crc_update_range, init_word32.
Qed.

Lemma crc32_mask (data : list byte) :
  Z.land (crc32 data) 0xffffffff = crc32 data.
Proof.
  change 0xffffffff with (Z.ones 32).
  rewrite Z.land_ones by lia. apply Z.mod_small, crc32_range.
Qed.

(** The check value of CRC-32: the checksum of the ASCII digits 1 to 9. *)
Example crc32_check_value :
  crc32 [x31; x32; x33; x34; x35; x36; x37; x38; x39] = 0xCBF43926.
Proof. vm_compute. reflexivity. Qed.

(** CRC-32 tells apart two messages that differ in one byte only. *)
Lemma crc32_one_byte (pre post : list byte) (b b' : byte) :
  b <> b' -> crc32 (pre ++ b :: post) <> crc32 (pre ++ b' :: post).
Proof.
  intros Hne E. unfold crc32 in E.
  apply lxor_cancel_r in E.
  rewrite !crc_update_app in E. simpl in E.
  pose proof (crc_update_range pre _ init_word32) as Hp.
  apply crc_update_inj_state in E; [|apply crc_byte_range; exact Hp..].
  apply crc_byte_inj_byte in E; [|exact Hp].
  contradiction.
Qed.

End ZlibFacts.

(* ================================================================== *)
(** * Facts about the codec *)

Module ProtocolFacts.
Import BytesFacts StructFacts ZlibFacts Struct Zlib Protocol.

Lemma value_range (t : PacketType) : in_range 8 (value t) = true.
Proof. destruct t; reflexivity. Qed.

Lemma PacketType_of_value (t : PacketType) : PacketType_of (value t) = Ret t.
Proof. destruct t; reflexivity. Qed.

Lemma serialize_packet_eq (self : ProtocolHandler) (p : Packet) :
  serialize_packet self p
  = if encodable p then Ret (frame p) else Raise StructError.
Proof.
  unfold serialize_packet, encodable, pack_BBHI, pack_I.
  rewrite value_range.
  change (in_range 8 MAGIC_BYTE) with true. cbn [andb].
  destruct (in_range 16 (sequence_id p)); cbn [andb bind]; [|reflexivity].
  destruct (in_range 32 (timestamp_ms p)); cbn [andb bind]; [|reflexivity].
  destruct (in_range 32 (payload_size p)); cbn [andb bind]; [|reflexivity].
  rewrite crc32_mask.
  assert (R : in_range 32 (crc32 (([z2b MAGIC_BYTE; z2b (value (packet_type p))]
                ++ be16 (sequence_id p) ++ be32 (timestamp_ms p))
                ++ be32 (payload_size p) ++ payload p)) = true)
    by (apply in_range_true, crc32_range).
  rewrite R. cbn [bind]. unfold frame, frame_body.
  rewrite <- !app_assoc. reflexivity.
Qed.

(** The frame of DATA packet 5, stamped 1234.567 s, payload "hi". *)
Example serialize_packet_vector :
  serialize_packet Protocol.init (mkPacket DATA 5 (1234567 # 1000) [x68; x69])
  = Ret [xaa; x01; x00; x05; x00; x12; xd6; x87; x00; x00; x00; x02;
         x68; x69; x74; x61; x6c; x8c].
Proof. vm_compute. reflexivity. Qed.

Lemma frame_length (p : Packet) :
  len (frame p) = 8 + 4 + len (payload p) + 4.
Proof.
  unfold frame, frame_body, len.
  rewrite !length_app. cbn [List.length be16 be32]. lia.
Qed.

Lemma len_nonneg {A} (l : list A) : 0 <= len l.
Proof. unfold len. lia. Qed.

Lemma len_app {A} (a b : list A) : len (a ++ b) = len a + len b.
Proof. unfold len. rewrite length_app. lia. Qed.

(** [deserialize_try] on a buffer that holds at least the twelve bytes
    of the header and of the payload length. *)
Lemma deserialize_try_eq (m t s1 s0 t3 t2 t1 t0 l3 l2 l1 l0 : byte)
      (rest : list byte) :
  let head := [m; t; s1; s0; t3; t2; t1; t0; l3; l2; l1; l0] in
  let n := of_be32 l3 l2 l1 l0 in
  deserialize_try (head ++ rest)
  = if negb (b2z m =? MAGIC_BYTE) then Ret None
    else if len rest <? n + 4 then Ret None
    else
      expected <- unpack_I (firstn 4 (skipn (Z.to_nat n) rest)) ;;
      if negb (expected
               =? Z.land (crc32 (head ++ firstn (Z.to_nat n) rest))
                    0xffffffff)
      then Ret None
      else ty <- PacketType_of (b2z t) ;;
           Ret (Some (mkPacket ty (of_be16 s1 s0) (of_be32 t3 t2 t1 t0 # 1000)
                        (firstn (Z.to_nat n) rest))).
Proof.
  intros head n. subst head.
  pose proof (of_be32_range l3 l2 l1 l0) as Hn. fold n in Hn.
  unfold deserialize_try, slice, HEADER_SIZE, FOOTER_SIZE, calcsize_BBHI.
  change (Z.to_nat (1 + 1 + 2 + 4 - 0)) with 8%nat.
  change (Z.to_nat 0) with 0%nat.
  change (Z.to_nat (1 + 1 + 2 + 4 + 4 - (1 + 1 + 2 + 4))) with 4%nat.
  change (Z.to_nat (1 + 1 + 2 + 4)) with 8%nat.
  change (Z.to_nat (1 + 1 + 2 + 4 + 4)) with 12%nat.
  cbn [app skipn firstn unpack_BBHI unpack_I bind].
  fold n.
  destruct (negb (b2z m =? MAGIC_BYTE)); [reflexivity|].
  replace (len (m :: t :: s1 :: s0 :: t3 :: t2 :: t1 :: t0
                :: l3 :: l2 :: l1 :: l0 :: rest))
    with (12 + len rest)
    by (unfold len; cbn [List.length]; lia).
  replace (12 + len rest <? 1 + 1 + 2 + 4 + 4 + n + 4)
    with (len rest <? n + 4)
    by (destruct (len rest <? n + 4) eqn:E; symmetry;
        [apply Z.ltb_lt; apply Z.ltb_lt in E; lia
        |apply Z.ltb_ge; apply Z.ltb_ge in E; lia]).
  destruct (len rest <? n + 4); [reflexivity|].
  replace (Z.to_nat (1 + 1 + 2 + 4 + 4 + n - (1 + 1 + 2 + 4 + 4)))
    with (Z.to_nat n) by lia.
  replace (Z.to_nat (1 + 1 + 2 + 4 + 4 + n + 4 - (1 + 1 + 2 + 4 + 4 + n)))
    with 4%nat by lia.
  replace (Z.to_nat (1 + 1 + 2 + 4 + 4 + n - 0)) with (12 + Z.to_nat n)%nat
    by lia.
  replace (Z.to_nat (1 + 1 + 2 + 4 + 4 + n)) with (12 + Z.to_nat n)%nat
    by lia.
  cbn [plus skipn firstn].
  reflexivity.
Qed.

Lemma encodable_true (p : Packet) :
  encodable p = true <->
  0 <= sequence_id p < 2 ^ 16 /\ 0 <= timestamp_ms p < 2 ^ 32
  /\ 0 <= payload_size p < 2 ^ 32.
Proof.
  unfold encodable. rewrite !andb_true_iff, !in_range_true. tauto.
Qed.

Lemma firstn_len_app {A} (a b : list A) :
  firstn (Z.to_nat (len a)) (a ++ b) = a.
Proof.
  unfold len. rewrite Nat2Z.id, firstn_app, Nat.sub_diag, firstn_all.
  simpl. apply app_nil_r.
Qed.

Lemma skipn_len_app {A} (a b : list A) :
  skipn (Z.to_nat (len a)) (a ++ b) = b.
Proof.
  unfold len. rewrite Nat2Z.id, skipn_app, Nat.sub_diag, skipn_all.
  reflexivity.
Qed.

(** The twelve leading bytes of a frame and what follows them. *)
Lemma frame_split (p : Packet) :
  frame p
  = [z2b MAGIC_BYTE; z2b (value (packet_type p));
     z2b (Z.shiftr (sequence_id p) 8); z2b (sequence_id p);
     z2b (Z.shiftr (timestamp_ms p) 24); z2b (Z.shiftr (timestamp_ms p) 16);
     z2b (Z.shiftr (timestamp_ms p) 8); z2b (timestamp_ms p);
     z2b (Z.shiftr (payload_size p) 24); z2b (Z.shiftr (payload_size p) 16);
     z2b (Z.shiftr (payload_size p) 8); z2b (payload_size p)]
    ++ (payload p ++ be32 (crc32 (frame_body p))).
Proof.
  unfold frame, frame_body, be16, be32. cbn [app]. reflexivity.
Qed.

Lemma frame_body_split (p : Packet) :
  frame_body p
  = [z2b MAGIC_BYTE; z2b (value (packet_type p));
     z2b (Z.shiftr (sequence_id p) 8); z2b (sequence_id p);
     z2b (Z.shiftr (timestamp_ms p) 24); z2b (Z.shiftr (timestamp_ms p) 16);
     z2b (Z.shiftr (timestamp_ms p) 8); z2b (timestamp_ms p);
     z2b (Z.shiftr (payload_size p) 24); z2b (Z.shiftr (payload_size p) 16);
     z2b (Z.shiftr (payload_size p) 8); z2b (payload_size p)]
    ++ payload p.
Proof. reflexivity. Qed.

Lemma magic_byte_value : b2z (z2b MAGIC_BYTE) = MAGIC_BYTE.
Proof. reflexivity. Qed.

Lemma type_byte_value (t : PacketType) : b2z (z2b (value t)) = value t.
Proof. destruct t; reflexivity. Qed.

(** Decoding the frame of an encodable packet gives the packet back,
    its time cut to whole milliseconds. *)
Lemma deserialize_try_frame (p : Packet) :
  encodable p = true -> deserialize_try (frame p) = Ret (Some (decoded p)).
Proof.
  intros He. apply encodable_true in He. destruct He as (Hs & Ht & Hl).
  rewrite frame_split, deserialize_try_eq.
  pose proof (of_be32_be32 _ Hl) as El. unfold be32 in El.
  pose proof (of_be32_be32 _ Ht) as Et. unfold be32 in Et.
  pose proof (of_be16_be16 _ Hs) as Es. unfold be16 in Es.
  rewrite El, Et, Es, magic_byte_value, type_byte_value.
  rewrite Z.eqb_refl. cbn [negb].
  rewrite len_app. change (len (be32 ?x)) with 4.
  unfold payload_size.
  replace (len (payload p) + 4 <? len (payload p) + 4) with false
    by (symmetry; apply Z.ltb_ge; lia).
  rewrite firstn_len_app, skipn_len_app.
  change (firstn 4 (be32 ?x)) with (be32 x).
  rewrite unpack_I_be32 by apply crc32_range. cbn [bind].
  rewrite crc32_mask.
  rewrite frame_body_split. unfold payload_size.
  rewrite Z.eqb_refl. cbn [negb].
  rewrite PacketType_of_value. reflexivity.
Qed.

Lemma deserialize_packet_frame (self : ProtocolHandler) (p : Packet) :
  encodable p = true ->
  deserialize_packet self (frame p) = (Ret (Some (decoded p)), self).
Proof.
  intros He. unfold deserialize_packet.
  rewrite frame_length.
  pose proof (len_nonneg (payload p)).
  replace (8 + 4 + len (payload p) + 4 <? HEADER_SIZE + FOOTER_SIZE)
    with false
    by (symmetry; apply Z.ltb_ge; unfold HEADER_SIZE, FOOTER_SIZE,
        calcsize_BBHI; lia).
  rewrite deserialize_try_frame by exact He. reflexivity.
Qed.

End ProtocolFacts.


Module DecodeFacts.
Import BytesFacts StructFacts ZlibFacts ProtocolFacts.
Import Struct Zlib Protocol DecodeSpec.

Lemma firstn4_skipn (n : nat) (l : list byte) :
  (n + 4 <= List.length l)%nat ->
  firstn 4 (skipn n l)
  = [nth n l x00; nth (n + 1) l x00; nth (n + 2) l x00; nth (n + 3) l x00].
Proof.
  revert l. induction n as [|n IH]; intros l H.
  - destruct l as [|a [|b [|c [|d l]]]]; simpl in H; try lia. reflexivity.
  - destruct l as [|a l]; simpl in H; [lia|].
    simpl. apply IH. lia.
Qed.

Lemma PacketType_of_None (v : Z) :
  (exists t, PacketType_of v = Ret t) <-> In v [0x01; 0x02; 0x03].
Proof.
  unfold PacketType_of. simpl.
  destruct (v =? 1) eqn:E1; [apply Z.eqb_eq in E1; split; eauto|].
  destruct (v =? 2) eqn:E2; [apply Z.eqb_eq in E2; split; eauto|].
  destruct (v =? 3) eqn:E3; [apply Z.eqb_eq in E3; split; eauto 6|].
  apply Z.eqb_neq in E1, E2, E3.
  split; [intros [t Ht]; discriminate|].
  intros [H|[H|[H|[]]]]; congruence.
Qed.

(** The outcome of [deserialize_packet] on any buffer. *)
Lemma deserialize_packet_cases (self : ProtocolHandler) (data : list byte) :
  snd (deserialize_packet self data) = self
  /\ (exists v, fst (deserialize_packet self data) = Ret v)
  /\ (fst (deserialize_packet self data) = Ret None <->
      too_short data \/ magic_mismatch data \/ frame_exceeds_buffer data
      \/ checksum_mismatch data \/ unknown_type data).
Proof.
  unfold deserialize_packet, too_short.
  destruct (len data <? HEADER_SIZE + FOOTER_SIZE) eqn:Hlen.
  { apply Z.ltb_lt in Hlen. cbn [fst snd].
    split; [reflexivity|]. split; [eexists; reflexivity|]. split; [|reflexivity].
    intros _. left. exact Hlen. }
  apply Z.ltb_ge in Hlen. cbn [fst snd].
  split; [reflexivity|].
  unfold HEADER_SIZE, FOOTER_SIZE, calcsize_BBHI in Hlen.
  destruct data as [|m [|t [|s1 [|s0 [|t3 [|t2 [|t1 [|t0 [|l3 [|l2 [|l1
    [|l0 rest]]]]]]]]]]]];
    try (unfold len in Hlen; simpl in Hlen; lia).
  assert (Hrest : 4 <= len rest)
    by (unfold len in *; cbn [List.length] in Hlen; lia).
  pose proof (deserialize_try_eq m t s1 s0 t3 t2 t1 t0 l3 l2 l1 l0 rest)
    as E.
  cbv zeta in E. cbn [app] in E. rewrite E. clear E.
  set (tail4 := firstn 4 (skipn _ rest)).
  unfold magic_mismatch, frame_exceeds_buffer, checksum_mismatch,
    unknown_type, magic_of, type_of, stored_checksum, computed_checksum,
    declared_len, byte_at.
  cbn [nth].
  pose proof (of_be32_range l3 l2 l1 l0) as Hn.
  set (n := of_be32 l3 l2 l1 l0) in *.
  unfold HEADER_SIZE, FOOTER_SIZE, calcsize_BBHI.
  replace (Z.to_nat (1 + 1 + 2 + 4 + 4 + n)) with (12 + Z.to_nat n)%nat
    by lia.
  cbn [plus nth firstn].
  replace (len (m :: t :: s1 :: s0 :: t3 :: t2 :: t1 :: t0
                :: l3 :: l2 :: l1 :: l0 :: rest))
    with (12 + len rest)
    by (unfold len; cbn [List.length]; lia).
  destruct (b2z m =? MAGIC_BYTE) eqn:Hm; cbn [negb].
  2:{ apply Z.eqb_neq in Hm. split; [eexists; reflexivity|]. split; [|reflexivity].
      intros _. right. left. exact Hm. }
  apply Z.eqb_eq in Hm.
  destruct (len rest <? n + 4) eqn:Hfit.
  { apply Z.ltb_lt in Hfit. split; [eexists; reflexivity|]. split; [|reflexivity].
    intros _. right. right. left. lia. }
  apply Z.ltb_ge in Hfit.
  subst tail4. rewrite firstn4_skipn by (unfold len in Hfit; lia).
  cbn [unpack_I bind]. rewrite crc32_mask.
  replace (S (S (S (S (S (S (S (S (S (S (S (S (Z.to_nat n + 1)))))))))))))
    with (12 + (Z.to_nat n + 1))%nat by reflexivity.
  set (expected := of_be32 _ _ _ _).
  set (actual := crc32 _).
  destruct (expected =? actual) eqn:Hc; cbn [negb].
  2:{ apply Z.eqb_neq in Hc. split; [eexists; reflexivity|]. split; [|reflexivity].
      intros _. right. right. right. left. exact Hc. }
  apply Z.eqb_eq in Hc.
  destruct (PacketType_of (b2z t)) as [ty|e] eqn:Hty; cbn [bind try_except].
  - split; [eexists; reflexivity|]. split; [discriminate|].
    intros [H|[H|[H|[H|H]]]]; try lia; try contradiction.
    exfalso. apply H. apply PacketType_of_None. eauto.
  - assert (e = ValueError) as ->.
    { unfold PacketType_of in Hty.
      repeat match type of Hty with
             | (if ?c then _ else _) = _ => destruct c; try discriminate
             end.
      congruence. }
    cbn [existsb exn_eqb orb]. split; [eexists; reflexivity|]. split; [|reflexivity].
    intros _. right. right. right. right.
    intros Hin. apply PacketType_of_None in Hin. destruct Hin as [ty Hin].
    congruence.
Qed.

End DecodeFacts.

(* ================================================================== *)
(** * Properties of the codec *)

Import BytesFacts StructFacts ZlibFacts ProtocolFacts DecodeFacts.
Import Struct Zlib Protocol DecodeSpec.

(** [int(x)] is at least [k] once [x] is. *)
Lemma int_of_float_lower (k : Z) (x : Q) :
  0 <= k -> (inject_Z k <= x)%Q -> k <= int_of_float x.
Proof.
  intros Hk Hx. unfold int_of_float, Qle in *. simpl in Hx.
  assert (Hnum : 0 <= Qnum x) by nia.
  rewrite Z.quot_div_nonneg by lia.
  apply Z.div_le_lower_bound; lia.
Qed.

Lemma after_creating_counter (calls : list (Q * PacketType * list byte))
      (self : ProtocolHandler) :
  sequence_counter (after_creating self calls)
  = sequence_counter self + len calls.
Proof.
  revert self. induction calls as [|c calls IH]; intros self.
  - unfold len. simpl. lia.
  - unfold after_creating in *. simpl. rewrite IH. unfold len. simpl
      List.length. simpl sequence_counter. lia.
Qed.

(** C6, as the specification words it, fails: the frame of a packet with
    an empty payload is 16 bytes long, not 12 + 4 + 0 + 4. *)
Lemma C6_counterexample :
  exists d,
    serialize_packet Protocol.init (mkPacket DATA 0 0 []) = Ret d
    /\ len d <> 12 + 4 + len (payload (mkPacket DATA 0 0 [])) + 4.
Proof.
  eexists. split; [vm_compute; reflexivity|]. vm_compute. discriminate.
Qed.

(** C6 (amended): whenever [serialize_packet] returns, the frame is
    [HEADER_SIZE + len(payload) + FOOTER_SIZE] bytes long, that is
    8 (magic, type, sequence, timestamp) + 4 (payload length) + N + 4
    (checksum): the 12 bytes of the header include the payload length. *)
Theorem C6_serialize_length (self : ProtocolHandler) (p : Packet)
        (d : list byte) :
  serialize_packet self p = Ret d ->
  len d = HEADER_SIZE + len (payload p) + FOOTER_SIZE
  /\ HEADER_SIZE = 8 + 4 /\ FOOTER_SIZE = 4.
Proof.
  rewrite serialize_packet_eq.
  destruct (encodable p); [|discriminate].
  intros E. injection E as <-.
  rewrite frame_length. repeat split.
Qed.

Lemma C6_serialize_length_witness :
  len [xaa; x01; x00; x00; x00; x00; x00; x00; x00; x00; x00; x00;
       x28; x9a; x45; xd6]
  = HEADER_SIZE + len (payload (mkPacket DATA 0 0 [])) + FOOTER_SIZE
  /\ HEADER_SIZE = 8 + 4 /\ FOOTER_SIZE = 4.
Proof.
  apply (C6_serialize_length Protocol.init (mkPacket DATA 0 0 [])).
  vm_compute. reflexivity.
Defined.

(** C10: [serialize_packet] raises [struct.error] on a packet whose
    millisecond timestamp is outside [0, 2^32) or whose sequence id is
    outside [0, 2^16); so it does on every packet [create_packet] stamps
    at 2^32 ms or later, and on every packet created after 65536 others by
    the same codec; and [send_packet], once connected, lets the exception
    through to its caller, the handler unchanged. *)
Theorem C10_serialize_partial :
  (forall self p,
      ~ (0 <= timestamp_ms p < 2 ^ 32) \/ ~ (0 <= sequence_id p < 2 ^ 16) ->
      serialize_packet self p = Raise StructError)
  /\ (forall self now ty data,
         (inject_Z (2 ^ 32) <= now * 1000)%Q ->
         serialize_packet (snd (create_packet self now ty data))
           (fst (create_packet self now ty data)) = Raise StructError)
  /\ (forall calls now ty data,
         65536 <= len calls ->
         let self := after_creating Protocol.init calls in
         serialize_packet (snd (create_packet self now ty data))
           (fst (create_packet self now ty data)) = Raise StructError)
  /\ (forall sh port p,
         Serial.is_connected sh = true ->
         Serial.serial_connection sh = true ->
         serialize_packet (Serial.protocol sh) p = Raise StructError ->
         Serial.send_packet sh port p = (Raise StructError, sh)).
Proof.
  assert (G : forall self p,
             ~ (0 <= timestamp_ms p < 2 ^ 32)
             \/ ~ (0 <= sequence_id p < 2 ^ 16) ->
             serialize_packet self p = Raise StructError).
  { intros self p H. rewrite serialize_packet_eq.
    destruct (encodable p) eqn:E; [|reflexivity].
    apply encodable_true in E. tauto. }
  split; [exact G|]. split; [|split].
  - intros self now ty data H. apply G. left.
    unfold create_packet, timestamp_ms. cbn [fst timestamp].
    pose proof (int_of_float_lower (2 ^ 32) (now * 1000) ltac:(lia) H).
    lia.
  - intros calls now ty data H self. apply G. right.
    unfold create_packet. cbn [fst sequence_id]. subst self.
    rewrite after_creating_counter. cbn [sequence_counter Protocol.init].
    change (2 ^ 16) with 65536. lia.
  - intros sh port p Hc Hp Hs. unfold Serial.send_packet.
    rewrite Hc, Hp, Hs. reflexivity.
Qed.

Lemma C10_serialize_partial_witness :
  serialize_packet Protocol.init (mkPacket DATA 65536 0 []) = Raise StructError
  /\ serialize_packet (snd (create_packet Protocol.init 1700000000 DATA []))
       (fst (create_packet Protocol.init 1700000000 DATA []))
     = Raise StructError.
Proof.
  destruct C10_serialize_partial as (H1 & H2 & _).
  split.
  - apply H1. right. simpl. lia.
  - apply H2. unfold Qle. simpl. lia.
Defined.

(** Whatever [serialize_packet] returns decodes to the packet it came
    from, the timestamp cut to whole milliseconds. *)
Lemma roundtrip_when_encoded (self : ProtocolHandler) (p : Packet)
      (f : list byte) :
  serialize_packet self p = Ret f ->
  fst (deserialize_packet self f) = Ret (Some (decoded p))
  /\ packet_type (decoded p) = packet_type p
  /\ sequence_id (decoded p) = sequence_id p
  /\ payload (decoded p) = payload p
  /\ timestamp (decoded p) = int_of_float (timestamp p * 1000) # 1000.
Proof.
  rewrite serialize_packet_eq.
  destruct (encodable p) eqn:He; [|discriminate].
  intros E. injection E as <-.
  rewrite deserialize_packet_frame by exact He. repeat split.
Qed.

(** C1, at a packet stamped with a present-day clock: [create_data_packet]
    at 1 700 000 000 s since the epoch (64 filler bytes, first sequence id)
    gives a packet that [serialize_packet] does not encode, it raises
    [struct.error]; nothing is left to decode. *)
Theorem C1_wall_clock_packet_not_encoded :
  let created :=
    create_data_packet Protocol.init 1700000000 (Engine.filler 64) in
  timestamp_ms (fst created) = 1700000000000
  /\ serialize_packet (snd created) (fst created) = Raise StructError.
Proof.
  split; vm_compute; reflexivity.
Qed.

(** C2: [deserialize_packet] never raises and leaves the codec as it was;
    it returns [None] exactly when the buffer is shorter than the smallest
    frame, or its first byte is not the magic byte, or the declared payload
    length makes the frame longer than the buffer, or the stored checksum
    differs from the computed one, or the type byte is none of 1, 2, 3. *)
Theorem C2_deserialize_failure (self : ProtocolHandler) (data : list byte) :
  snd (deserialize_packet self data) = self
  /\ (exists v, fst (deserialize_packet self data) = Ret v)
  /\ (fst (deserialize_packet self data) = Ret None <->
      too_short data \/ magic_mismatch data \/ frame_exceeds_buffer data
      \/ checksum_mismatch data \/ unknown_type data).
Proof. apply deserialize_packet_cases. Qed.

(* ================================================================== *)
(** * Facts about the engine's bookkeeping *)

Module EngineFacts.
Import Serial Engine.

(** ** [str] and the error messages *)

Lemma to_int_not_nil (n : Z) :
  Z.to_int n <> Decimal.Pos Decimal.Nil
  /\ Z.to_int n <> Decimal.Neg Decimal.Nil.
Proof.
  split; intros E; pose proof (DecimalZ.of_to n) as H; rewrite E in H;
    simpl in H; subst n; discriminate E.
Qed.

Lemma str_inj (a b : Z) : str a = str b -> a = b.
Proof.
  unfold str. intros E.
  destruct (to_int_not_nil a) as [Ha1 Ha2].
  destruct (to_int_not_nil b) as [Hb1 Hb2].
  pose proof (NilZero.isi _ Ha1 Ha2) as Ia.
  pose proof (NilZero.isi _ Hb1 Hb2) as Ib.
  rewrite E in Ia. rewrite Ia in Ib. injection Ib as Ib.
  apply DecimalZ.to_int_inj. exact Ib.
Qed.

Lemma missing_msg_inj (a b : Z) : missing_msg a = missing_msg b -> a = b.
Proof.
  unfold missing_msg. simpl. intros E. injection E as E. apply str_inj, E.
Qed.

Lemma timeout_msg_inj (a b : Z) : timeout_msg a = timeout_msg b -> a = b.
Proof.
  unfold timeout_msg. simpl. intros E. injection E as E. apply str_inj, E.
Qed.

Lemma timeout_not_missing (a b : Z) : missing_msg a <> timeout_msg b.
Proof. unfold missing_msg, timeout_msg. simpl. discriminate. Qed.

Lemma timeout_not_unexpected_data (a b : Z) :
  unexpected_data_msg a <> timeout_msg b.
Proof. unfold unexpected_data_msg, timeout_msg. simpl. discriminate. Qed.

Lemma timeout_not_unexpected_ack (a b : Z) :
  unexpected_ack_msg a <> timeout_msg b.
Proof. unfold unexpected_ack_msg, timeout_msg. simpl. discriminate. Qed.

(** ** [range] *)

Lemma range_In (a b k : Z) : In k (range a b) <-> a <= k < b.
Proof.
  unfold range. rewrite in_map_iff. split.
  - intros (i & <- & Hi). apply in_seq in Hi. lia.
  - intros H. exists (Z.to_nat (k - a)). split; [lia|].
    apply in_seq. lia.
Qed.

Lemma range_NoDup (a b : Z) : NoDup (range a b).
Proof.
  unfold range. apply NoDup_map_NoDup_ForallPairs; [|apply seq_NoDup].
  intros x y _ _ E. lia.
Qed.

Lemma range_len (a b : Z) : len (range a b) = Z.max 0 (b - a).
Proof. unfold range, len. rewrite length_map, length_seq. lia. Qed.

(** How often the message of [k] occurs among the messages of a
    duplicate-free list of ids. *)
Lemma count_occ_msgs (msg : Z -> string) (l : list Z) (k : Z) :
  (forall a b, msg a = msg b -> a = b) ->
  NoDup l ->
  count_occ string_dec (map msg l) (msg k)
  = if in_dec Z.eq_dec k l then 1%nat else 0%nat.
Proof.
  intros Hinj Hnd.
  destruct (in_dec Z.eq_dec k l) as [Hin|Hout].
  - apply NoDup_count_occ'.
    + apply NoDup_map_NoDup_ForallPairs; [|exact Hnd].
      intros x y _ _. apply Hinj.
    + apply in_map, Hin.
  - apply count_occ_not_In. rewrite in_map_iff.
    intros (x & E & Hx). apply Hinj in E. subst x. contradiction.
Qed.

Lemma count_occ_other_msgs (msg : Z -> string) (l : list Z) (s : string) :
  (forall a, msg a <> s) -> count_occ string_dec (map msg l) s = 0%nat.
Proof.
  intros H. apply count_occ_not_In. rewrite in_map_iff.
  intros (x & E & _). exact (H x E).
Qed.

(** ** [append_errors] *)

Lemma append_errors_spec (msg : Z -> string) (seqs : list Z)
      (m : TestMetrics) :
  append_errors msg seqs m
  = mkTestMetrics (start_time m) (end_time m) (packets_sent m)
      (packets_received m) (packets_lost m) (bytes_transmitted m)
      (latency_samples m) (bandwidth_samples m)
      (errors m ++ map msg seqs).
Proof.
  revert m. induction seqs as [|s seqs IH]; intros m.
  - simpl. rewrite app_nil_r. destruct m; reflexivity.
  - unfold append_errors in *. simpl. rewrite IH. simpl.
    rewrite <- app_assoc. reflexivity.
Qed.

(** ** [send_packet] keeps the codec *)

Lemma send_packet_protocol (sh : SerialHandler)
      (port : list byte -> outcome Z) (p : Protocol.Packet) :
  protocol (snd (send_packet sh port p)) = protocol sh.
Proof.
  unfold send_packet.
  destruct (negb (is_connected sh) || negb (serial_connection sh));
    [reflexivity|].
  destruct (Protocol.serialize_packet (protocol sh) p) as [d|[]];
    try reflexivity.
  destruct (port d) as [n|[]]; reflexivity.
Qed.

(** ** The responder's tracker *)

Lemma handle_data_split (e : TestEngine) (port : list byte -> outcome Z)
      (ack_now : Q) (p : Protocol.Packet) (t : Q) :
  _handle_data_packet_receiver e port ack_now p t
  = acknowledge (track_data e p) port ack_now p t.
Proof. reflexivity. Qed.

Lemma track_data_effect (e : TestEngine) (p : Protocol.Packet) :
  let e' := track_data e p in
  last_sequence e' = Z.max (last_sequence e) (Protocol.sequence_id p)
  /\ packets_lost (metrics e')
     = packets_lost (metrics e)
       + Z.max 0 (Protocol.sequence_id p - last_sequence e - 1)
  /\ errors (metrics e')
     = errors (metrics e)
       ++ map missing_msg
            (range (last_sequence e + 1) (Protocol.sequence_id p))
  /\ pending_acks e' = pending_acks e
  /\ serial_handler e' = serial_handler e.
Proof.
  unfold track_data. cbv zeta.
  cbn [set_metrics set_received_sequences last_sequence metrics].
  destruct (last_sequence e + 1 <? Protocol.sequence_id p) eqn:G.
  - apply Z.ltb_lt in G. rewrite append_errors_spec.
    cbn. repeat split; try reflexivity; lia.
  - apply Z.ltb_ge in G. unfold range.
    replace (Z.to_nat _) with 0%nat by lia.
    cbn. rewrite app_nil_r. repeat split; try reflexivity; lia.
Qed.

Lemma acknowledge_effect (e : TestEngine) (port : list byte -> outcome Z)
      (ack_now : Q) (p : Protocol.Packet) (t : Q) :
  let e' := snd (acknowledge e port ack_now p t) in
  last_sequence e' = last_sequence e
  /\ packets_lost (metrics e') = packets_lost (metrics e)
  /\ errors (metrics e') = errors (metrics e)
  /\ pending_acks e' = pending_acks e
  /\ counter e <= counter e'.
Proof.
  unfold acknowledge, counter, Protocol.create_ack_packet,
    Protocol.create_packet. cbv zeta.
  destruct (Struct.pack_I (Protocol.sequence_id p)) as [pl|ex];
    cbn [bind snd]; [|repeat split; try reflexivity; lia].
  match goal with
  | |- context [send_packet ?s ?q ?a] =>
      pose proof (send_packet_protocol s q a) as Hp;
      destruct (send_packet s q a) as [[b|ex] sh]
  end; cbn [snd] in Hp.
  - destruct (gt (t - Protocol.timestamp p) 0); cbn; rewrite Hp; cbn;
      repeat split; try reflexivity; lia.
  - cbn. rewrite Hp. cbn. repeat split; try reflexivity; lia.
Qed.

Lemma handle_data_effect (e : TestEngine) (port : list byte -> outcome Z)
      (ack_now : Q) (p : Protocol.Packet) (t : Q) :
  let e' := snd (_handle_data_packet_receiver e port ack_now p t) in
  last_sequence e' = Z.max (last_sequence e) (Protocol.sequence_id p)
  /\ packets_lost (metrics e')
     = packets_lost (metrics e)
       + Z.max 0 (Protocol.sequence_id p - last_sequence e - 1)
  /\ errors (metrics e')
     = errors (metrics e)
       ++ map missing_msg
            (range (last_sequence e + 1) (Protocol.sequence_id p))
  /\ pending_acks e' = pending_acks e
  /\ counter e <= counter e'.
Proof.
  cbv zeta. rewrite handle_data_split.
  destruct (track_data_effect e p) as (T1 & T2 & T3 & T4 & T5).
  destruct (acknowledge_effect (track_data e p) port ack_now p t)
    as (A1 & A2 & A3 & A4 & A5).
  rewrite A1, A2, A3, A4, T1, T2, T3, T4.
  repeat split; try reflexivity.
  unfold counter in *. rewrite T5 in A5. exact A5.
Qed.

End EngineFacts.

(* ================================================================== *)
(** * Properties of the responder's loss accounting *)

Import Serial Engine EngineFacts.

Lemma handle_arrival_effect (e : TestEngine) (a : arrival) :
  last_sequence (handle_arrival e a) = Z.max (last_sequence e) (arr_seq a)
  /\ packets_lost (metrics (handle_arrival e a))
     = packets_lost (metrics e) + Z.max 0 (arr_seq a - last_sequence e - 1)
  /\ errors (metrics (handle_arrival e a))
     = errors (metrics e)
       ++ map missing_msg (range (last_sequence e + 1) (arr_seq a)).
Proof.
  destruct (handle_data_effect e (arr_port a) (arr_ack_now a) (arr_packet a)
              (arr_now a)) as (H1 & H2 & H3 & _).
  unfold handle_arrival, arr_seq. auto.
Qed.

(** Ids at or below [last_sequence] are never reported missing again. *)
Lemma handled_later (later : list arrival) (e : TestEngine) (k : Z) :
  k <= last_sequence e ->
  last_sequence e <= last_sequence (handle_data_packets e later)
  /\ count_occ string_dec (errors (metrics (handle_data_packets e later)))
       (missing_msg k)
     = count_occ string_dec (errors (metrics e)) (missing_msg k).
Proof.
  revert e. induction later as [|a later IH]; intros e Hk;
    [unfold handle_data_packets; simpl; split; [lia|reflexivity]|].
  destruct (handle_arrival_effect e a) as (H1 & _ & H3).
  unfold handle_data_packets in *. simpl fold_left.
  destruct (IH (handle_arrival e a) ltac:(lia)) as [I1 I2].
  split; [lia|].
  rewrite I2, H3, count_occ_app.
  rewrite (count_occ_msgs missing_msg _ k missing_msg_inj (range_NoDup _ _)).
  destruct (in_dec Z.eq_dec k _) as [Hin|]; [|lia].
  apply range_In in Hin. lia.
Qed.

Lemma last_sequence_monotone (later : list arrival) (e : TestEngine) :
  last_sequence e <= last_sequence (handle_data_packets e later).
Proof. apply (handled_later later e (last_sequence e)). lia. Qed.

(** C4, as the specification words it, fails: after DATA packets 0, 1, 3, 4
    the error log holds one entry, so no two distinct entries. *)
Lemma C4_counterexample :
  let quiet := fun _ : list byte => Ret 0 in
  let e :=
    handle_data_packets (_reset_metrics (Engine.init Serial.init))
      [mkArrival quiet 0 (mkPacket DATA 0 0 []) 0;
       mkArrival quiet 0 (mkPacket DATA 1 0 []) 0;
       mkArrival quiet 0 (mkPacket DATA 3 0 []) 0;
       mkArrival quiet 0 (mkPacket DATA 4 0 []) 0] in
  errors (metrics e) = ["Missing packet: seq=2"%string]
  /\ ~ (exists m1 m2,
           m1 <> m2 /\ In m1 (errors (metrics e)) /\ In m2 (errors (metrics e))).
Proof.
  cbv zeta.
  assert (E : errors (metrics
            (handle_data_packets (_reset_metrics (Engine.init Serial.init))
               [mkArrival (fun _ => Ret 0) 0 (mkPacket DATA 0 0 []) 0;
                mkArrival (fun _ => Ret 0) 0 (mkPacket DATA 1 0 []) 0;
                mkArrival (fun _ => Ret 0) 0 (mkPacket DATA 3 0 []) 0;
                mkArrival (fun _ => Ret 0) 0 (mkPacket DATA 4 0 []) 0]))
            = ["Missing packet: seq=2"%string])
    by (vm_compute; reflexivity).
  split; [exact E|].
  rewrite E. intros (m1 & m2 & Hne & [<-|[]] & [<-|[]]). apply Hne.
  reflexivity.
Qed.

(** C4 (amended): from a freshly reset tracker, DATA packets with sequence
    ids 0, 1, 3, 4 in that order leave [packets_lost == 1], exactly one
    error entry, "Missing packet: seq=2", and [last_sequence == 4]. *)
Theorem C4_loss_accounting (e0 : TestEngine) (arrivals : list arrival) :
  map arr_seq arrivals = [0; 1; 3; 4] ->
  let e := handle_data_packets (_reset_metrics e0) arrivals in
  packets_lost (metrics e) = 1
  /\ errors (metrics e) = ["Missing packet: seq=2"%string]
  /\ last_sequence e = 4.
Proof.
  intros H.
  destruct arrivals as [|a0 [|a1 [|a3 [|a4 [|? ?]]]]]; try discriminate H.
  simpl in H. injection H as H0 H1 H3 H4.
  cbv zeta. unfold handle_data_packets. cbn [fold_left].
  assert (I0 : last_sequence (_reset_metrics e0) = -1
               /\ packets_lost (metrics (_reset_metrics e0)) = 0
               /\ errors (metrics (_reset_metrics e0)) = [])
    by (repeat split).
  destruct I0 as (L & P & E).
  remember (_reset_metrics e0) as s0 eqn:Hs0. clear Hs0.
  destruct (handle_arrival_effect s0 a0) as (L0 & P0 & E0).
  remember (handle_arrival s0 a0) as s1 eqn:Hs1. clear Hs1.
  rewrite L, H0 in L0, P0, E0. rewrite P in P0. rewrite E in E0.
  change (range (-1 + 1) 0) with (@nil Z) in E0.
  change (Z.max (-1) 0) with 0 in L0.
  change (0 + Z.max 0 (0 - -1 - 1)) with 0 in P0.
  destruct (handle_arrival_effect s1 a1) as (L1 & P1 & E1).
  remember (handle_arrival s1 a1) as s2 eqn:Hs2. clear Hs2.
  rewrite L0, H1 in L1, P1, E1. rewrite P0 in P1. rewrite E0 in E1.
  change (range (0 + 1) 1) with (@nil Z) in E1.
  change (Z.max 0 1) with 1 in L1.
  change (0 + Z.max 0 (1 - 0 - 1)) with 0 in P1.
  destruct (handle_arrival_effect s2 a3) as (L2 & P2 & E2).
  remember (handle_arrival s2 a3) as s3 eqn:Hs3. clear Hs3.
  rewrite L1, H3 in L2, P2, E2. rewrite P1 in P2. rewrite E1 in E2.
  change (range (1 + 1) 3) with [2] in E2.
  change (Z.max 1 3) with 3 in L2.
  change (0 + Z.max 0 (3 - 1 - 1)) with 1 in P2.
  destruct (handle_arrival_effect s3 a4) as (L3 & P3 & E3).
  rewrite L2, H4 in L3, P3, E3. rewrite P2 in P3. rewrite E2 in E3.
  change (range (3 + 1) 4) with (@nil Z) in E3.
  rewrite L3, P3, E3. repeat split.
Qed.

Lemma C4_loss_accounting_witness :
  let quiet := fun _ : list byte => Ret 0 in
  let e :=
    handle_data_packets (_reset_metrics (Engine.init Serial.init))
      [mkArrival quiet 0 (mkPacket DATA 0 0 []) 0;
       mkArrival quiet 0 (mkPacket DATA 1 0 []) 0;
       mkArrival quiet 0 (mkPacket DATA 3 0 []) 0;
       mkArrival quiet 0 (mkPacket DATA 4 0 []) 0] in
  packets_lost (metrics e) = 1
  /\ errors (metrics e) = ["Missing packet: seq=2"%string]
  /\ last_sequence e = 4.
Proof.
  apply (C4_loss_accounting (Engine.init Serial.init)). reflexivity.
Defined.

(** C9: whatever DATA packet the responder handles, [last_sequence]
    becomes the maximum of its old value and the packet's id and so never
    decreases, now or over any later arrivals; [packets_lost] grows by the
    number of ids in the gap; and every id of the gap, from
    [last_sequence + 1] up to the packet's id excluded, is reported
    missing once at that moment and never again, whatever arrives later. *)
Theorem C9_tracker_invariant (e : TestEngine) (a : arrival)
        (later : list arrival) :
  let e1 := handle_arrival e a in
  let e2 := handle_data_packets e1 later in
  last_sequence e1 = Z.max (last_sequence e) (arr_seq a)
  /\ last_sequence e <= last_sequence e1 <= last_sequence e2
  /\ packets_lost (metrics e1)
     = packets_lost (metrics e)
       + len (range (last_sequence e + 1) (arr_seq a))
  /\ (forall k,
         last_sequence e + 1 <= k < arr_seq a ->
         count_occ string_dec (errors (metrics e1)) (missing_msg k)
         = S (count_occ string_dec (errors (metrics e)) (missing_msg k))
         /\ count_occ string_dec (errors (metrics e2)) (missing_msg k)
            = count_occ string_dec (errors (metrics e1)) (missing_msg k)).
Proof.
  cbv zeta.
  destruct (handle_arrival_effect e a) as (H1 & H2 & H3).
  pose proof (last_sequence_monotone later (handle_arrival e a)) as Hm.
  split; [exact H1|]. split; [lia|]. split.
  { rewrite H2, range_len. f_equal. lia. }
  intros k Hk. split.
  - rewrite H3, count_occ_app.
    rewrite (count_occ_msgs missing_msg _ k missing_msg_inj (range_NoDup _ _)).
    destruct (in_dec Z.eq_dec k _) as [|Hout]; [lia|].
    exfalso. apply Hout, range_In. lia.
  - apply handled_later. lia.
Qed.

Lemma C9_tracker_invariant_witness :
  let quiet := fun _ : list byte => Ret 0 in
  let e := _reset_metrics (Engine.init Serial.init) in
  let e1 := handle_arrival e (mkArrival quiet 0 (mkPacket DATA 3 0 []) 0) in
  (last_sequence e + 1 <= 1 < 3)
  /\ count_occ string_dec (errors (metrics e1)) (missing_msg 1)
     = S (count_occ string_dec (errors (metrics e)) (missing_msg 1)).
Proof.
  cbv zeta.
  assert (R : last_sequence (_reset_metrics (Engine.init Serial.init)) + 1
              <= 1 < 3) by (cbn; lia).
  split; [exact R|].
  destruct (C9_tracker_invariant (_reset_metrics (Engine.init Serial.init))
              (mkArrival (fun _ => Ret 0) 0 (mkPacket DATA 3 0 []) 0) [])
    as (_ & _ & _ & H).
  exact (proj1 (H 1 R)).
Defined.

(* ================================================================== *)
(** * Properties of the session's lifecycle *)

(** C8: while a test is running or paused, [configure_test] and
    [start_test] return [False] and the engine is left as it was:
    configuration, metrics, pending-ack table and receiver tracker. *)
Theorem C8_rejected_while_running (self : TestEngine) (m : TestMode)
        (ps tr td : Z) :
  state_of self = RUNNING \/ state_of self = PAUSED ->
  configure_test self m ps tr td = (false, self)
  /\ start_test self = (false, self)
  /\ (let self' := snd (configure_test self m ps tr td) in
      mode self' = mode self /\ packet_size self' = packet_size self
      /\ transmission_rate self' = transmission_rate self
      /\ test_duration self' = test_duration self)
  /\ (let self' := snd (start_test self) in
      metrics self' = metrics self /\ pending_acks self' = pending_acks self
      /\ received_sequences self' = received_sequences self
      /\ last_sequence self' = last_sequence self).
Proof.
  intros H.
  assert (R : is_running self = true).
  { unfold state_of in H. destruct (is_running self); [reflexivity|].
    destruct H; discriminate. }
  unfold configure_test, start_test. rewrite R. cbn.
  repeat split.
Qed.

Lemma C8_rejected_while_running_witness :
  let self := snd (start_test
                     (set_serial_handler
                        (mkSerialHandler Protocol.init true true 0 0 0 0 [])
                        (Engine.init Serial.init))) in
  configure_test self RECEIVER 1 1 1 = (false, self)
  /\ start_test self = (false, self).
Proof.
  cbv zeta.
  pose proof (C8_rejected_while_running
                (snd (start_test
                        (set_serial_handler
                           (mkSerialHandler Protocol.init true true 0 0 0 0 [])
                           (Engine.init Serial.init))))
                RECEIVER 1 1 1 (or_introl eq_refl)) as (H1 & H2 & _).
  split; [exact H1|exact H2].
Defined.


(* ================================================================== *)
(** * Facts about dictionaries and the ack-timeout sweep *)

Module DictFacts.
Import Dict.

Lemma get_In_keys {V} (k : Z) (d : t V) :
  In k (keys d) <-> get k d <> None.
Proof.
  induction d as [|[k' v] d IH]; simpl.
  - split; [intros []|congruence].
  - destruct (k' =? k) eqn:E.
    + apply Z.eqb_eq in E. split; [discriminate|auto].
    + apply Z.eqb_neq in E. rewrite <- IH. split; [intros [H|H]|]; tauto.
Qed.

Lemma get_remove_other {V} (k k' : Z) (d : t V) :
  k <> k' -> get k (remove k' d) = get k d.
Proof.
  intros Hne. induction d as [|[k0 v] d IH]; simpl; [reflexivity|].
  destruct (k0 =? k') eqn:E.
  - apply Z.eqb_eq in E. subst k0.
    destruct (k' =? k) eqn:E'; [apply Z.eqb_eq in E'; congruence|reflexivity].
  - simpl. rewrite IH. reflexivity.
Qed.

Lemma get_remove_absent {V} (k k' : Z) (d : t V) :
  get k d = None -> get k (remove k' d) = None.
Proof.
  induction d as [|[k0 v] d IH]; simpl; [reflexivity|].
  destruct (k0 =? k) eqn:E; [discriminate|]. intros H.
  destruct (k0 =? k'); [exact H|]. simpl. rewrite E. apply IH, H.
Qed.

Lemma get_remove_same {V} (k : Z) (d : t V) :
  wf d -> get k (remove k d) = None.
Proof.
  unfold wf. induction d as [|[k0 v] d IH]; simpl; intros Hnd; [reflexivity|].
  inversion Hnd as [|? ? Hout Hnd']; subst.
  destruct (k0 =? k) eqn:E.
  - apply Z.eqb_eq in E. subst k0.
    destruct (get k d) eqn:G; [|reflexivity].
    exfalso. apply Hout. apply get_In_keys. congruence.
  - simpl. rewrite E. apply IH, Hnd'.
Qed.

Lemma keys_remove_incl {V} (k k' : Z) (d : t V) :
  In k (keys (remove k' d)) -> In k (keys d).
Proof.
  induction d as [|[k0 v] d IH]; simpl; [auto|].
  destruct (k0 =? k'); simpl; [auto|]. intros [H|H]; auto.
Qed.

Lemma wf_remove {V} (k : Z) (d : t V) : wf d -> wf (remove k d).
Proof.
  unfold wf. induction d as [|[k0 v] d IH]; simpl; intros Hnd; [exact Hnd|].
  inversion Hnd as [|? ? Hout Hnd']; subst.
  destruct (k0 =? k); [exact Hnd'|]. simpl. constructor; [|apply IH, Hnd'].
  intros H. apply Hout. eapply keys_remove_incl, H.
Qed.

Lemma get_set_other {V} (k k' : Z) (v : V) (d : t V) :
  k <> k' -> get k (set k' v d) = get k d.
Proof.
  intros Hne. induction d as [|[k0 v0] d IH]; simpl.
  - destruct (k' =? k) eqn:E; [apply Z.eqb_eq in E; congruence|reflexivity].
  - destruct (k0 =? k') eqn:E; simpl.
    + apply Z.eqb_eq in E. subst k0.
      destruct (k' =? k) eqn:E'; [apply Z.eqb_eq in E'; congruence|reflexivity].
    + rewrite IH. reflexivity.
Qed.

Lemma get_set_same {V} (k : Z) (v : V) (d : t V) :
  get k (set k v d) = Some v.
Proof.
  induction d as [|[k0 v0] d IH]; simpl.
  - rewrite Z.eqb_refl. reflexivity.
  - destruct (k0 =? k) eqn:E; simpl.
    + rewrite Z.eqb_refl. reflexivity.
    + rewrite E. exact IH.
Qed.

Lemma keys_set {V} (k : Z) (v : V) (d : t V) :
  keys (set k v d) = if contains k d then keys d else keys d ++ [k].
Proof.
  unfold contains. induction d as [|[k0 v0] d IH]; simpl; [reflexivity|].
  destruct (k0 =? k) eqn:E; simpl.
  - apply Z.eqb_eq in E. subst k0. reflexivity.
  - unfold keys in *. rewrite IH. destruct (get k d); reflexivity.
Qed.

Lemma NoDup_snoc (l : list Z) (k : Z) :
  NoDup l -> ~ In k l -> NoDup (l ++ [k]).
Proof.
  induction l as [|a l IH]; simpl; intros Hnd Hk.
  - constructor; [intros []|constructor].
  - inversion Hnd as [|? ? Ha Hl]; subst. constructor.
    + rewrite in_app_iff. simpl. intros [H|[H|[]]]; [contradiction|].
      apply Hk. left. symmetry. exact H.
    + apply IH; [exact Hl|]. intros H. apply Hk. right. exact H.
Qed.

Lemma wf_set {V} (k : Z) (v : V) (d : t V) : wf d -> wf (set k v d).
Proof.
  unfold wf. intros Hnd. rewrite keys_set. unfold contains.
  destruct (get k d) eqn:G; [exact Hnd|].
  apply NoDup_snoc; [exact Hnd|]. rewrite get_In_keys. congruence.
Qed.

Lemma del_present {V} (k : Z) (d : t V) :
  get k d <> None -> del k d = Ret (remove k d).
Proof.
  unfold del, contains. destruct (get k d); [reflexivity|congruence].
Qed.

Lemma del_result {V} (k : Z) (d d' : t V) :
  del k d = Ret d' -> d' = remove k d.
Proof.
  unfold del. destruct (contains k d); [congruence|discriminate].
Qed.

End DictFacts.

Module SweepFacts.
Import Dict DictFacts Serial Engine EngineFacts.

Lemma timed_out_keys (d : Dict.t Q) (now timeout : Q) (k : Z) :
  In k (timed_out d now timeout) -> In k (keys d).
Proof.
  unfold timed_out, items, keys. rewrite !in_map_iff.
  intros (kv & E & H). apply filter_In in H. exists kv. tauto.
Qed.

Lemma timed_out_In (d : Dict.t Q) (now timeout : Q) (k : Z) (t0 : Q) :
  get k d = Some t0 -> gt (now - t0) timeout = true ->
  In k (timed_out d now timeout).
Proof.
  unfold timed_out, items.
  induction d as [|[k0 v] d IH]; simpl; [discriminate|].
  destruct (k0 =? k) eqn:E.
  - apply Z.eqb_eq in E. subst k0. intros H G. injection H as ->.
    rewrite G. simpl. auto.
  - intros H G. destruct (gt (now - v) timeout); simpl; auto.
Qed.

Lemma timed_out_NoDup (d : Dict.t Q) (now timeout : Q) :
  wf d -> NoDup (timed_out d now timeout).
Proof.
  unfold wf. induction d as [|[k0 v] d IH]; intros Hnd.
  - constructor.
  - inversion Hnd as [|? ? Hout Hnd']; subst.
    specialize (IH Hnd').
    unfold timed_out, items in *. simpl.
    destruct (gt (now - v) timeout); simpl; [|exact IH].
    constructor; [|exact IH].
    intros H. apply Hout. apply (timed_out_keys d now timeout), H.
Qed.

(** The second loop on keys that are all in the table, none twice. *)
Lemma expire_present (seqs : list Z) (e : TestEngine) :
  wf (pending_acks e) -> NoDup seqs ->
  (forall s, In s seqs -> get s (pending_acks e) <> None) ->
  let r := expire seqs e in
  fst r = Ret tt
  /\ packets_lost (metrics (snd r)) = packets_lost (metrics e) + len seqs
  /\ errors (metrics (snd r)) = errors (metrics e) ++ map timeout_msg seqs
  /\ (forall k, In k seqs -> get k (pending_acks (snd r)) = None)
  /\ (forall k, ~ In k seqs ->
                get k (pending_acks (snd r)) = get k (pending_acks e)).
Proof.
  revert e. induction seqs as [|s seqs IH]; intros e Hwf Hnd Hin.
  - cbn. rewrite app_nil_r. unfold len. cbn.
    repeat split; try tauto; lia.
  - inversion Hnd as [|? ? Hs Hnd']; subst.
    cbv zeta. cbn [expire].
    rewrite (del_present s _ (Hin s (or_introl eq_refl))).
    match goal with
    | |- context [expire seqs ?e1] => set (e1' := e1)
    end.
    assert (Hp : pending_acks e1' = remove s (pending_acks e)) by reflexivity.
    destruct (IH e1') as (R1 & R2 & R3 & R4 & R5).
    + rewrite Hp. apply wf_remove, Hwf.
    + exact Hnd'.
    + intros s' Hs'. rewrite Hp, get_remove_other; [apply Hin; right; exact Hs'|].
      intros ->. contradiction.
    + split; [exact R1|]. split; [|split; [|split]].
      * rewrite R2. unfold len. cbn. lia.
      * rewrite R3. cbn. rewrite <- app_assoc. reflexivity.
      * intros k [<-|Hk]; [|apply R4, Hk].
        destruct (in_dec Z.eq_dec s seqs) as [|Hout]; [contradiction|].
        rewrite (R5 s Hout), Hp. apply get_remove_same, Hwf.
      * intros k Hk. rewrite R5 by (intros H; apply Hk; right; exact H).
        rewrite Hp. apply get_remove_other. intros ->. apply Hk. left.
        reflexivity.
Qed.

(** The second loop on any keys: what it cannot do. *)
Lemma expire_any (seqs : list Z) (e : TestEngine) (k : Z) :
  let e' := snd (expire seqs e) in
  (get k (pending_acks e) = None -> get k (pending_acks e') = None)
  /\ (~ In k seqs ->
      count_occ string_dec (errors (metrics e')) (timeout_msg k)
      = count_occ string_dec (errors (metrics e)) (timeout_msg k))
  /\ counter e' = counter e.
Proof.
  revert e. induction seqs as [|s seqs IH]; intros e; cbv zeta.
  - cbn. tauto.
  - cbn [expire]. destruct (del s (pending_acks e)) as [d|ex] eqn:D.
    2:{ cbn. tauto. }
    apply del_result in D. subst d.
    match goal with
    | |- context [expire seqs ?e1] => set (e1' := e1)
    end.
    destruct (IH e1') as (R1 & R2 & R3).
    split; [|split].
    + intros H. apply R1. cbn. apply get_remove_absent, H.
    + intros Hk. rewrite R2 by (intros H; apply Hk; right; exact H).
      subst e1'.
      cbn [metrics errors set_metrics append_error add_packets_lost
           set_pending_acks].
      rewrite count_occ_app. cbn [count_occ].
      destruct (string_dec (timeout_msg s) (timeout_msg k)) as [E|]; [|lia].
      apply timeout_msg_inj in E. exfalso. apply Hk. left. exact E.
    + rewrite R3. reflexivity.
Qed.

Lemma sweep_keeps_resolved (e : TestEngine) (now timeout : Q) (k : Z) :
  resolved k e ->
  let e' := snd (_check_ack_timeouts e now timeout) in
  resolved k e' /\ timeouts_logged k e' = timeouts_logged k e.
Proof.
  intros [Hg Hc]. cbv zeta. unfold _check_ack_timeouts, resolved,
    timeouts_logged.
  destruct (expire_any (timed_out (pending_acks e) now timeout) e k)
    as (R1 & R2 & R3).
  rewrite R3. repeat split; [apply R1, Hg|exact Hc|].
  apply R2. intros H. apply timed_out_keys, get_In_keys in H. contradiction.
Qed.

Lemma transmit_keeps_resolved (e : TestEngine)
      (port : list byte -> outcome Z) (create_now current_time : Q) (k : Z) :
  resolved k e ->
  let e' := snd (transmit_data e port create_now current_time) in
  resolved k e' /\ timeouts_logged k e' = timeouts_logged k e.
Proof.
  intros [Hg Hc]. cbv zeta.
  unfold transmit_data, Protocol.create_data_packet, Protocol.create_packet,
    resolved, timeouts_logged, counter in *.
  cbv zeta.
  match goal with
  | |- context [send_packet ?s ?q ?a] =>
      pose proof (send_packet_protocol s q a) as Hp;
      destruct (send_packet s q a) as [[[|]|ex] sh]
  end; cbn [snd] in Hp; cbn; rewrite Hp; cbn.
  - rewrite get_set_other by lia. repeat split; [exact Hg|lia].
  - repeat split; [exact Hg|lia].
  - repeat split; [exact Hg|lia].
Qed.

Lemma ack_keeps_resolved (e : TestEngine) (p : Protocol.Packet) (t : Q)
      (k : Z) :
  resolved k e ->
  let e' := snd (_handle_ack_packet_transmitter e p t) in
  resolved k e' /\ timeouts_logged k e' = timeouts_logged k e.
Proof.
  intros [Hg Hc]. cbv zeta.
  unfold _handle_ack_packet_transmitter, resolved, timeouts_logged, counter
    in *.
  destruct (Protocol.get_acked_sequence _ p) as [[a|]|ex]; cbn; auto.
  destruct (get a (pending_acks e)) as [t0|] eqn:G; cbn; auto.
  cbn. rewrite del_present by congruence. cbn.
  repeat split; [apply get_remove_absent, Hg|exact Hc].
Qed.

Lemma data_keeps_resolved (e : TestEngine) (port : list byte -> outcome Z)
      (ack_now : Q) (p : Protocol.Packet) (t : Q) (k : Z) :
  resolved k e ->
  let e' := snd (_handle_data_packet_receiver e port ack_now p t) in
  resolved k e' /\ timeouts_logged k e' = timeouts_logged k e.
Proof.
  intros [Hg Hc]. cbv zeta. unfold resolved, timeouts_logged.
  destruct (handle_data_effect e port ack_now p t) as (_ & _ & H3 & H4 & H5).
  rewrite H3, H4, count_occ_app.
  rewrite (count_occ_other_msgs missing_msg _ (timeout_msg k))
    by (intros a; apply timeout_not_missing).
  repeat split; [exact Hg|lia|lia].
Qed.

Lemma error_keeps_resolved (e : TestEngine) (msg : string) (k : Z) :
  msg <> timeout_msg k ->
  resolved k e ->
  let e' := set_metrics (append_error msg (metrics e)) e in
  resolved k e' /\ timeouts_logged k e' = timeouts_logged k e.
Proof.
  intros Hne [Hg Hc]. cbv zeta. unfold resolved, timeouts_logged, counter.
  cbn [set_metrics append_error metrics errors pending_acks serial_handler].
  rewrite count_occ_app. cbn [count_occ].
  destruct (string_dec msg (timeout_msg k)); [contradiction|].
  repeat split; [exact Hg|exact Hc|lia].
Qed.

(** Whatever the engine does next, a resolved id stays resolved and no
    further timeout is logged for it. *)
Lemma step_keeps_resolved (e : TestEngine) (ev : event) (k : Z) :
  resolved k e ->
  resolved k (snd (step e ev))
  /\ timeouts_logged k (snd (step e ev)) = timeouts_logged k e.
Proof.
  intros H. destruct ev as [now|port create_now now|port ack_now p now];
    cbn [step].
  - apply sweep_keeps_resolved, H.
  - apply transmit_keeps_resolved, H.
  - unfold _handle_received_packet.
    destruct (negb (is_running e)); [cbn; auto|].
    destruct (Protocol.packet_type p), (mode e); cbn [snd]; auto.
    + apply error_keeps_resolved; [apply timeout_not_unexpected_data|exact H].
    + apply data_keeps_resolved, H.
    + apply ack_keeps_resolved, H.
    + apply error_keeps_resolved; [apply timeout_not_unexpected_ack|exact H].
Qed.

Lemma run_keeps_resolved (evs : list event) (e : TestEngine) (k : Z) :
  resolved k e ->
  resolved k (run e evs) /\ timeouts_logged k (run e evs) = timeouts_logged k e.
Proof.
  revert e. induction evs as [|ev evs IH]; intros e H; [cbn; auto|].
  unfold run in *. cbn [fold_left].
  destruct (step_keeps_resolved e ev k H) as [H1 H2].
  destruct (IH _ H1) as [I1 I2]. split; [exact I1|]. rewrite I2. exact H2.
Qed.

(** ** The table stays a dictionary, and sends enter it *)

Lemma expire_wf (seqs : list Z) (e : TestEngine) :
  wf (pending_acks e) -> wf (pending_acks (snd (expire seqs e))).
Proof.
  revert e. induction seqs as [|s seqs IH]; intros e Hwf; [exact Hwf|].
  cbn [expire]. destruct (del s (pending_acks e)) as [d|ex] eqn:D;
    [|exact Hwf].
  apply del_result in D. subst d. apply IH. cbn. apply wf_remove, Hwf.
Qed.

Lemma transmit_enters (e : TestEngine) (port : list byte -> outcome Z)
      (create_now current_time : Q) :
  let e' := snd (transmit_data e port create_now current_time) in
  counter e' = counter e + 1
  /\ (wf (pending_acks e) -> wf (pending_acks e'))
  /\ (packets_sent (metrics e') = packets_sent (metrics e) + 1 ->
      get (counter e) (pending_acks e') = Some current_time).
Proof.
  cbv zeta.
  unfold transmit_data, Protocol.create_data_packet, Protocol.create_packet,
    counter.
  cbv zeta.
  match goal with
  | |- context [send_packet ?s ?q ?a] =>
      pose proof (send_packet_protocol s q a) as Hp;
      destruct (send_packet s q a) as [[[|]|ex] sh]
  end; cbn [snd] in Hp; cbn; rewrite Hp; cbn.
  - repeat split; [apply wf_set|intros _; apply get_set_same].
  - repeat split; [auto|lia].
  - repeat split; [auto|lia].
Qed.

Lemma step_wf (e : TestEngine) (ev : event) :
  wf (pending_acks e) -> wf (pending_acks (snd (step e ev))).
Proof.
  intros Hwf. destruct ev as [now|port create_now now|port ack_now p now];
    cbn [step].
  - apply expire_wf, Hwf.
  - apply (transmit_enters e port create_now now), Hwf.
  - unfold _handle_received_packet.
    destruct (negb (is_running e)); [exact Hwf|].
    destruct (Protocol.packet_type p), (mode e); cbn [snd]; try exact Hwf.
    + destruct (handle_data_effect e port ack_now p now)
        as (_ & _ & _ & H4 & _).
      rewrite H4. exact Hwf.
    + unfold _handle_ack_packet_transmitter.
      destruct (Protocol.get_acked_sequence _ p) as [[a|]|ex]; cbn;
        try exact Hwf.
      destruct (get a (pending_acks e)) as [t0|] eqn:G; cbn; [|exact Hwf].
      rewrite del_present by congruence. cbn. apply wf_remove, Hwf.
Qed.

(** From its construction on, through resets and whatever it does, the
    engine's table has no key twice. *)
Lemma run_wf (evs : list event) (e : TestEngine) :
  wf (pending_acks e) -> wf (pending_acks (run e evs)).
Proof.
  revert e. induction evs as [|ev evs IH]; intros e Hwf; [exact Hwf|].
  unfold run in *. cbn [fold_left]. apply IH, step_wf, Hwf.
Qed.

Lemma fresh_wf (sh : SerialHandler) (e : TestEngine) :
  wf (pending_acks (Engine.init sh))
  /\ wf (pending_acks (_reset_metrics e)).
Proof. split; constructor. Qed.

End SweepFacts.

(* ================================================================== *)
(** * Properties of the originator's ack timeouts *)

Import Dict DictFacts SweepFacts.

(** C5: a sequence id that sits in the pending-ack table, issued by the
    codec and not acknowledged, and that a sweep finds older than the
    timeout: the sweep returns, lists the id once among the expired ones,
    removes it, adds one to [packets_lost] for each expired id and logs one
    timeout for it; and whatever the engine does afterwards (sweeps, sends,
    packets received, late acknowledgements included) the id stays out of
    the table and no further timeout is logged for it. *)
Theorem C5_timeout_counted_once (e : TestEngine) (k : Z) (t0 now timeout : Q)
        (later : list event) :
  wf (pending_acks e) ->
  get k (pending_acks e) = Some t0 ->
  k < counter e ->
  gt (now - t0) timeout = true ->
  let expired := timed_out (pending_acks e) now timeout in
  let r := _check_ack_timeouts e now timeout in
  let e1 := snd r in
  let e2 := run e1 later in
  fst r = Ret tt
  /\ count_occ Z.eq_dec expired k = 1%nat
  /\ get k (pending_acks e1) = None
  /\ packets_lost (metrics e1) = packets_lost (metrics e) + len expired
  /\ timeouts_logged k e1 = S (timeouts_logged k e)
  /\ get k (pending_acks e2) = None
  /\ timeouts_logged k e2 = timeouts_logged k e1.
Proof.
  intros Hwf Hget Hc Hold. cbv zeta. unfold _check_ack_timeouts.
  pose proof (timed_out_NoDup (pending_acks e) now timeout Hwf) as Hnd.
  pose proof (timed_out_In _ now timeout k t0 Hget Hold) as Hin.
  destruct (expire_present (timed_out (pending_acks e) now timeout) e Hwf Hnd)
    as (R1 & R2 & R3 & R4 & R5).
  { intros s Hs. apply get_In_keys. eapply timed_out_keys, Hs. }
  destruct (expire_any (timed_out (pending_acks e) now timeout) e k)
    as (_ & _ & A3).
  assert (Hres : resolved k (snd (expire (timed_out (pending_acks e) now timeout) e))).
  { split; [apply R4, Hin|rewrite A3; exact Hc]. }
  destruct (run_keeps_resolved later _ k Hres) as [[L1 _] L2].
  split; [exact R1|]. split; [apply NoDup_count_occ'; assumption|].
  split; [apply R4, Hin|]. split; [exact R2|]. split; [|split; assumption].
  unfold timeouts_logged. rewrite R3, count_occ_app.
  rewrite (count_occ_msgs timeout_msg _ k timeout_msg_inj Hnd).
  destruct (in_dec Z.eq_dec k _); [lia|contradiction].
Qed.

Lemma C5_timeout_counted_once_witness :
  let e :=
    set_pending_acks [(0, 1%Q); (1, 4%Q)]
      (set_serial_handler
         (set_protocol (Protocol.mkProtocolHandler 2) Serial.init)
         (Engine.init Serial.init)) in
  let e1 := snd (_check_ack_timeouts e 7 default_timeout) in
  let e2 := run e1 [Sweep 8; Sweep 20] in
  packets_lost (metrics e1) = 1
  /\ get 0 (pending_acks e1) = None
  /\ timeouts_logged 0 e1 = 1%nat
  /\ timeouts_logged 0 e2 = 1%nat.
Proof.
  cbv zeta.
  destruct (C5_timeout_counted_once
              (set_pending_acks [(0, 1%Q); (1, 4%Q)]
                 (set_serial_handler
                    (set_protocol (Protocol.mkProtocolHandler 2) Serial.init)
                    (Engine.init Serial.init)))
              0 1 7 default_timeout [Sweep 8; Sweep 20])
    as (_ & _ & H3 & H4 & H5 & _ & H7).
  - unfold wf. cbn. repeat constructor; cbn; intuition discriminate.
  - reflexivity.
  - cbn. lia.
  - reflexivity.
  - split; [exact H4|]. split; [exact H3|]. split; [exact H5|].
    rewrite H7. exact H5.
Defined.

(* ================================================================== *)
(** * Facts about single-bit corruption *)

Module FlipFacts.
Import BytesFacts StructFacts ZlibFacts ProtocolFacts DecodeFacts.
Import Struct Zlib Protocol DecodeSpec.

Lemma xor_bit_neq (b : byte) (k : nat) :
  (k < 8)%nat -> Bytes.xor b (z2b (2 ^ Z.of_nat k)) <> b.
Proof.
  intros Hk E. apply (f_equal b2z) in E. unfold Bytes.xor in E.
  assert (Hp : 0 < 2 ^ Z.of_nat k < 256).
  { split; [apply Z.pow_pos_nonneg; lia|].
    change 256 with (2 ^ 8). apply Z.pow_lt_mono_r; lia. }
  rewrite (b2z_z2b_small (2 ^ Z.of_nat k)) in E by lia.
  rewrite b2z_z2b_small in E.
  - rewrite <- (Z.lxor_0_r (b2z b)) in E at 2.
    apply lxor_cancel_l in E. lia.
  - change 256 with (2 ^ 8). apply lxor_range; [lia| |].
    + change (2 ^ 8) with 256. apply b2z_range.
    + change (2 ^ 8) with 256. lia.
Qed.

(** Flipping a bit changes one byte, byte [i / 8], and nothing else. *)
Lemma flip_bit_one_byte (i : nat) (data : list byte) :
  (i < 8 * List.length data)%nat ->
  exists pre b b' post,
    data = pre ++ b :: post /\ flip_bit i data = pre ++ b' :: post
    /\ b' <> b /\ List.length pre = (i / 8)%nat.
Proof.
  revert i. induction data as [|a data IH]; intros i Hi; [simpl in Hi; lia|].
  simpl flip_bit. destruct (i <? 8)%nat eqn:E.
  - apply Nat.ltb_lt in E.
    exists [], a, (Bytes.xor a (z2b (2 ^ Z.of_nat i))), data.
    repeat split; [apply xor_bit_neq, E|].
    cbn [List.length]. symmetry. apply Nat.div_small, E.
  - apply Nat.ltb_ge in E.
    destruct (IH (i - 8)%nat) as (pre & b & b' & post & H1 & H2 & H3 & H4).
    { simpl in Hi. lia. }
    exists (a :: pre), b, b', post. cbn [app List.length].
    rewrite <- H1, H2, H4.
    repeat split; [exact H3|].
    replace i with ((i - 8) + 1 * 8)%nat at 2 by lia.
    rewrite Nat.div_add by lia. lia.
Qed.

Lemma nth_other {A} (pre post : list A) (x y d : A) (j : nat) :
  j <> List.length pre ->
  nth j (pre ++ x :: post) d = nth j (pre ++ y :: post) d.
Proof.
  revert j. induction pre as [|a pre IH]; intros j Hj; simpl in *.
  - destruct j; [congruence|reflexivity].
  - destruct j; [reflexivity|]. apply IH. congruence.
Qed.

Lemma firstn_before {A} (pre post : list A) (x y : A) (n : nat) :
  (n <= List.length pre)%nat ->
  firstn n (pre ++ x :: post) = firstn n (pre ++ y :: post).
Proof.
  intros H. rewrite !firstn_app.
  replace (n - List.length pre)%nat with 0%nat by lia. reflexivity.
Qed.

Lemma firstn_beyond {A} (pre post : list A) (x : A) (n : nat) :
  (List.length pre < n)%nat ->
  firstn n (pre ++ x :: post)
  = pre ++ x :: firstn (n - List.length pre - 1) post.
Proof.
  intros H. rewrite firstn_app, firstn_all2 by lia.
  destruct (n - List.length pre)%nat as [|m] eqn:E; [lia|].
  simpl. rewrite Nat.sub_0_r. reflexivity.
Qed.

(** One changed byte in an exact frame is noticed, unless it lowers the
    declared payload length. *)
Lemma changed_byte_detected (pre post : list byte) (b b' : byte) :
  b' <> b ->
  exact_frame (pre ++ b :: post) ->
  declared_len (pre ++ b :: post) <= declared_len (pre ++ b' :: post) ->
  magic_mismatch (pre ++ b' :: post)
  \/ frame_exceeds_buffer (pre ++ b' :: post)
  \/ checksum_mismatch (pre ++ b' :: post).
Proof.
  intros Hne (Hlen & Hmagic & Hsum) Hdecl.
  set (f := pre ++ b :: post) in *. set (f' := pre ++ b' :: post) in *.
  set (j := List.length pre).
  assert (Hother : forall i, i <> j -> byte_at i f' = byte_at i f)
    by (intros i Hi; apply nth_other; exact Hi).
  assert (Hat : byte_at j f = b /\ byte_at j f' = b')
    by (split; apply nth_middle).
  assert (Hl : len f' = len f)
    by (unfold f, f', len; rewrite !length_app; reflexivity).
  assert (Hb : b2z b' <> b2z b) by (intros E; apply Hne, b2z_inj, E).
  destruct Hat as [Hatf Hatf'].
  (* the magic byte *)
  destruct (Nat.eq_dec j 0) as [J0|J0].
  { left. unfold magic_mismatch, magic_of in *. rewrite <- J0, Hatf'.
    rewrite <- J0, Hatf in Hmagic. congruence. }
  (* the payload length *)
  destruct (Z.eq_dec (declared_len f') (declared_len f)) as [D|D].
  2:{ right. left. unfold frame_exceeds_buffer. lia. }
  assert (Jlen : j <> 8%nat /\ j <> 9%nat /\ j <> 10%nat /\ j <> 11%nat).
  { unfold declared_len in D. apply of_be32_inj in D.
    destruct D as (D8 & D9 & D10 & D11).
    repeat split; intros J; rewrite <- J in *; congruence. }
  right. right. unfold checksum_mismatch, stored_checksum, computed_checksum.
  rewrite D. unfold stored_checksum, computed_checksum in Hsum.
  pose proof (of_be32_range (byte_at 8 f) (byte_at 9 f) (byte_at 10 f)
                (byte_at 11 f)) as Hn.
  fold (declared_len f) in Hn.
  set (e := Z.to_nat (HEADER_SIZE + declared_len f)) in *.
  assert (He : Z.of_nat e = HEADER_SIZE + declared_len f)
    by (unfold e, HEADER_SIZE, calcsize_BBHI; lia).
  assert (Hjlt : (j < List.length f)%nat)
    by (unfold f, j; rewrite length_app; simpl; lia).
  assert (Hfl : Z.of_nat (List.length f) = Z.of_nat e + 4)
    by (unfold len, FOOTER_SIZE in Hlen; lia).
  destruct (Nat.lt_ge_cases j e) as [Jin|Jout].
  - (* a byte under the checksum *)
    rewrite !Hother by lia. rewrite Hsum.
    unfold f, f'. rewrite !firstn_beyond by exact Jin.
    apply not_eq_sym, crc32_one_byte. auto.
  - (* a byte of the checksum *)
    unfold f' at 5. unfold f in Hsum at 5.
    rewrite (firstn_before pre post b' b) by exact Jout.
    rewrite <- Hsum. intros E. apply of_be32_inj in E.
    destruct E as (E0 & E1 & E2 & E3).
    assert (Hcase : j = e \/ j = (e + 1)%nat \/ j = (e + 2)%nat
                    \/ j = (e + 3)%nat) by lia.
    destruct Hcase as [J|[J|[J|J]]]; rewrite <- J in *; congruence.
Qed.

Lemma frame_exact (p : Packet) : encodable p = true -> exact_frame (frame p).
Proof.
  intros He. pose proof He as He'. apply encodable_true in He'.
  destruct He' as (Hs & Ht & Hl).
  assert (Hd : declared_len (frame p) = payload_size p).
  { rewrite frame_split. unfold declared_len, byte_at. cbn [app nth].
    pose proof (of_be32_be32 _ Hl) as El. exact El. }
  pose proof (deserialize_packet_cases Protocol.init (frame p))
    as (_ & _ & Hiff).
  rewrite deserialize_packet_frame in Hiff by exact He. cbn [fst] in Hiff.
  split; [|split].
  - rewrite Hd, frame_length. unfold payload_size, HEADER_SIZE, FOOTER_SIZE,
      calcsize_BBHI. lia.
  - destruct (Z.eq_dec (magic_of (frame p)) MAGIC_BYTE) as [Heq|Hneq];
      [exact Heq|].
    assert (F : Ret (Some (decoded p)) = Ret None)
      by (apply Hiff; right; left; exact Hneq).
    discriminate F.
  - destruct (Z.eq_dec (stored_checksum (frame p))
                (computed_checksum (frame p))) as [Heq|Hneq]; [exact Heq|].
    assert (F : Ret (Some (decoded p)) = Ret None)
      by (apply Hiff; right; right; right; left; exact Hneq).
    discriminate F.
Qed.

(** A flip outside bytes 8 to 11 leaves the declared length alone. *)
Lemma flip_keeps_declared_len (i : nat) (f : list byte) :
  (i < 64)%nat \/ (96 <= i)%nat ->
  declared_len (flip_bit i f) = declared_len f.
Proof.
  intros Hi.
  destruct (Nat.lt_ge_cases i (8 * List.length f)) as [Hin|Hout].
  - destruct (flip_bit_one_byte i f Hin) as (pre & b & b' & post & -> & -> & _ & Hj).
    assert (J : (List.length pre < 8)%nat \/ (12 <= List.length pre)%nat).
    { rewrite Hj. destruct Hi as [Hi|Hi].
      - left. apply Nat.Div0.div_lt_upper_bound. lia.
      - right. apply Nat.div_le_lower_bound; lia. }
    unfold declared_len, byte_at.
    rewrite !(nth_other pre post b' b) by lia. reflexivity.
  - f_equal. clear Hi. revert i Hout.
    induction f as [|a f IH]; intros i Hout; [reflexivity|].
    simpl in *. destruct (i <? 8)%nat eqn:E; [apply Nat.ltb_lt in E; lia|].
    f_equal. apply IH. lia.
Qed.

End FlipFacts.

(* ================================================================== *)
(** * Properties of the checksum *)

Import FlipFacts.

(** C7, as the specification words it, fails.  The frame of the DATA
    packet whose 4-byte payload is the CRC-32 of its own header with a zero
    payload length: clearing bit 2 of the last payload-length byte (4
    becomes 0) leaves a buffer that decodes, to the packet with no
    payload. *)
Lemma C7_counterexample :
  let p := mkPacket DATA 0 0 [x28; x9a; x45; xd6] in
  exists f,
    serialize_packet Protocol.init p = Ret f
    /\ (90 < 8 * List.length f)%nat
    /\ fst (deserialize_packet Protocol.init (flip_bit 90 f))
       = Ret (Some (mkPacket DATA 0 (0 # 1000) []))
    /\ fst (deserialize_packet Protocol.init (flip_bit 90 f)) <> Ret None.
Proof.
  cbv zeta. eexists. split; [vm_compute; reflexivity|].
  split; [vm_compute; lia|].
  assert (E : fst (deserialize_packet Protocol.init
                     (flip_bit 90
                        [xaa; x01; x00; x00; x00; x00; x00; x00; x00; x00;
                         x00; x04; x28; x9a; x45; xd6; x68; x0d; x6c; x8e]))
              = Ret (Some (mkPacket DATA 0 (0 # 1000) [])))
    by (vm_compute; reflexivity).
  split; [exact E|]. rewrite E. discriminate.
Qed.

(** C7 (amended): in the frame of any packet, flipping a bit that lies
    outside the payload-length field (bytes 8 to 11), or a bit of that
    field whose flip raises the declared length (a 0 bit), makes
    [deserialize_packet] return [None]. *)
Theorem C7_bit_flip_detected (self : ProtocolHandler) (p : Packet)
        (f : list byte) (i : nat) :
  serialize_packet self p = Ret f ->
  (i < 8 * List.length f)%nat ->
  (i < 64)%nat \/ (96 <= i)%nat
  \/ declared_len f < declared_len (flip_bit i f) ->
  fst (deserialize_packet self (flip_bit i f)) = Ret None.
Proof.
  rewrite serialize_packet_eq.
  destruct (encodable p) eqn:He; [|discriminate].
  intros E Hi Hbit. injection E as <-.
  assert (Hdecl : declared_len (frame p) <= declared_len (flip_bit i (frame p))).
  { destruct Hbit as [H|[H|H]]; [| |lia];
      rewrite flip_keeps_declared_len by auto; lia. }
  destruct (flip_bit_one_byte i (frame p) Hi)
    as (pre & b & b' & post & Hf & Hf' & Hne & _).
  rewrite Hf' in *. pose proof (frame_exact p He) as Hex. rewrite Hf in *.
  destruct (deserialize_packet_cases self (pre ++ b' :: post))
    as (_ & _ & Hiff).
  apply Hiff.
  destruct (changed_byte_detected pre post b b' Hne Hex Hdecl)
    as [H|[H|H]]; tauto.
Qed.

Lemma C7_bit_flip_detected_witness :
  fst (deserialize_packet Protocol.init
         (flip_bit 13
            [xaa; x01; x00; x00; x00; x00; x00; x00; x00; x00; x00; x00;
             x28; x9a; x45; xd6]))
  = Ret None.
Proof.
  apply (C7_bit_flip_detected Protocol.init (mkPacket DATA 0 0 [])).
  - vm_compute. reflexivity.
  - simpl. lia.
  - left. lia.
Defined.

(* ================================================================== *)
(** * Facts about the stream reassembler *)

Module ParseFacts.
Import BytesFacts StructFacts ZlibFacts ProtocolFacts DecodeFacts.
Import Struct Zlib Protocol DecodeSpec Serial.

Lemma set_protocol_same (s : SerialHandler) : set_protocol (protocol s) s = s.
Proof. destruct s; reflexivity. Qed.

Lemma deserialize_packet_self (self : ProtocolHandler) (data : list byte) :
  deserialize_packet self data = (fst (deserialize_packet self data), self).
Proof.
  destruct (deserialize_packet_cases self data) as (H & _).
  destruct (deserialize_packet self data) as [r s]. simpl in *. congruence.
Qed.

Lemma deserialize_packet_returns (self : ProtocolHandler) (data : list byte) :
  exists v, fst (deserialize_packet self data) = Ret v.
Proof. apply deserialize_packet_cases. Qed.

(** The [try] block on a buffer that holds the header. *)
Lemma parse_try_cases (sh : SerialHandler) (b : list byte) :
  HEADER_SIZE <= len b ->
  parse_try sh b
  = if len b <? announced_size b then Ret (Break, sh, b)
    else match fst (deserialize_packet (protocol sh)
                      (slice 0 (announced_size b) b)) with
         | Ret (Some p) =>
             Ret (Continue, received p sh,
                  skipn (Z.to_nat (announced_size b)) b)
         | Ret None => Ret (Continue, sh, tl b)
         | Raise e => Raise e
         end.
Proof.
  intros Hlen. unfold HEADER_SIZE, calcsize_BBHI in Hlen.
  destruct b as [|m [|t [|s1 [|s0 [|t3 [|t2 [|t1 [|t0 [|l3 [|l2 [|l1
    [|l0 rest]]]]]]]]]]]];
    try (unfold len in Hlen; simpl in Hlen; lia).
  set (b := m :: t :: s1 :: s0 :: t3 :: t2 :: t1 :: t0
            :: l3 :: l2 :: l1 :: l0 :: rest) in *.
  assert (Hs : slice calcsize_BBHI HEADER_SIZE b = [l3; l2; l1; l0])
    by reflexivity.
  assert (Ha : announced_size b
               = HEADER_SIZE + of_be32 l3 l2 l1 l0 + FOOTER_SIZE)
    by reflexivity.
  unfold parse_try. rewrite Hs, Ha. cbn [unpack_I bind].
  destruct (len b <? _); [reflexivity|].
  rewrite deserialize_packet_self, set_protocol_same.
  destruct (fst (deserialize_packet _ _)) as [[p|]|e]; reflexivity.
Qed.

Lemma skipn_len {A} (i : nat) (l : list A) :
  len (skipn i l) = len l - Z.of_nat (Nat.min i (List.length l)).
Proof. unfold len. rewrite length_skipn. lia. Qed.

(** One iteration, with the [except] clause out of the way: the [try]
    block does not raise. *)
Lemma parse_iteration_cases (sh : SerialHandler) (buffer : list byte) :
  parse_iteration sh buffer
  = match find MAGIC_BYTE buffer with
    | None => Ret (Break, sh, [])
    | Some i =>
        let b := skipn i buffer in
        if len b <? HEADER_SIZE then Ret (Break, sh, b)
        else if len b <? announced_size b then Ret (Break, sh, b)
        else match fst (deserialize_packet (protocol sh)
                          (slice 0 (announced_size b) b)) with
             | Ret (Some p) =>
                 Ret (Continue, received p sh,
                      skipn (Z.to_nat (announced_size b)) b)
             | _ => Ret (Continue, sh, tl b)
             end
    end.
Proof.
  unfold parse_iteration. destruct (find MAGIC_BYTE buffer) as [i|];
    [|reflexivity].
  replace (if 0 <? Z.of_nat i then skipn i buffer else buffer)
    with (skipn i buffer)
    by (destruct i; reflexivity).
  cbv zeta. destruct (len (skipn i buffer) <? HEADER_SIZE) eqn:Hh;
    [reflexivity|].
  apply Z.ltb_ge in Hh. rewrite parse_try_cases by exact Hh.
  destruct (len (skipn i buffer) <? announced_size (skipn i buffer));
    [reflexivity|].
  destruct (deserialize_packet_returns (protocol sh)
              (slice 0 (announced_size (skipn i buffer)) (skipn i buffer)))
    as [v Hv].
  rewrite Hv. destruct v; reflexivity.
Qed.

Lemma announced_size_min (b : list byte) :
  HEADER_SIZE + FOOTER_SIZE <= announced_size b.
Proof.
  unfold announced_size, declared_len.
  pose proof (of_be32_range (byte_at 8 b) (byte_at 9 b) (byte_at 10 b)
                (byte_at 11 b)).
  lia.
Qed.

(** An iteration never raises, and one that continues shortens the
    buffer. *)
Lemma parse_iteration_progress (sh : SerialHandler) (buffer : list byte) :
  exists c sh' buffer',
    parse_iteration sh buffer = Ret (c, sh', buffer')
    /\ (c = Continue -> (List.length buffer' < List.length buffer)%nat).
Proof.
  rewrite parse_iteration_cases.
  destruct (find MAGIC_BYTE buffer) as [i|];
    [|eexists _, _, _; split; [reflexivity|discriminate]].
  cbv zeta. set (b := skipn i buffer).
  assert (Hb : (List.length b <= List.length buffer)%nat)
    by (unfold b; rewrite length_skipn; lia).
  destruct (len b <? HEADER_SIZE) eqn:Hh;
    [eexists _, _, _; split; [reflexivity|discriminate]|].
  destruct (len b <? announced_size b) eqn:Ht;
    [eexists _, _, _; split; [reflexivity|discriminate]|].
  apply Z.ltb_ge in Hh, Ht.
  pose proof (announced_size_min b) as Hmin.
  unfold HEADER_SIZE, FOOTER_SIZE, calcsize_BBHI, len in *.
  assert (Htl : (List.length (tl b) < List.length buffer)%nat)
    by (destruct b; simpl in *; lia).
  destruct (fst (deserialize_packet _ _)) as [[p|]|e];
    eexists _, _, _; (split; [reflexivity|intros _]); try exact Htl.
  rewrite length_skipn. lia.
Qed.

(** The loop ends within [len(buffer)] iterations and never raises. *)
Lemma parse_loop_total (fuel : nat) (sh : SerialHandler)
      (buffer : list byte) :
  (List.length buffer <= fuel)%nat ->
  exists sh' buffer', parse_loop fuel sh buffer = Some (Ret (sh', buffer')).
Proof.
  revert sh buffer. induction fuel as [|fuel IH]; intros sh buffer Hf.
  - destruct buffer; [|simpl in Hf; lia]. simpl. eauto.
  - cbn [parse_loop].
    destruct (len buffer <? HEADER_SIZE + FOOTER_SIZE); [eauto|].
    destruct (parse_iteration_progress sh buffer) as (c & sh' & b' & E & Hp).
    rewrite E. destruct c; [eauto|]. apply IH. specialize (Hp eq_refl). lia.
Qed.

(** ** Buffers that hold frames *)

Lemma find_app (v : Z) (a b : list byte) :
  find v (a ++ b)
  = match find v a with
    | Some i => Some i
    | None => match find v b with
              | Some j => Some (List.length a + j)%nat
              | None => None
              end
    end.
Proof.
  induction a as [|x a IH]; simpl.
  - destruct (find v b); reflexivity.
  - destruct (b2z x =? v); [reflexivity|]. rewrite IH.
    destruct (find v a); [reflexivity|]. destruct (find v b); reflexivity.
Qed.

Lemma frame_nonempty (p : Packet) :
  exists rest, frame p = z2b MAGIC_BYTE :: rest.
Proof. rewrite frame_split. eexists. reflexivity. Qed.

Lemma frame_min_length (p : Packet) :
  HEADER_SIZE + FOOTER_SIZE <= len (frame p).
Proof.
  rewrite frame_length. pose proof (len_nonneg (payload p)).
  unfold HEADER_SIZE, FOOTER_SIZE, calcsize_BBHI. lia.
Qed.

Lemma declared_len_frame (p : Packet) :
  encodable p = true -> declared_len (frame p) = payload_size p.
Proof.
  intros He. apply encodable_true in He. destruct He as (_ & _ & Hl).
  rewrite frame_split. unfold declared_len, byte_at. cbn [app nth].
  exact (of_be32_be32 _ Hl).
Qed.

Lemma byte_at_prefix (l R f rest : list byte) (i : nat) :
  l ++ R = f ++ rest -> (i < List.length l)%nat -> (i < List.length f)%nat ->
  byte_at i l = byte_at i f.
Proof.
  intros E Hl Hf. unfold byte_at.
  rewrite <- (app_nth1 l R x00 Hl), E. apply app_nth1, Hf.
Qed.

Lemma prefix_whole (l R f rest : list byte) :
  l ++ R = f ++ rest -> (List.length f <= List.length l)%nat ->
  l = f ++ skipn (List.length f) l.
Proof.
  intros E H.
  assert (F : firstn (List.length f) l = f).
  { assert (G : firstn (List.length f) (l ++ R) = firstn (List.length f) l).
    { rewrite firstn_app.
      replace (List.length f - List.length l)%nat with 0%nat by lia.
      simpl. apply app_nil_r. }
    rewrite <- G, E, firstn_app, Nat.sub_diag, firstn_all. simpl.
    apply app_nil_r. }
  rewrite <- F at 1. symmetry. apply firstn_skipn.
Qed.

(** One iteration on a buffer that starts where a frame starts. *)
Lemma iteration_aligned (sh : SerialHandler) (l R rest : list byte)
      (p : Packet) :
  l ++ R = frame p ++ rest -> l <> [] -> encodable p = true ->
  parse_iteration sh l
  = if len l <? len (frame p) then Ret (Break, sh, l)
    else Ret (Continue, received (decoded p) sh,
              skipn (List.length (frame p)) l).
Proof.
  intros E Hne He. rewrite parse_iteration_cases.
  destruct (frame_nonempty p) as [fr Hfr].
  destruct l as [|x l']; [congruence|].
  assert (Hx : x = z2b MAGIC_BYTE)
    by (rewrite Hfr in E; simpl in E; congruence).
  assert (Hfind : find MAGIC_BYTE (x :: l') = Some 0%nat)
    by (subst x; reflexivity).
  rewrite Hfind. cbv zeta. cbn [skipn].
  set (l := x :: l') in *.
  pose proof (frame_min_length p) as Hmin.
  pose proof (frame_length p) as Hfl.
  unfold HEADER_SIZE, FOOTER_SIZE, calcsize_BBHI in Hmin.
  destruct (len l <? HEADER_SIZE) eqn:Hh.
  { apply Z.ltb_lt in Hh. unfold HEADER_SIZE, calcsize_BBHI in Hh.
    replace (len l <? len (frame p)) with true
      by (symmetry; apply Z.ltb_lt; lia).
    reflexivity. }
  apply Z.ltb_ge in Hh. unfold HEADER_SIZE, calcsize_BBHI in Hh.
  assert (Hd : declared_len l = payload_size p).
  { rewrite <- (declared_len_frame p He). unfold declared_len.
    unfold len in Hh, Hmin.
    rewrite !(byte_at_prefix l R (frame p) rest _ E) by lia. reflexivity. }
  assert (Ha : announced_size l = len (frame p)).
  { unfold announced_size. rewrite Hd, Hfl.
    unfold payload_size, HEADER_SIZE, FOOTER_SIZE, calcsize_BBHI. lia. }
  rewrite Ha.
  destruct (len l <? len (frame p)) eqn:Ht; [reflexivity|].
  apply Z.ltb_ge in Ht.
  assert (Hw : l = frame p ++ skipn (List.length (frame p)) l)
    by (apply (prefix_whole l R (frame p) rest E); unfold len in Ht; lia).
  assert (Hs : slice 0 (len (frame p)) l = frame p).
  { unfold slice. rewrite Z.sub_0_r. cbn [Z.to_nat skipn].
    rewrite Hw. apply firstn_len_app. }
  rewrite Hs, deserialize_packet_frame by exact He. cbn [fst].
  unfold len. rewrite Nat2Z.id. reflexivity.
Qed.

Lemma stream_cons (p : Packet) (ps : list Packet) :
  stream (p :: ps) = frame p ++ stream ps.
Proof. reflexivity. Qed.

Lemma parse_loop_short (fuel : nat) (sh : SerialHandler) (l : list byte) :
  len l < HEADER_SIZE + FOOTER_SIZE ->
  parse_loop fuel sh l = Some (Ret (sh, l)).
Proof.
  intros H. apply Z.ltb_lt in H.
  destruct fuel; cbn [parse_loop]; rewrite H; reflexivity.
Qed.

(** The loop on a buffer that starts where a frame starts. *)
Lemma parse_aligned (ps : list Packet) :
  Forall (fun p => encodable p = true) ps ->
  forall fuel sh l R,
    l ++ R = stream ps -> (List.length l <= fuel)%nat ->
    exists done ps' l',
      ps = done ++ ps'
      /\ parse_loop fuel sh l = Some (Ret (receive_all done sh, l'))
      /\ l' ++ R = stream ps' /\ waiting 0 l' ps'.
Proof.
  induction 1 as [|p ps He Hps IH]; intros fuel sh l R E Hf.
  - exists [], [], l. apply app_eq_nil in E. destruct E as [-> ->].
    repeat split. apply parse_loop_short. reflexivity.
  - rewrite stream_cons in E.
    pose proof (frame_min_length p) as Hmin.
    destruct (Z.lt_ge_cases (len l) (HEADER_SIZE + FOOTER_SIZE)) as [Hs|Hs].
    { exists [], (p :: ps), l. repeat split; [apply parse_loop_short, Hs|exact E|].
      cbn [waiting]. lia. }
    destruct fuel as [|fuel].
    { unfold len, HEADER_SIZE, FOOTER_SIZE, calcsize_BBHI in Hs. lia. }
    assert (Hne : l <> [])
      by (intros ->; unfold len, HEADER_SIZE, FOOTER_SIZE, calcsize_BBHI in Hs;
          simpl in Hs; lia).
    cbn [parse_loop].
    replace (len l <? HEADER_SIZE + FOOTER_SIZE) with false
      by (symmetry; apply Z.ltb_ge; exact Hs).
    rewrite (iteration_aligned sh l R (stream ps) p E Hne He).
    destruct (len l <? len (frame p)) eqn:Ht.
    { apply Z.ltb_lt in Ht. exists [], (p :: ps), l.
      repeat split; [exact E|cbn [waiting]; lia]. }
    apply Z.ltb_ge in Ht.
    assert (Hw : l = frame p ++ skipn (List.length (frame p)) l)
      by (apply (prefix_whole l R (frame p) (stream ps) E);
          unfold len in Ht; lia).
    set (l2 := skipn (List.length (frame p)) l) in *.
    assert (E2 : l2 ++ R = stream ps).
    { rewrite Hw, <- app_assoc in E. apply app_inv_head in E. exact E. }
    assert (Hf2 : (List.length l2 <= fuel)%nat).
    { unfold l2. rewrite length_skipn.
      unfold len, HEADER_SIZE, FOOTER_SIZE, calcsize_BBHI in Hmin. lia. }
    destruct (IH fuel (received (decoded p) sh) l2 R E2 Hf2)
      as (done & ps' & l' & D1 & D2 & D3 & D4).
    exists (p :: done), ps', l'. rewrite D1. repeat split; assumption.
Qed.

Lemma find_app_none (v : Z) (a b : list byte) :
  find v (a ++ b) = None -> find v a = None /\ find v b = None.
Proof.
  rewrite find_app. destruct (find v a); [discriminate|].
  destruct (find v b); [discriminate|]. auto.
Qed.

Lemma parse_loop_no_magic (fuel : nat) (sh : SerialHandler) (l : list byte) :
  find MAGIC_BYTE l = None -> HEADER_SIZE + FOOTER_SIZE <= len l ->
  (List.length l <= fuel)%nat ->
  parse_loop fuel sh l = Some (Ret (sh, [])).
Proof.
  intros Hfind Hlen Hf. destruct fuel as [|fuel].
  { unfold len, HEADER_SIZE, FOOTER_SIZE, calcsize_BBHI in Hlen. lia. }
  cbn [parse_loop].
  replace (len l <? HEADER_SIZE + FOOTER_SIZE) with false
    by (symmetry; apply Z.ltb_ge; exact Hlen).
  rewrite parse_iteration_cases, Hfind. reflexivity.
Qed.

(** The bytes before the first magic byte do not matter to an
    iteration. *)
Lemma parse_iteration_skip (sh : SerialHandler) (g l : list byte) :
  find MAGIC_BYTE g = None -> find MAGIC_BYTE l = Some 0%nat ->
  parse_iteration sh (g ++ l) = parse_iteration sh l.
Proof.
  intros Hg Hl. rewrite !parse_iteration_cases, find_app, Hg, Hl.
  rewrite Nat.add_0_r. cbv zeta.
  rewrite skipn_app, Nat.sub_diag, skipn_all. reflexivity.
Qed.

(** The loop on a buffer that starts in the noise before the frames. *)
Lemma parse_from (g : list byte) (ps : list Packet) (fuel : nat)
      (sh : SerialHandler) (buf R : list byte) :
  find MAGIC_BYTE g = None ->
  Forall (fun p => encodable p = true) ps ->
  buf ++ R = g ++ stream ps -> (List.length buf <= fuel)%nat ->
  exists g' done ps' buf',
    ps = done ++ ps'
    /\ parse_loop fuel sh buf = Some (Ret (receive_all done sh, buf'))
    /\ buf' ++ R = g' ++ stream ps'
    /\ find MAGIC_BYTE g' = None
    /\ waiting (len g') buf' ps'.
Proof.
  intros Hg Hps E Hf.
  assert (Hwait : forall skip l, 0 <= skip ->
             len l < HEADER_SIZE + FOOTER_SIZE -> waiting skip l ps).
  { intros skip l Hskip Hl. destruct ps as [|p ps']; cbn [waiting]; [exact I|].
    pose proof (frame_min_length p). lia. }
  destruct (Z.lt_ge_cases (len buf) (HEADER_SIZE + FOOTER_SIZE)) as [Hs|Hs].
  { exists g, [], ps, buf.
    repeat split; [apply parse_loop_short, Hs|exact E|exact Hg|].
    apply Hwait; [apply len_nonneg|exact Hs]. }
  destruct (app_eq_app _ _ _ _ E) as [l [[Hb Hst]|[Hgs HR]]].
  - (* the buffer reaches past the noise *)
    destruct l as [|x l'].
    + rewrite app_nil_r in Hb. subst buf. simpl in Hst. subst R.
      exists [], [], ps, [].
      repeat split; [apply parse_loop_no_magic; assumption|].
      destruct ps as [|p ps']; cbn [waiting]; [exact I|].
      pose proof (frame_min_length p) as Hmin.
      change (len (@nil byte)) with 0.
      unfold HEADER_SIZE, FOOTER_SIZE, calcsize_BBHI in Hmin. lia.
    + destruct ps as [|p ps1]; [discriminate Hst|].
      inversion Hps as [|? ? He Hps1]; subst.
      rewrite stream_cons in Hst.
      destruct (frame_nonempty p) as [fr Hfr].
      assert (Hx : x = z2b MAGIC_BYTE)
        by (rewrite Hfr in Hst; simpl in Hst; congruence).
      assert (Hfind : find MAGIC_BYTE (x :: l') = Some 0%nat)
        by (subst x; reflexivity).
      set (l := x :: l') in *.
      destruct fuel as [|fuel].
      { unfold len, HEADER_SIZE, FOOTER_SIZE, calcsize_BBHI in Hs. lia. }
      cbn [parse_loop].
      replace (len (g ++ l) <? HEADER_SIZE + FOOTER_SIZE) with false
        by (symmetry; apply Z.ltb_ge; exact Hs).
      rewrite (parse_iteration_skip sh g l Hg Hfind).
      assert (Hne : l <> []) by discriminate.
      rewrite (iteration_aligned sh l R (stream ps1) p (eq_sym Hst) Hne He).
      pose proof (frame_min_length p) as Hmin.
      destruct (len l <? len (frame p)) eqn:Ht.
      { apply Z.ltb_lt in Ht. exists [], [], (p :: ps1), l.
        repeat split; [exact (eq_sym Hst)|].
        cbn [waiting]. change (len (@nil byte)) with 0. lia. }
      apply Z.ltb_ge in Ht.
      assert (Hw : l = frame p ++ skipn (List.length (frame p)) l)
        by (apply (prefix_whole l R (frame p) (stream ps1) (eq_sym Hst));
            unfold len in Ht; lia).
      set (l2 := skipn (List.length (frame p)) l) in *.
      assert (E2 : l2 ++ R = stream ps1).
      { rewrite Hw, <- app_assoc in Hst. apply app_inv_head in Hst.
        symmetry. exact Hst. }
      assert (Hf2 : (List.length l2 <= fuel)%nat).
      { unfold l2. rewrite length_skipn. rewrite length_app in Hf.
        unfold len, HEADER_SIZE, FOOTER_SIZE, calcsize_BBHI in Hmin. lia. }
      destruct (parse_aligned ps1 Hps1 fuel (received (decoded p) sh) l2 R
                  E2 Hf2) as (done & ps' & l3 & D1 & D2 & D3 & D4).
      exists [], (p :: done), ps', l3. rewrite D1.
      repeat split; assumption.
  - (* the buffer lies within the noise *)
    subst g R. apply find_app_none in Hg. destruct Hg as [Hg1 Hg2].
    exists l, [], ps, [].
    repeat split; [apply parse_loop_no_magic; assumption|exact Hg2|].
    destruct ps as [|p ps']; cbn [waiting]; [exact I|].
    pose proof (frame_min_length p) as Hmin. pose proof (len_nonneg l).
    change (len (@nil byte)) with 0.
    unfold HEADER_SIZE, FOOTER_SIZE, calcsize_BBHI in Hmin. lia.
Qed.

Lemma packets_of_app (a b : list signal) :
  packets_of (a ++ b) = packets_of a ++ packets_of b.
Proof.
  induction a as [|x a IH]; [reflexivity|].
  destruct x; simpl; rewrite IH; reflexivity.
Qed.

Lemma receive_all_packets (done : list Packet) (s : SerialHandler) :
  packets_of (emitted (receive_all done s))
  = packets_of (emitted s) ++ map decoded done.
Proof.
  revert s. induction done as [|p done IH]; intros s.
  - simpl. rewrite app_nil_r. reflexivity.
  - unfold receive_all in *. cbn [fold_left map]. rewrite IH.
    unfold received, emit, incr_packets_received. cbn [emitted].
    rewrite packets_of_app, <- app_assoc. reflexivity.
Qed.

Lemma stream_length (p : Packet) (ps : list Packet) :
  len (frame p) <= len (stream (p :: ps)).
Proof. rewrite stream_cons, len_app. pose proof (len_nonneg (stream ps)). lia. Qed.

(** The receive loop over the chunks still to come, from a buffer that
    holds a prefix of noise and frames. *)
Lemma receive_chunks_frames (chunks : list (list byte)) :
  forall g ps sh buf,
    find MAGIC_BYTE g = None ->
    Forall (fun p => encodable p = true) ps ->
    buf ++ List.concat chunks = g ++ stream ps ->
    waiting (len g) buf ps ->
    exists sh' buf',
      receive_chunks sh buf chunks = Some (Ret (sh', buf'))
      /\ packets_of (emitted sh')
         = packets_of (emitted sh) ++ map decoded ps.
Proof.
  induction chunks as [|c chunks IH]; intros g ps sh buf Hg Hps E Hw.
  - exists sh, buf. split; [reflexivity|].
    destruct ps as [|p ps]; [simpl; rewrite app_nil_r; reflexivity|].
    exfalso. cbn [waiting] in Hw. simpl in E. rewrite app_nil_r in E.
    subst buf. rewrite len_app in Hw. pose proof (stream_length p ps). lia.
  - cbn [receive_chunks List.concat] in *. unfold receive_chunk, _parse_buffer.
    rewrite app_assoc in E.
    destruct (parse_from g ps (List.length (buf ++ c))
                (add_bytes_received (len c) sh) (buf ++ c)
                (List.concat chunks) Hg Hps E (Nat.le_refl _))
      as (g' & done & ps' & buf' & D1 & D2 & D3 & D4 & D5).
    rewrite D2.
    assert (Hps' : Forall (fun p => encodable p = true) ps').
    { rewrite D1 in Hps. apply Forall_app in Hps. tauto. }
    destruct (IH g' ps' (receive_all done (add_bytes_received (len c) sh))
                buf' D4 Hps' D3 D5) as (sh' & b' & R1 & R2).
    exists sh', b'. split; [exact R1|].
    rewrite R2, receive_all_packets, D1, map_app, app_assoc. reflexivity.
Qed.

Lemma tl_skipn {A} (i : nat) (l : list A) : tl (skipn i l) = skipn (S i) l.
Proof.
  revert l. induction i as [|i IH]; intros l.
  - destruct l; reflexivity.
  - destruct l as [|a l]; [reflexivity|]. exact (IH l).
Qed.

End ParseFacts.

(* ================================================================== *)
(** * Properties of the stream reassembler *)

Import ParseFacts.

(** C3, as the specification words it, fails: noise that holds the magic
    byte followed by a large payload length makes the reassembler wait for
    a frame of 4 GiB, and the two frames behind it yield nothing. *)
Lemma C3_counterexample :
  let garbage := [xaa; x00; x00; x00; x00; x00; x00; x00; xff; xff; xff; xff] in
  let p1 := mkPacket DATA 0 0 [] in
  let p2 := mkPacket DATA 1 0 [] in
  exists f1 f2 sh' buffer',
    serialize_packet Protocol.init p1 = Ret f1
    /\ serialize_packet Protocol.init p2 = Ret f2
    /\ _receive_loop Serial.init [garbage ++ f1 ++ f2]
       = Some (Ret (sh', buffer'))
    /\ packets_of (emitted sh') = []
    /\ buffer' = garbage ++ f1 ++ f2.
Proof.
  cbv zeta. eexists _, _, _, _.
  split; [vm_compute; reflexivity|].
  split; [vm_compute; reflexivity|].
  split; [vm_compute; reflexivity|].
  split; reflexivity.
Qed.

(** C3 (amended): when the noise holds no magic byte, feeding noise
    followed by two valid frames yields exactly the two packets, in order,
    however the bytes are cut into chunks; an iteration of the parsing loop
    never raises, and one that continues leaves a shorter buffer; on a
    decode failure after locating a magic byte it drops that one byte. *)
Theorem C3_resync_and_progress :
  (forall sh h p1 p2 f1 f2 garbage chunks,
      serialize_packet h p1 = Ret f1 ->
      serialize_packet h p2 = Ret f2 ->
      find MAGIC_BYTE garbage = None ->
      List.concat chunks = garbage ++ f1 ++ f2 ->
      exists sh' buffer',
        _receive_loop sh chunks = Some (Ret (sh', buffer'))
        /\ packets_of (emitted sh')
           = packets_of (emitted sh) ++ [decoded p1; decoded p2]
        /\ fst (deserialize_packet h f1) = Ret (Some (decoded p1))
        /\ fst (deserialize_packet h f2) = Ret (Some (decoded p2)))
  /\ (forall sh buffer,
         exists c sh' buffer',
           parse_iteration sh buffer = Ret (c, sh', buffer')
           /\ (c = Continue ->
               (List.length buffer' < List.length buffer)%nat))
  /\ (forall sh buffer i,
         find MAGIC_BYTE buffer = Some i ->
         let b := skipn i buffer in
         HEADER_SIZE <= len b ->
         announced_size b <= len b ->
         fst (deserialize_packet (protocol sh) (slice 0 (announced_size b) b))
         = Ret None ->
         parse_iteration sh buffer = Ret (Continue, sh, skipn (S i) buffer)).
Proof.
  split; [|split].
  - intros sh h p1 p2 f1 f2 garbage chunks S1 S2 Hg E.
    rewrite serialize_packet_eq in S1, S2.
    destruct (encodable p1) eqn:He1; [|discriminate].
    destruct (encodable p2) eqn:He2; [|discriminate].
    injection S1 as <-. injection S2 as <-.
    destruct (receive_chunks_frames chunks garbage [p1; p2] sh [] Hg)
      as (sh' & b' & R1 & R2).
    + repeat constructor; assumption.
    + unfold stream. cbn [map List.concat app]. rewrite app_nil_r. exact E.
    + cbn [waiting]. change (len (@nil byte)) with 0.
      pose proof (len_nonneg garbage). pose proof (frame_min_length p1).
      unfold HEADER_SIZE, FOOTER_SIZE, calcsize_BBHI in *. lia.
    + exists sh', b'. rewrite !deserialize_packet_frame by assumption.
      repeat split; assumption.
  - apply parse_iteration_progress.
  - intros sh buffer i Hfind b Hh Ht Hd.
    rewrite parse_iteration_cases, Hfind. cbv zeta. fold b.
    replace (len b <? HEADER_SIZE) with false
      by (symmetry; apply Z.ltb_ge; exact Hh).
    replace (len b <? announced_size b) with false
      by (symmetry; apply Z.ltb_ge; exact Ht).
    rewrite Hd. unfold b. rewrite tl_skipn. reflexivity.
Qed.

Lemma C3_resync_and_progress_witness :
  exists sh' buffer',
    _receive_loop Serial.init
      [[x00; x01; x02; xaa; x01];
       [x00; x00; x00; x00; x00; x00; x00; x00; x00; x00; x28; x9a; x45];
       [xd6; xaa; x01; x00; x00; x00; x00; x00; x00; x00; x00; x00; x00;
        x28; x9a; x45; xd6]]
    = Some (Ret (sh', buffer'))
    /\ packets_of (emitted sh')
       = [mkPacket DATA 0 (0 # 1000) []; mkPacket DATA 0 (0 # 1000) []].
Proof.
  destruct C3_resync_and_progress as (A & _).
  destruct (A Serial.init Protocol.init (mkPacket DATA 0 0 [])
              (mkPacket DATA 0 0 [])
              [xaa; x01; x00; x00; x00; x00; x00; x00; x00; x00; x00; x00;
               x28; x9a; x45; xd6]
              [xaa; x01; x00; x00; x00; x00; x00; x00; x00; x00; x00; x00;
               x28; x9a; x45; xd6]
              [x00; x01; x02]
              [[x00; x01; x02; xaa; x01];
               [x00; x00; x00; x00; x00; x00; x00; x00; x00; x00; x28; x9a;
                x45];
               [xd6; xaa; x01; x00; x00; x00; x00; x00; x00; x00; x00; x00;
                x00; x28; x9a; x45; xd6]])
    as (sh' & b' & R1 & R2 & _).
  - vm_compute. reflexivity.
  - vm_compute. reflexivity.
  - reflexivity.
  - reflexivity.
  - exists sh', b'. split; [exact R1|exact R2].
Defined.


(* ================================================================== *)
(** * More facts about the codec *)

Module CodecFacts.
Import BytesFacts StructFacts ZlibFacts ProtocolFacts DecodeFacts.
Import Struct Zlib Protocol Codec.









End CodecFacts.

(* ================================================================== *)
(** * More properties of the codec *)

Import CodecFacts Codec.



(** X2: [deserialize_packet] reads the frame at the head of the buffer and
    ignores whatever follows it. *)
Theorem bytes_after_frame_ignored (self : ProtocolHandler) (p : Packet)
        (f extra : list byte) :
  serialize_packet self p = Ret f ->
  deserialize_packet self (f ++ extra) = (Ret (Some (decoded p)), self).
Proof.
  rewrite serialize_packet_eq.
  destruct (encodable p) eqn:He; [|discriminate].
  intros E. injection E as <-.
  pose proof He as He'. apply encodable_true in He'.
  destruct He' as (Hs & Ht & Hl).
  unfold deserialize_packet.
  pose proof (frame_min_length p) as Hmin. pose proof (len_nonneg extra).
  replace (len (frame p ++ extra) <? HEADER_SIZE + FOOTER_SIZE) with false
    by (symmetry; apply Z.ltb_ge; rewrite len_app; lia).
  f_equal.
  rewrite frame_split, <- !app_assoc, deserialize_try_eq.
  pose proof (of_be32_be32 _ Hl) as El. unfold be32 in El.
  pose proof (of_be32_be32 _ Ht) as Et. unfold be32 in Et.
  pose proof (of_be16_be16 _ Hs) as Es. unfold be16 in Es.
  rewrite El, Et, Es, magic_byte_value, type_byte_value.
  rewrite Z.eqb_refl. cbn [negb].
  rewrite !len_app. change (len (be32 ?x)) with 4.
  unfold payload_size.
  replace (len (payload p) + (4 + len extra) <? len (payload p) + 4)
    with false by (symmetry; apply Z.ltb_ge; lia).
  rewrite firstn_len_app, skipn_len_app.
  change (firstn 4 (be32 ?x ++ extra)) with (be32 x).
  rewrite unpack_I_be32 by apply crc32_range. cbn [bind].
  rewrite crc32_mask, frame_body_split. unfold payload_size.
  rewrite Z.eqb_refl. cbn [negb].
  rewrite PacketType_of_value. reflexivity.
Qed.

Lemma bytes_after_frame_ignored_witness :
  deserialize_packet Protocol.init
    ([xaa; x01; x00; x00; x00; x00; x00; x00; x00; x00; x00; x00;
      x28; x9a; x45; xd6] ++ [x01; x02; x03])
  = (Ret (Some (decoded (mkPacket DATA 0 0 []))), Protocol.init).
Proof.
  apply (bytes_after_frame_ignored Protocol.init (mkPacket DATA 0 0 [])).
  vm_compute. reflexivity.
Defined.



(** X4: [get_acked_sequence] never raises; it returns [None] exactly for a
    packet that is no ACK or whose payload has fewer than four bytes, and
    otherwise the big-endian value of the first four payload bytes,
    whatever follows them. *)
Theorem get_acked_sequence_cases (self : ProtocolHandler) (p : Packet) :
  (exists v, get_acked_sequence self p = Ret v)
  /\ (get_acked_sequence self p = Ret None <->
      packet_type p <> ACK \/ len (payload p) < 4)
  /\ (forall a b c d rest,
         packet_type p = ACK -> payload p = a :: b :: c :: d :: rest ->
         get_acked_sequence self p = Ret (Some (of_be32 a b c d))).
Proof.
  unfold get_acked_sequence, PacketType_eqb.
  assert (Hty : (value (packet_type p) =? value ACK) = true
                <-> packet_type p = ACK)
    by (destruct (packet_type p); simpl; split; congruence).
  destruct (value (packet_type p) =? value ACK) eqn:T; cbn [negb orb].
  2:{ split; [eexists; reflexivity|]. split.
      - split; [|reflexivity]. intros _. left. intros H.
        apply Hty in H. discriminate.
      - intros a b c d rest H. apply Hty in H. discriminate. }
  assert (HA : packet_type p = ACK) by (apply Hty; reflexivity).
  destruct (len (payload p) <? 4) eqn:L.
  { apply Z.ltb_lt in L. split; [eexists; reflexivity|]. split.
    - split; [|reflexivity]. intros _. right. exact L.
    - intros a b c d rest _ E. rewrite E in L. unfold len in L.
      simpl in L. lia. }
  apply Z.ltb_ge in L.
  destruct (payload p) as [|a [|b [|c [|d rest]]]] eqn:E;
    try (unfold len in L; simpl in L; lia).
  change (slice 0 4 (a :: b :: c :: d :: rest)) with [a; b; c; d].
  cbn [unpack_I bind try_except].
  split; [eexists; reflexivity|]. split.
  - split; [discriminate|]. intros [H|H]; [contradiction|].
    unfold len in H. simpl in H. lia.
  - intros a' b' c' d' rest' _ E'. injection E' as <- <- <- <- <-.
    reflexivity.
Qed.

Lemma get_acked_sequence_cases_witness :
  get_acked_sequence Protocol.init (mkPacket ACK 7 0 [x00; x00; x01; x02; xff])
  = Ret (Some 258).
Proof.
  destruct (get_acked_sequence_cases Protocol.init
              (mkPacket ACK 7 0 [x00; x00; x01; x02; xff])) as (_ & _ & H).
  exact (H x00 x00 x01 x02 [xff] eq_refl eq_refl).
Defined.

(** X5: [create_ack_packet] on a sequence id that fits four bytes gives an ACK
    packet, stamped with the codec's next sequence id, from which
    [get_acked_sequence] reads the id back, also after the packet went
    through [serialize_packet] and [deserialize_packet]; on any other id it
    raises [struct.error]. *)
Theorem ack_round_trip (self : ProtocolHandler) (now : Q) (seq : Z) :
  (0 <= seq < 2 ^ 32 ->
   exists p self',
     create_ack_packet self now seq = Ret (p, self')
     /\ packet_type p = ACK
     /\ sequence_id p = sequence_counter self
     /\ sequence_counter self' = sequence_counter self + 1
     /\ get_acked_sequence self' p = Ret (Some seq)
     /\ (forall f q,
            serialize_packet self' p = Ret f ->
            fst (deserialize_packet self' f) = Ret (Some q) ->
            get_acked_sequence self' q = Ret (Some seq)))
  /\ (~ (0 <= seq < 2 ^ 32) ->
      create_ack_packet self now seq = Raise StructError).
Proof.
  unfold create_ack_packet, pack_I. split.
  - intros Hr. rewrite (proj2 (in_range_true 32 seq) Hr). cbn [bind].
    unfold create_packet. eexists _, _. split; [reflexivity|].
    cbn [packet_type sequence_id sequence_counter].
    assert (G : forall h t s,
               get_acked_sequence h (mkPacket ACK s t (be32 seq))
               = Ret (Some seq)).
    { intros h t s.
      destruct (get_acked_sequence_cases h (mkPacket ACK s t (be32 seq)))
        as (_ & _ & H).
      pose proof (of_be32_be32 seq Hr) as E. unfold be32 in *.
      rewrite (H _ _ _ _ [] eq_refl eq_refl). f_equal. f_equal. exact E. }
    repeat split; [apply G|].
    intros f q Hf Hq.
    destruct (roundtrip_when_encoded _ _ _ Hf) as (D & _).
    rewrite D in Hq. injection Hq as <-. unfold decoded.
    cbn [packet_type sequence_id payload]. apply G.
  - intros Hr. rewrite (proj2 (in_range_false 32 seq) Hr). reflexivity.
Qed.

Lemma ack_round_trip_witness :
  exists p self',
    create_ack_packet Protocol.init 0 70000 = Ret (p, self')
    /\ get_acked_sequence self' p = Ret (Some 70000).
Proof.
  destruct (ack_round_trip Protocol.init 0 70000) as (H & _).
  destruct H as (p & h & H1 & _ & _ & _ & H5 & _); [lia|].
  exists p, h. split; assumption.
Defined.

Lemma range_cons (a b : Z) : a < b -> range a b = a :: range (a + 1) b.
Proof.
  intros H. unfold range.
  replace (Z.to_nat (b - a)) with (S (Z.to_nat (b - (a + 1)))) by lia.
  cbn [seq map]. f_equal; [lia|].
  rewrite <- seq_shift, map_map. apply map_ext. intros i. lia.
Qed.

(** X6: A codec hands out consecutive sequence ids, whatever the types of the
    packets asked for: the packets of a series of [create_packet] calls
    carry the ids from the counter's value on, no id twice, the counter
    ends that many higher, and each packet holds the type, payload and
    clock reading of its call. *)
Theorem create_packets_sequence (calls : list creation)
        (self : ProtocolHandler) :
  let r := create_packets self calls in
  map sequence_id (fst r)
  = range (sequence_counter self) (sequence_counter self + len calls)
  /\ NoDup (map sequence_id (fst r))
  /\ sequence_counter (snd r) = sequence_counter self + len calls
  /\ map packet_type (fst r) = map cr_type calls
  /\ map payload (fst r) = map cr_payload calls
  /\ map timestamp (fst r) = map cr_now calls.
Proof.
  cbv zeta.
  assert (G : map sequence_id (fst (create_packets self calls))
              = range (sequence_counter self)
                  (sequence_counter self + len calls)
              /\ sequence_counter (snd (create_packets self calls))
                 = sequence_counter self + len calls
              /\ map packet_type (fst (create_packets self calls))
                 = map cr_type calls
              /\ map payload (fst (create_packets self calls))
                 = map cr_payload calls
              /\ map timestamp (fst (create_packets self calls))
                 = map cr_now calls).
  { revert self. induction calls as [|c calls IH]; intros self.
    - cbn [create_packets fst snd map]. unfold len. cbn [List.length].
      unfold range. rewrite Z.add_0_r, Z.sub_diag. repeat split.
    - cbn [create_packets]. unfold create_packet.
      specialize (IH (mkProtocolHandler (sequence_counter self + 1))).
      destruct (create_packets (mkProtocolHandler (sequence_counter self + 1))
                  calls) as [ps h'].
      cbn [fst snd map sequence_id packet_type payload timestamp
           sequence_counter] in *.
      destruct IH as (I1 & I2 & I3 & I4 & I5).
      assert (L : len (c :: calls) = len calls + 1)
        by (unfold len; cbn [List.length]; lia).
      pose proof (len_nonneg calls).
      rewrite L, I1, I2, I3, I4, I5.
      rewrite (range_cons (sequence_counter self)) by lia.
      repeat split; try (f_equal; f_equal; lia); lia. }
  destruct G as (G1 & G2 & G3 & G4 & G5).
  repeat split; try assumption.
  rewrite G1. apply range_NoDup.
Qed.

(* ================================================================== *)
(** * More facts about the reassembler and the connection *)

Module LinkFacts.
Import Link Port.

Lemma find_magic (v : Z) (l : list byte) (i : nat) :
  find v l = Some i -> magic_of (skipn i l) = v.
Proof.
  revert i. induction l as [|b rest IH]; intros i; cbn [find].
  - discriminate.
  - destruct (b2z b =? v) eqn:E.
    + intros H. injection H as <-. apply Z.eqb_eq in E. exact E.
    + destruct (find v rest) as [j|]; [|discriminate].
      intros H. injection H as <-. cbn [skipn]. apply IH. reflexivity.
Qed.

Lemma heard_fields (ps : list Packet) (s : SerialHandler) :
  protocol (heard ps s) = protocol s
  /\ is_connected (heard ps s) = is_connected s
  /\ serial_connection (heard ps s) = serial_connection s
  /\ bytes_sent (heard ps s) = bytes_sent s
  /\ bytes_received (heard ps s) = bytes_received s
  /\ Serial.packets_sent (heard ps s) = Serial.packets_sent s
  /\ Serial.packets_received (heard ps s) = Serial.packets_received s + len ps
  /\ emitted (heard ps s) = emitted s ++ map packet_received ps.
Proof.
  revert s. induction ps as [|p ps IH]; intros s.
  - cbn [heard fold_left map]. rewrite app_nil_r. unfold len.
    cbn [List.length]. repeat split. lia.
  - change (heard (p :: ps) s) with (heard ps (received p s)).
    destruct (IH (received p s)) as (I1 & I2 & I3 & I4 & I5 & I6 & I7 & I8).
    rewrite I1, I2, I3, I4, I5, I6, I7, I8.
    unfold received, Serial.emit, incr_packets_received, len.
    cbn [protocol is_connected serial_connection bytes_sent bytes_received
         Serial.packets_sent Serial.packets_received emitted map
         List.length].
    rewrite <- app_assoc. repeat split. lia.
Qed.

Lemma packets_of_received (ps : list Packet) :
  packets_of (map packet_received ps) = ps.
Proof. induction ps as [|p ps IH]; cbn; [|rewrite IH]; reflexivity. Qed.

Lemma heard_app (a b : list Packet) (s : SerialHandler) :
  heard (a ++ b) s = heard b (heard a s).
Proof. unfold heard. apply fold_left_app. Qed.

Lemma decoded_from_skipn (h : ProtocolHandler) (k : nat) (buffer : list byte)
      (p : Packet) :
  decoded_from h (skipn k buffer) p -> decoded_from h buffer p.
Proof.
  intros (i & n & H). exists (i + k)%nat, n. rewrite <- skipn_skipn. exact H.
Qed.

Lemma parse_iteration_post (sh : SerialHandler) (buffer : list byte)
      (c : control) (sh' : SerialHandler) (buffer' : list byte) :
  parse_iteration sh buffer = Ret (c, sh', buffer') ->
  (exists k, buffer' = skipn k buffer)
  /\ (exists ps, sh' = heard ps sh
                 /\ Forall (decoded_from (protocol sh) buffer) ps)
  /\ (c = Break -> at_rest buffer').
Proof.
  rewrite parse_iteration_cases.
  destruct (find MAGIC_BYTE buffer) as [i|] eqn:F.
  2:{ intros H. injection H as <- <- <-. split; [|split].
      - exists (List.length buffer). symmetry. apply skipn_all.
      - exists []. split; [reflexivity|constructor].
      - intros _. left. vm_compute. reflexivity. }
  cbv zeta.
  destruct (len (skipn i buffer) <? HEADER_SIZE) eqn:L1.
  { intros H. injection H as <- <- <-. split; [|split].
    - exists i. reflexivity.
    - exists []. split; [reflexivity|constructor].
    - intros _. left. apply Z.ltb_lt in L1.
      unfold HEADER_SIZE, FOOTER_SIZE, calcsize_BBHI in *. lia. }
  destruct (len (skipn i buffer) <? announced_size (skipn i buffer)) eqn:L2.
  { intros H. injection H as <- <- <-. split; [|split].
    - exists i. reflexivity.
    - exists []. split; [reflexivity|constructor].
    - intros _. right. split; [apply find_magic, F|].
      apply Z.ltb_lt in L2. exact L2. }
  destruct (fst (deserialize_packet (protocol sh)
                   (slice 0 (announced_size (skipn i buffer))
                      (skipn i buffer)))) as [[p|]|e] eqn:D;
    intros H; injection H as <- <- <-.
  - split; [|split].
    + eexists. rewrite skipn_skipn. reflexivity.
    + exists [p]. split; [reflexivity|]. constructor; [|constructor].
      exists i, (announced_size (skipn i buffer)). exact D.
    + discriminate.
  - split; [|split].
    + exists (S i). apply tl_skipn.
    + exists []. split; [reflexivity|constructor].
    + discriminate.
  - split; [|split].
    + exists (S i). apply tl_skipn.
    + exists []. split; [reflexivity|constructor].
    + discriminate.
Qed.

Lemma parse_loop_post (fuel : nat) :
  forall sh buffer sh' buffer',
    parse_loop fuel sh buffer = Some (Ret (sh', buffer')) ->
    exists ps k,
      sh' = heard ps sh /\ buffer' = skipn k buffer /\ at_rest buffer'
      /\ Forall (decoded_from (protocol sh) buffer) ps.
Proof.
  induction fuel as [|fuel IH]; intros sh buffer sh' buffer'; cbn [parse_loop].
  - destruct (len buffer <? HEADER_SIZE + FOOTER_SIZE) eqn:L; [|discriminate].
    intros H. injection H as <- <-. exists [], 0%nat.
    repeat split; [left; apply Z.ltb_lt, L|constructor].
  - destruct (len buffer <? HEADER_SIZE + FOOTER_SIZE) eqn:L.
    { intros H. injection H as <- <-. exists [], 0%nat.
      repeat split; [left; apply Z.ltb_lt, L|constructor]. }
    destruct (parse_iteration sh buffer) as [[[c sh1] b1]|e] eqn:P;
      [|discriminate].
    destruct (parse_iteration_post _ _ _ _ _ P)
      as ((k1 & K1) & (ps1 & S1 & F1) & R1).
    destruct c.
    + intros H. injection H as <- <-. exists ps1, k1.
      repeat split; try assumption. apply R1. reflexivity.
    + intros H. destruct (IH _ _ _ _ H) as (ps2 & k2 & S2 & K2 & R2 & F2).
      exists (ps1 ++ ps2), (k2 + k1)%nat.
      rewrite heard_app, <- S1, <- skipn_skipn, <- K1.
      repeat split; try assumption.
      apply Forall_app. split; [exact F1|].
      destruct (heard_fields ps1 sh) as (Hp & _).
      rewrite S1, Hp, K1 in F2.
      eapply Forall_impl; [|exact F2].
      intros p. apply decoded_from_skipn.
Qed.

Lemma receive_chunks_counts (chunks : list (list byte)) :
  forall sh buf sh' buf',
    receive_chunks sh buf chunks = Some (Ret (sh', buf')) ->
    bytes_received sh' = bytes_received sh + len (List.concat chunks)
    /\ Serial.packets_received sh' - len (packets_of (emitted sh'))
       = Serial.packets_received sh - len (packets_of (emitted sh)).
Proof.
  induction chunks as [|data rest IH]; intros sh buf sh' buf';
    cbn [receive_chunks List.concat].
  - intros H. injection H as <- <-. change (len (@nil byte)) with 0.
    split; lia.
  - unfold receive_chunk, _parse_buffer.
    destruct (parse_loop _ _ _) as [[[sh1 b1]|e]|] eqn:P;
      try discriminate.
    intros H. destruct (IH _ _ _ _ H) as (I1 & I2).
    destruct (parse_loop_post _ _ _ _ _ P) as (ps & k & S1 & _).
    destruct (heard_fields ps (add_bytes_received (len data) sh))
      as (_ & _ & _ & _ & H5 & _ & H7 & H8).
    rewrite <- S1 in H5, H7, H8.
    rewrite I1, I2, H5, H7, H8, len_app, packets_of_app, len_app,
      packets_of_received.
    cbn [add_bytes_received bytes_received Serial.packets_received emitted].
    split; lia.
Qed.

Lemma serialized_stream (h : ProtocolHandler) (ps : list Packet)
      (fs : list (list byte)) :
  Forall2 (fun p f => serialize_packet h p = Ret f) ps fs ->
  Forall (fun p => encodable p = true) ps /\ List.concat fs = stream ps.
Proof.
  induction 1 as [|p f ps fs H _ IH].
  - split; [constructor|reflexivity].
  - rewrite serialize_packet_eq in H.
    destruct (encodable p) eqn:E; [|discriminate]. injection H as <-.
    destruct IH as (I1 & I2). split; [constructor; assumption|].
    cbn [List.concat]. rewrite I2. reflexivity.
Qed.

Lemma last_status_snoc (tr : list Serial.signal) (sg : Serial.signal)
      (d : bool) :
  last_status (tr ++ [sg]) d
  = match sg with
    | connection_status_changed up => up
    | _ => last_status tr d
    end.
Proof.
  revert d. induction tr as [|x tr IH]; intros d.
  - destruct sg; reflexivity.
  - destruct x; cbn [app last_status]; apply IH.
Qed.

End LinkFacts.

(* ================================================================== *)
(** * More properties of the reassembler and the connection *)

Import Link Port LinkFacts.

(** X7: [_parse_buffer] returns on every buffer.  What it leaves is a suffix
    of the buffer that is too short for a frame or the start of a frame
    not all there; every packet it signals is what [deserialize_packet]
    makes of a slice of the buffer; [packets_received] grows by the
    number of packets signalled, and nothing else of the handler
    changes. *)
Theorem parse_buffer_postcondition (sh : SerialHandler) (buffer : list byte) :
  exists sh' buffer' ps k,
    _parse_buffer sh buffer = Some (Ret (sh', buffer'))
    /\ buffer' = skipn k buffer
    /\ at_rest buffer'
    /\ Forall (decoded_from (protocol sh) buffer) ps
    /\ sh' = heard ps sh
    /\ emitted sh' = emitted sh ++ map packet_received ps
    /\ Serial.packets_received sh' = Serial.packets_received sh + len ps
    /\ get_statistics sh'
       = mkStatistics (bytes_sent sh) (bytes_received sh)
           (Serial.packets_sent sh) (Serial.packets_received sh + len ps)
           (is_connected sh)
    /\ protocol sh' = protocol sh.
Proof.
  unfold _parse_buffer.
  destruct (parse_loop_total (List.length buffer) sh buffer (le_n _))
    as (sh' & buffer' & P).
  destruct (parse_loop_post _ _ _ _ _ P) as (ps & k & S1 & K & R & F).
  destruct (heard_fields ps sh) as (H1 & H2 & H3 & H4 & H5 & H6 & H7 & H8).
  exists sh', buffer', ps, k. rewrite P. unfold get_statistics. subst sh'.
  rewrite H1, H2, H4, H5, H6, H7, H8. repeat split; assumption.
Qed.

(** X8: A series of frames from [serialize_packet], after noise that holds no
    magic byte, yields its packets in order, one [packet_received] each,
    however the port cuts the bytes into chunks; [bytes_received] grows
    by the number of bytes read and [packets_received] by the number of
    frames. *)
Theorem receive_frames_any_chunking (sh : SerialHandler)
        (h : ProtocolHandler) (ps : list Packet) (fs : list (list byte))
        (garbage : list byte) (chunks : list (list byte)) :
  Forall2 (fun p f => serialize_packet h p = Ret f) ps fs ->
  find MAGIC_BYTE garbage = None ->
  List.concat chunks = garbage ++ List.concat fs ->
  exists sh' buffer',
    _receive_loop sh chunks = Some (Ret (sh', buffer'))
    /\ packets_of (emitted sh') = packets_of (emitted sh) ++ map decoded ps
    /\ Serial.packets_received sh' = Serial.packets_received sh + len ps
    /\ bytes_received sh'
       = bytes_received sh + len garbage + len (List.concat fs).
Proof.
  intros HS Hg E. destruct (serialized_stream _ _ _ HS) as (He & Hst).
  rewrite Hst in E.
  destruct (receive_chunks_frames chunks garbage ps sh [] Hg He)
    as (sh' & b' & R1 & R2).
  - exact E.
  - destruct ps as [|p ps']; cbn [waiting]; [exact I|].
    change (len (@nil byte)) with 0.
    pose proof (len_nonneg garbage). pose proof (frame_min_length p).
    unfold HEADER_SIZE, FOOTER_SIZE, calcsize_BBHI in *. lia.
  - exists sh', b'. unfold _receive_loop.
    destruct (receive_chunks_counts _ _ _ _ _ R1) as (C1 & C2).
    rewrite R2, len_app in C2. unfold len in C2 at 2.
    rewrite length_map in C2. fold (len ps) in C2.
    rewrite C1, E, len_app, Hst.
    repeat split; [exact R1|exact R2|lia|lia].
Qed.

Lemma receive_frames_any_chunking_witness :
  exists sh' buffer',
    _receive_loop Serial.init
      [[x00; xaa; x01; x00; x00; x00; x00];
       [x00; x00; x00; x00; x00; x00; x28; x9a; x45; xd6]]
    = Some (Ret (sh', buffer'))
    /\ Serial.packets_received sh' = 1 /\ bytes_received sh' = 17.
Proof.
  destruct (receive_frames_any_chunking Serial.init Protocol.init
              [mkPacket DATA 0 0 []]
              [[xaa; x01; x00; x00; x00; x00; x00; x00; x00; x00; x00; x00;
                x28; x9a; x45; xd6]]
              [x00]
              [[x00; xaa; x01; x00; x00; x00; x00];
               [x00; x00; x00; x00; x00; x00; x28; x9a; x45; xd6]])
    as (sh' & b' & R1 & _ & R3 & R4).
  - constructor; [vm_compute; reflexivity|constructor].
  - reflexivity.
  - reflexivity.
  - exists sh', b'. split; [exact R1|]. split; [exact R3|exact R4].
Defined.

(** X9: While a frame is not all there, [_parse_buffer] signals nothing and
    keeps every byte of it. *)
Theorem incomplete_frame_kept (sh : SerialHandler) (h : ProtocolHandler)
        (p : Packet) (f l R : list byte) :
  serialize_packet h p = Ret f ->
  f = l ++ R -> R <> [] ->
  _parse_buffer sh l = Some (Ret (sh, l)).
Proof.
  rewrite serialize_packet_eq.
  destruct (encodable p) eqn:He; [|discriminate].
  intros E. injection E as <-. intros Hf HR.
  unfold _parse_buffer.
  destruct (Z.ltb_spec (len l) (HEADER_SIZE + FOOTER_SIZE)) as [L|L].
  { apply parse_loop_short. exact L. }
  assert (Hl : l <> []).
  { intros ->. change (len (@nil byte)) with 0 in L.
    unfold HEADER_SIZE, FOOTER_SIZE, calcsize_BBHI in L. lia. }
  destruct l as [|b l']; [contradiction|].
  set (l := b :: l') in *.
  change (List.length l) with (S (List.length l')).
  cbn [parse_loop].
  replace (len l <? HEADER_SIZE + FOOTER_SIZE) with false
    by (symmetry; apply Z.ltb_ge; exact L).
  rewrite (iteration_aligned sh l R [] p); [|rewrite app_nil_r; congruence
                                            |exact Hl|exact He].
  replace (len l <? len (frame p)) with true; [reflexivity|].
  symmetry. apply Z.ltb_lt. rewrite Hf, len_app.
  assert (0 < len R); [|lia].
  destruct R; [contradiction|]. unfold len. cbn [List.length]. lia.
Qed.

Lemma incomplete_frame_kept_witness :
  _parse_buffer Serial.init
    [xaa; x01; x00; x00; x00; x00; x00; x00; x00; x00; x00; x00; x28; x9a;
     x45]
  = Some (Ret (Serial.init,
               [xaa; x01; x00; x00; x00; x00; x00; x00; x00; x00; x00; x00;
                x28; x9a; x45])).
Proof.
  apply (incomplete_frame_kept Serial.init Protocol.init
           (mkPacket DATA 0 0 [])
           [xaa; x01; x00; x00; x00; x00; x00; x00; x00; x00; x00; x00;
            x28; x9a; x45; xd6] _ [xd6]).
  - vm_compute. reflexivity.
  - reflexivity.
  - discriminate.
Defined.

Ltac send_failure C S :=
  cbn [fst snd Serial.emit bytes_sent bytes_received Serial.packets_sent
       Serial.packets_received is_connected serial_connection protocol];
  rewrite ?C, ?S;
  repeat match goal with
         | |- _ /\ _ => split
         | |- _ <-> _ => split
         | |- forall _, _ => intro
         | H : _ /\ _ |- _ => destruct H
         | H : exists _, _ |- _ => destruct H
         | H : Ret _ = Ret _ |- _ => injection H as H; subst
         end;
  try discriminate; try congruence; try reflexivity.

(** X10: [send_packet] returns [True] exactly when the handler is connected,
    the packet is encoded and the port takes the frame; then [bytes_sent]
    grows by what the port reports written, [packets_sent] by one, and no
    signal is emitted.  In every other case both counters are as before.
    The connection, the codec and the receive counters are never
    touched. *)
Theorem send_packet_accounting (sh : SerialHandler)
        (port : list byte -> outcome Z) (p : Packet) :
  let r := send_packet sh port p in
  (fst r = Ret true <->
   is_connected sh = true /\ serial_connection sh = true
   /\ exists data n,
        serialize_packet (protocol sh) p = Ret data /\ port data = Ret n)
  /\ (forall data n,
         is_connected sh = true -> serial_connection sh = true ->
         serialize_packet (protocol sh) p = Ret data -> port data = Ret n ->
         r = (Ret true, add_sent n sh)
         /\ get_statistics (snd r)
            = mkStatistics (bytes_sent sh + n) (bytes_received sh)
                (Serial.packets_sent sh + 1) (Serial.packets_received sh)
                true)
  /\ (fst r <> Ret true -> get_statistics (snd r) = get_statistics sh)
  /\ protocol (snd r) = protocol sh
  /\ is_connected (snd r) = is_connected sh
  /\ serial_connection (snd r) = serial_connection sh.
Proof.
  cbv zeta. unfold send_packet, get_statistics.
  destruct (is_connected sh) eqn:C; cbn [negb orb].
  2:{ cbn [fst snd]. rewrite C. repeat split; try discriminate.
      intros (H & _). discriminate. }
  destruct (serial_connection sh) eqn:S; cbn [negb].
  2:{ cbn [fst snd]. rewrite C, S. repeat split; try discriminate.
      intros (_ & H & _). discriminate. }
  destruct (serialize_packet (protocol sh) p) as [data|e] eqn:E.
  - destruct (port data) as [n|e] eqn:W.
    + cbn [fst snd add_sent bytes_sent bytes_received Serial.packets_sent
           Serial.packets_received is_connected serial_connection protocol].
      rewrite C, S. split; [|split; [|split]].
      * split; [|reflexivity]. intros _.
        repeat split. exists data, n. split; [reflexivity|exact W].
      * intros d0 n0 _ _ H1 H2. injection H1 as <-.
        rewrite W in H2. injection H2 as <-. split; reflexivity.
      * intros H. contradiction H. reflexivity.
      * repeat split.
    + destruct e; send_failure C S.
  - destruct e; send_failure C S.
Qed.

Lemma send_packet_accounting_witness :
  send_packet (mkSerialHandler Protocol.init true true 0 0 0 0 [])
    (fun _ => Ret 9) (mkPacket DATA 0 0 [])
  = (Ret true, mkSerialHandler Protocol.init true true 9 0 1 0 []).
Proof.
  destruct (send_packet_accounting
              (mkSerialHandler Protocol.init true true 0 0 0 0 [])
              (fun _ => Ret 9) (mkPacket DATA 0 0 [])) as (_ & H & _).
  exact (proj1 (H [xaa; x01; x00; x00; x00; x00; x00; x00; x00; x00; x00;
                   x00; x28; x9a; x45; xd6] 9 eq_refl eq_refl eq_refl
                  eq_refl)).
Defined.

Lemma last_status_app (a b : list Serial.signal) (d : bool) :
  last_status (a ++ b) d = last_status b (last_status a d).
Proof.
  revert d. induction a as [|x a IH]; intros d; [reflexivity|].
  destruct x; cbn [app last_status]; apply IH.
Qed.

Lemma last_status_packets (ps : list Packet) (d : bool) :
  last_status (map packet_received ps) d = d.
Proof. induction ps as [|p ps IH]; [reflexivity|exact IH]. Qed.

Lemma apply_keeps (s : SerialHandler) (o : op) :
  is_connected s = serial_connection s ->
  last_status (emitted s) false = is_connected s ->
  is_connected (apply s o) = serial_connection (apply s o)
  /\ last_status (emitted (apply s o)) false = is_connected (apply s o)
  /\ protocol (apply s o) = protocol s
  /\ (is_reset o = false ->
      Serial.packets_received (apply s o)
      - len (packets_of (emitted (apply s o)))
      = Serial.packets_received s - len (packets_of (emitted s))).
Proof.
  intros H1 H2. destruct o as [opened| |port packet|buffer|]; cbn [apply].
  - unfold connect, disconnect, set_connection, Serial.emit.
    destruct (is_connected s) eqn:C; cbn [negb];
      destruct opened as [u|[]];
      cbn [snd is_connected serial_connection emitted protocol
           Serial.packets_received];
      rewrite ?last_status_app, ?packets_of_app, ?app_nil_r, ?C;
      cbn [last_status packets_of app]; rewrite ?app_nil_r;
      repeat split; try assumption; try reflexivity; try congruence.
  - unfold disconnect, set_connection, Serial.emit.
    destruct (is_connected s) eqn:C; cbn [negb];
      cbn [snd is_connected serial_connection emitted protocol
           Serial.packets_received];
      rewrite ?last_status_app, ?packets_of_app, ?app_nil_r, ?C;
      cbn [last_status packets_of app]; rewrite ?app_nil_r;
      repeat split; try assumption; try reflexivity; try congruence.
  - unfold send_packet.
    destruct (negb (is_connected s) || negb (serial_connection s));
      [cbn [snd]; repeat split; assumption|].
    destruct (serialize_packet (protocol s) packet) as [data|[]];
      [destruct (port data) as [n|[]]|..];
      cbn [snd add_sent Serial.emit is_connected serial_connection emitted
           protocol Serial.packets_received];
      rewrite ?last_status_app, ?packets_of_app;
      cbn [last_status packets_of app]; rewrite ?app_nil_r;
      repeat split; assumption.
  - unfold _parse_buffer.
    destruct (parse_loop_total (List.length buffer) s buffer (le_n _))
      as (s' & b' & P).
    rewrite P. destruct (parse_loop_post _ _ _ _ _ P) as (ps & k & S1 & _).
    destruct (heard_fields ps s) as (F1 & F2 & F3 & _ & _ & _ & F7 & F8).
    subst s'. rewrite F1, F2, F3, F7, F8, last_status_app,
      last_status_packets, packets_of_app, len_app, packets_of_received.
    repeat split; try assumption. lia.
  - unfold reset_statistics.
    cbn [is_connected serial_connection emitted protocol is_reset].
    repeat split; try assumption. discriminate.
Qed.

(** X11: Whatever calls are made on a handler from its creation on (connect,
    disconnect, send, parse, reset the statistics): [is_connected] is set
    exactly when a port is held, so the two tests of [send_packet] agree;
    the last [connection_status_changed] the listeners heard is the
    value of [is_connected]; no call moves the codec's counter; and
    while the statistics are not reset, [packets_received] is the number
    of [packet_received] signals emitted. *)
Theorem link_invariants (ops : list op) :
  let s := after Serial.init ops in
  is_connected s = serial_connection s
  /\ last_status (emitted s) false = is_connected s
  /\ protocol s = Protocol.init
  /\ (existsb is_reset ops = false ->
      Serial.packets_received s = len (packets_of (emitted s))).
Proof.
  cbv zeta.
  assert (G : forall s0,
             is_connected s0 = serial_connection s0 ->
             last_status (emitted s0) false = is_connected s0 ->
             is_connected (after s0 ops) = serial_connection (after s0 ops)
             /\ last_status (emitted (after s0 ops)) false
                = is_connected (after s0 ops)
             /\ protocol (after s0 ops) = protocol s0
             /\ (existsb is_reset ops = false ->
                 Serial.packets_received (after s0 ops)
                 - len (packets_of (emitted (after s0 ops)))
                 = Serial.packets_received s0
                   - len (packets_of (emitted s0)))).
  { induction ops as [|o ops IH]; intros s0 H1 H2.
    - cbn [after fold_left]. repeat split; assumption.
    - change (after s0 (o :: ops)) with (after (apply s0 o) ops).
      destruct (apply_keeps s0 o H1 H2) as (A1 & A2 & A3 & A4).
      destruct (IH _ A1 A2) as (I1 & I2 & I3 & I4).
      rewrite I3, A3. repeat split; try assumption.
      cbn [existsb]. intros H. apply orb_false_iff in H. destruct H as [Ho Hr].
      rewrite (I4 Hr). apply A4, Ho. }
  destruct (G Serial.init eq_refl eq_refl) as (G1 & G2 & G3 & G4).
  repeat split; try assumption.
  intros H. specialize (G4 H). cbn in G4. lia.
Qed.

Lemma link_invariants_witness :
  let s :=
    after Serial.init
      [Connect (Ret tt);
       Parse [xaa; x01; x00; x00; x00; x00; x00; x00; x00; x00; x00; x00;
              x28; x9a; x45; xd6];
       Disconnect] in
  Serial.packets_received s = len (packets_of (emitted s)).
Proof.
  cbv zeta.
  match goal with
  | |- context [after Serial.init ?ops] =>
      destruct (link_invariants ops) as (_ & _ & _ & H)
  end.
  apply H. reflexivity.
Defined.


(* ================================================================== *)
(** * Facts about the calls made while a test runs *)

Module SessionFacts.
Import Drive Accounting.

Lemma same_session_refl (e : TestEngine) : same_session e e.
Proof. unfold same_session. repeat split. Qed.

Lemma same_session_trans (a b c : TestEngine) :
  same_session a b -> same_session b c -> same_session a c.
Proof. unfold same_session. intuition congruence. Qed.

Lemma same_session_handler (e : TestEngine) (sh : SerialHandler) :
  same_session e (set_serial_handler sh e).
Proof. unfold same_session. repeat split. Qed.

Lemma len_set_absent {V} (k : Z) (v : V) (d : Dict.t V) :
  get k d = None -> len (Dict.set k v d) = len d + 1.
Proof.
  unfold len. induction d as [|[k' v'] d IH]; cbn [get Dict.set List.length].
  - intros _. lia.
  - destruct (k' =? k); [discriminate|]. intros H. specialize (IH H).
    cbn [List.length]. lia.
Qed.

Lemma len_remove_present {V} (k : Z) (d : Dict.t V) :
  get k d <> None -> len (Dict.remove k d) = len d - 1.
Proof.
  unfold len. induction d as [|[k' v'] d IH]; cbn [get Dict.remove List.length].
  - intros H. contradiction.
  - destruct (k' =? k); [intros _; lia|]. intros H. specialize (IH H).
    cbn [List.length]. pose proof (get_In_keys k d) as G.
    assert (0 < List.length d)%nat; [|lia].
    destruct d; [contradiction|cbn; lia].
Qed.

Lemma send_heartbeat_cases (e : TestEngine) (port : list byte -> outcome Z)
      (now : Q) :
  exists sh,
    protocol sh = mkProtocolHandler (counter e + 1)
    /\ snd (send_heartbeat e port now) = set_serial_handler sh e.
Proof.
  unfold send_heartbeat, create_heartbeat_packet, create_packet.
  match goal with
  | |- context [send_packet ?s ?q ?p] =>
      pose proof (send_packet_protocol s q p) as Hp;
      destruct (send_packet s q p) as [[b|ex] sh]
  end; exists sh; (split; [exact Hp|reflexivity]).
Qed.

Lemma transmit_data_cases (e : TestEngine) (port : list byte -> outcome Z)
      (create_now t : Q) :
  let r := transmit_data e port create_now t in
  exists sh,
    protocol sh = mkProtocolHandler (counter e + 1)
    /\ (snd r = set_serial_handler sh e
        \/ (fst r = Ret tt
            /\ snd r
               = set_expected_sequences (expected_sequences e ++ [counter e])
                   (set_pending_acks
                      (Dict.set (counter e) t (pending_acks e))
                      (set_metrics
                         (add_bytes_transmitted
                            (len (filler (packet_size e)))
                            (add_packets_sent 1 (metrics e)))
                         (set_serial_handler sh e))))).
Proof.
  cbv zeta. unfold transmit_data, create_data_packet, create_packet.
  match goal with
  | |- context [send_packet ?s ?q ?p] =>
      pose proof (send_packet_protocol s q p) as Hp;
      destruct (send_packet s q p) as [[[|]|ex] sh]
  end; exists sh; (split; [exact Hp|]).
  - right. split; reflexivity.
  - left. reflexivity.
  - left. reflexivity.
Qed.

Lemma get_acked_sequence_returns (h : ProtocolHandler) (p : Packet) :
  exists v, get_acked_sequence h p = Ret v.
Proof.
  unfold get_acked_sequence.
  destruct (negb (PacketType_eqb (packet_type p) ACK)
            || (len (payload p) <? 4)); [eexists; reflexivity|].
  unfold unpack_I.
  destruct (slice 0 4 (payload p)) as [|a [|b [|c [|d [|x l]]]]];
    eexists; reflexivity.
Qed.

Lemma ack_cases (e : TestEngine) (p : Packet) (now : Q) :
  let r := _handle_ack_packet_transmitter e p now in
  r = (Ret tt, e)
  \/ exists k t0,
       get_acked_sequence (protocol (serial_handler e)) p = Ret (Some k)
       /\ get k (pending_acks e) = Some t0
       /\ r = (Ret tt,
               set_metrics
                 (add_packets_received 1
                    (append_latency (now - t0) (metrics e)))
                 (set_pending_acks (Dict.remove k (pending_acks e)) e)).
Proof.
  cbv zeta. unfold _handle_ack_packet_transmitter.
  destruct (get_acked_sequence_returns (protocol (serial_handler e)) p)
    as (v & ->).
  destruct v as [k|]; [|left; reflexivity].
  destruct (get k (pending_acks e)) as [t0|] eqn:G; [|left; reflexivity].
  right. exists k, t0. split; [reflexivity|]. split; [exact G|].
  cbn [set_metrics pending_acks]. unfold Dict.del, contains. rewrite G.
  reflexivity.
Qed.

Lemma acknowledge_cases (e : TestEngine) (port : list byte -> outcome Z)
      (ack_now : Q) (p : Packet) (t : Q) :
  let r := acknowledge e port ack_now p t in
  exists sh,
    counter e <= sequence_counter (protocol sh)
    /\ (snd r = set_serial_handler sh e
        \/ (gt (t - timestamp p) 0 = true
            /\ snd r
               = set_metrics (append_latency (t - timestamp p) (metrics e))
                   (set_serial_handler sh e))).
Proof.
  cbv zeta. unfold acknowledge.
  destruct (create_ack_packet _ _ _) as [[a h]|ex] eqn:C.
  2:{ exists (serial_handler e). split; [unfold counter; lia|].
      left. destruct e; reflexivity. }
  assert (Hh : sequence_counter h = counter e + 1).
  { unfold create_ack_packet, create_packet in C.
    destruct (pack_I (sequence_id p)); [|discriminate].
    cbn [bind] in C. injection C as _ <-. reflexivity. }
  match goal with
  | |- context [send_packet ?s ?q ?x] =>
      pose proof (send_packet_protocol s q x) as Hp;
      destruct (send_packet s q x) as [[b|ex] sh]
  end; exists sh; cbn [snd set_protocol protocol serial_handler
                        set_serial_handler] in Hp;
    (split; [rewrite Hp, Hh; lia|]).
  - destruct (gt (t - timestamp p) 0) eqn:G.
    + right. split; reflexivity.
    + left. reflexivity.
  - left. reflexivity.
Qed.

Lemma range_empty (a b : Z) : b <= a -> range a b = [].
Proof.
  intros H. unfold range. replace (Z.to_nat (b - a)) with 0%nat by lia.
  reflexivity.
Qed.

Lemma track_data_explicit (e : TestEngine) (p : Packet) :
  track_data e p
  = mkTestEngine (serial_handler e) (mode e) (packet_size e)
      (transmission_rate e) (test_duration e) (heartbeat_interval e)
      (is_running e) (is_paused e) (test_thread e) (stop_event e)
      (pause_event e)
      (mkTestMetrics (start_time (metrics e)) (end_time (metrics e))
         (packets_sent (metrics e)) (packets_received (metrics e) + 1)
         (packets_lost (metrics e)
          + Z.max 0 (sequence_id p - last_sequence e - 1))
         (bytes_transmitted (metrics e) + len (payload p))
         (latency_samples (metrics e)) (bandwidth_samples (metrics e))
         (errors (metrics e)
          ++ map missing_msg (range (last_sequence e + 1) (sequence_id p))))
      (pending_acks e) (expected_sequences e)
      (set_add (sequence_id p) (received_sequences e))
      (Z.max (last_sequence e) (sequence_id p)) (signals e).
Proof.
  unfold track_data.
  destruct e as [sh m ps tr td hi ir ip tt se pe mt pa es rs ls sg].
  destruct mt as [st et sent recv lost bytes lat bw errs].
  cbv beta iota zeta delta
      [set_metrics set_received_sequences set_last_sequence
       add_packets_received add_bytes_transmitted add_packets_lost
       serial_handler mode packet_size transmission_rate test_duration
       heartbeat_interval is_running is_paused test_thread stop_event
       pause_event metrics pending_acks expected_sequences
       received_sequences last_sequence signals
       start_time end_time packets_sent packets_received packets_lost
       bytes_transmitted latency_samples bandwidth_samples errors].
  destruct (Z.ltb_spec (ls + 1) (sequence_id p)) as [L|L].
  - rewrite append_errors_spec.
    cbv beta iota zeta delta
      [start_time end_time packets_sent packets_received packets_lost
       bytes_transmitted latency_samples bandwidth_samples errors].
    do 2 f_equal. f_equal. lia.
  - rewrite range_empty by lia. rewrite app_nil_r.
    replace (Z.max 0 (sequence_id p - ls - 1)) with 0 by lia.
    rewrite Z.add_0_r. reflexivity.
Qed.

Lemma expire_frame (seqs : list Z) (e : TestEngine) :
  let e' := snd (expire seqs e) in
  same_session e e'
  /\ serial_handler e' = serial_handler e
  /\ packets_sent (metrics e') = packets_sent (metrics e)
  /\ packets_received (metrics e') = packets_received (metrics e)
  /\ latency_samples (metrics e') = latency_samples (metrics e)
  /\ bandwidth_samples (metrics e') = bandwidth_samples (metrics e).
Proof.
  cbv zeta. revert e. induction seqs as [|k seqs IH]; intros e;
    cbn [expire].
  - cbn [snd]. split; [apply same_session_refl|repeat split].
  - destruct (Dict.del k (pending_acks e)) as [d|ex].
    2:{ cbn [snd]. split; [apply same_session_refl|repeat split]. }
    match goal with
    | |- context [expire seqs ?x] =>
        destruct (IH x) as (I1 & I2 & I3 & I4 & I5 & I6)
    end.
    split; [|rewrite I2, I3, I4, I5, I6; repeat split].
    eapply same_session_trans; [|exact I1].
    unfold same_session. repeat split.
Qed.

Lemma expire_len (seqs : list Z) (e : TestEngine) :
  wf (pending_acks e) -> NoDup seqs ->
  (forall s, In s seqs -> get s (pending_acks e) <> None) ->
  len (pending_acks (snd (expire seqs e))) = len (pending_acks e) - len seqs.
Proof.
  revert e. induction seqs as [|k seqs IH]; intros e Hwf Hnd Hin;
    cbn [expire].
  - cbn [snd]. change (len (@nil Z)) with 0. lia.
  - rewrite (del_present k (pending_acks e)) by (apply Hin; left; reflexivity).
    inversion Hnd as [|? ? Hk Hnd']; subst.
    rewrite IH.
    + cbn [pending_acks set_metrics set_pending_acks].
      rewrite len_remove_present by (apply Hin; left; reflexivity).
      unfold len. cbn [List.length]. lia.
    + cbn [pending_acks set_metrics set_pending_acks].
      apply wf_remove, Hwf.
    + exact Hnd'.
    + intros s Hs. cbn [pending_acks set_metrics set_pending_acks].
      rewrite get_remove_other; [apply Hin; right; exact Hs|].
      intros ->. contradiction.
Qed.

End SessionFacts.

(* ================================================================== *)
(** * What holds throughout the drive loops *)

Module LoopFacts.
Import Drive Accounting SessionFacts.

Section Invariant.

Variable P : TestEngine -> Prop.
Variable m : TestMode.
Hypothesis P_mode : forall e, P e -> mode e = m.
Hypothesis P_heartbeat :
  forall e port now, P e -> P (snd (send_heartbeat e port now)).
Hypothesis P_transmit :
  m = TRANSMITTER ->
  forall e port create_now t,
    P e -> P (snd (transmit_data e port create_now t)).
Hypothesis P_bandwidth :
  forall e x,
    (m = RECEIVER -> gt x 0 = true) ->
    P e -> P (set_metrics (append_bandwidth x (metrics e)) e).
Hypothesis P_sweep :
  m = TRANSMITTER ->
  forall e now timeout, P e -> P (snd (_check_ack_timeouts e now timeout)).
Hypothesis P_inbound :
  forall e port ack_now p now,
    P e -> P (snd (_handle_received_packet e port ack_now p now)).

Lemma heartbeat_block_keeps (self : TestEngine) (loc : locals) (tk : tick) :
  P self -> P (snd (heartbeat_block self loc tk)).
Proof.
  intros H. unfold heartbeat_block.
  destruct (ge _ _); [|exact H].
  pose proof (P_heartbeat self (hb_port tk) (hb_now tk) H) as H'.
  destruct (send_heartbeat self (hb_port tk) (hb_now tk)) as [[u|ex] e'];
    exact H'.
Qed.

Lemma data_block_keeps (self : TestEngine) (packet_interval : Q)
      (loc : locals) (tk : tick) :
  m = TRANSMITTER -> P self ->
  P (snd (data_block self packet_interval loc tk)).
Proof.
  intros Hm H. unfold data_block.
  destruct (ge _ _); [|exact H].
  pose proof (P_transmit Hm self (data_port tk) (data_now tk) (tick_now tk) H)
    as H'.
  destruct (transmit_data self (data_port tk) (data_now tk) (tick_now tk))
    as [[u|ex] e']; exact H'.
Qed.

Lemma bandwidth_block_keeps (self : TestEngine) (positive_only : bool)
      (loc : locals) (tk : tick) :
  (m = RECEIVER -> positive_only = true) -> P self ->
  P (snd (bandwidth_block self positive_only loc tk)).
Proof.
  intros Hm H. unfold bandwidth_block.
  destruct (ge _ _); [|exact H]. cbv zeta.
  match goal with
  | |- context [gt ?x 0] => destruct (gt x 0) eqn:G
  end.
  - rewrite orb_true_r. cbn [snd]. apply P_bandwidth; [|exact H].
    intros _. exact G.
  - rewrite orb_false_r. destruct positive_only; cbn [negb snd].
    + exact H.
    + apply P_bandwidth; [|exact H]. intros Hr. apply Hm in Hr. discriminate.
Qed.

Lemma transmitter_iteration_keeps (self : TestEngine) (packet_interval : Q)
      (loc : locals) (tk : tick) :
  m = TRANSMITTER -> P self ->
  P (snd (transmitter_iteration self packet_interval loc tk)).
Proof.
  intros Hm H. unfold transmitter_iteration.
  destruct (duration_exceeded self (tick_now tk)); [exact H|].
  pose proof (heartbeat_block_keeps self loc tk H) as H1.
  destruct (heartbeat_block self loc tk) as [[[u|ex] loc1] e1];
    cbn [snd] in H1; [|exact H1].
  pose proof (data_block_keeps e1 packet_interval loc1 tk Hm H1) as H2.
  destruct (data_block e1 packet_interval loc1 tk) as [[[u2|ex] loc2] e2];
    cbn [snd] in H2; [|exact H2].
  pose proof (bandwidth_block_keeps e2 false loc2 tk) as H3.
  destruct (bandwidth_block e2 false loc2 tk) as [loc3 e3].
  cbn [snd] in H3.
  assert (H3' : P e3) by (apply H3; [congruence|exact H2]).
  pose proof (P_sweep Hm e3 (tick_now tk) default_timeout H3') as H4.
  destruct (_check_ack_timeouts e3 (tick_now tk) default_timeout)
    as [[u4|ex] e4]; exact H4.
Qed.

Lemma receiver_iteration_keeps (self : TestEngine) (loc : locals)
      (tk : tick) :
  P self -> P (snd (receiver_iteration self loc tk)).
Proof.
  intros H. unfold receiver_iteration.
  destruct (duration_exceeded self (tick_now tk)); [exact H|].
  pose proof (heartbeat_block_keeps self loc tk H) as H1.
  destruct (heartbeat_block self loc tk) as [[[u|ex] loc1] e1];
    cbn [snd] in H1; [|exact H1].
  pose proof (bandwidth_block_keeps e1 true loc1 tk (fun _ => eq_refl) H1)
    as H3.
  destruct (bandwidth_block e1 true loc1 tk) as [loc3 e3]. exact H3.
Qed.

Lemma loop_iteration_keeps (self : TestEngine) (packet_interval : Q)
      (loc : locals) (tk : tick) :
  P self -> P (snd (loop_iteration self packet_interval loc tk)).
Proof.
  intros H. unfold loop_iteration. pose proof (P_mode self H) as Hm.
  destruct (mode self).
  - apply transmitter_iteration_keeps; [congruence|exact H].
  - apply receiver_iteration_keeps, H.
Qed.

Lemma act_keeps (st : locals * TestEngine) (a : activity) :
  P (snd st) -> P (snd (act st a)).
Proof.
  destruct st as [loc self]. cbn [snd]. intros H. destruct a; cbn [act].
  - pose proof (loop_iteration_keeps self packet_interval loc tk H) as H'.
    destruct (loop_iteration self packet_interval loc tk) as [[r l] e].
    exact H'.
  - cbn [snd]. apply P_inbound, H.
Qed.

Lemma activities_keeps (l : list activity) (st : locals * TestEngine) :
  P (snd st) -> P (snd (activities st l)).
Proof.
  revert st. induction l as [|a l IH]; intros st H; [exact H|].
  cbn [activities fold_left]. apply IH, act_keeps, H.
Qed.

Lemma while_keeps
      (iteration : TestEngine -> locals -> tick
                   -> outcome control * locals * TestEngine) :
  (forall self loc tk, P self -> P (snd (iteration self loc tk))) ->
  forall ticks self loc,
    P self -> P (snd (while_not_stopped iteration self loc ticks)).
Proof.
  intros Hit. induction ticks as [|tk ticks IH]; intros self loc H;
    cbn [while_not_stopped].
  - destruct (stop_event self); exact H.
  - destruct (stop_event self); [exact H|].
    pose proof (Hit self loc tk H) as H'.
    destruct (iteration self loc tk) as [[[[|]|ex] l] e]; cbn [snd] in *;
      try exact H'.
    apply IH, H'.
Qed.

End Invariant.

Lemma gt_pos (x : Q) : gt x 0 = true -> (0 < x)%Q.
Proof.
  unfold gt. intros H. apply negb_true_iff in H.
  apply Qnot_le_lt. intros L. apply Qle_bool_iff in L. congruence.
Qed.

(** ** Nothing of the session changes *)

Lemma heartbeat_same_session (e : TestEngine)
      (port : list byte -> outcome Z) (now : Q) :
  same_session e (snd (send_heartbeat e port now)).
Proof.
  destruct (send_heartbeat_cases e port now) as (sh & _ & ->).
  apply same_session_handler.
Qed.

Lemma transmit_same_session (e : TestEngine)
      (port : list byte -> outcome Z) (create_now t : Q) :
  same_session e (snd (transmit_data e port create_now t)).
Proof.
  destruct (transmit_data_cases e port create_now t)
    as (sh & _ & [-> | [_ ->]]); unfold same_session; repeat split.
Qed.

Lemma sweep_same_session (e : TestEngine) (now timeout : Q) :
  same_session e (snd (_check_ack_timeouts e now timeout)).
Proof. unfold _check_ack_timeouts. apply expire_frame. Qed.

Lemma data_same_session (e : TestEngine) (port : list byte -> outcome Z)
      (ack_now : Q) (p : Packet) (t : Q) :
  same_session e (snd (_handle_data_packet_receiver e port ack_now p t)).
Proof.
  rewrite handle_data_split.
  destruct (acknowledge_cases (track_data e p) port ack_now p t)
    as (sh & _ & [-> | [_ ->]]); rewrite track_data_explicit;
    unfold same_session; repeat split.
Qed.

Lemma inbound_same_session (e : TestEngine) (port : list byte -> outcome Z)
      (ack_now : Q) (p : Packet) (now : Q) :
  same_session e (snd (_handle_received_packet e port ack_now p now)).
Proof.
  unfold _handle_received_packet.
  destruct (is_running e); cbn [negb]; [|apply same_session_refl].
  destruct (packet_type p), (mode e);
    try apply same_session_refl;
    try apply data_same_session;
    try (unfold same_session; repeat split; fail).
  destruct (ack_cases e p now) as [-> | (k & t0 & _ & _ & ->)];
    [apply same_session_refl|unfold same_session; repeat split].
Qed.

Lemma session_kept (e0 : TestEngine) :
  let P := fun e => same_session e0 e in
  (forall e, P e -> mode e = mode e0)
  /\ (forall e port now, P e -> P (snd (send_heartbeat e port now)))
  /\ (mode e0 = TRANSMITTER ->
      forall e port create_now t,
        P e -> P (snd (transmit_data e port create_now t)))
  /\ (forall e x,
         (mode e0 = RECEIVER -> gt x 0 = true) ->
         P e -> P (set_metrics (append_bandwidth x (metrics e)) e))
  /\ (mode e0 = TRANSMITTER ->
      forall e now timeout,
        P e -> P (snd (_check_ack_timeouts e now timeout)))
  /\ (forall e port ack_now p now,
         P e -> P (snd (_handle_received_packet e port ack_now p now))).
Proof.
  cbv zeta. split; [intros e H; apply H|].
  split; [intros e port now H;
          eapply same_session_trans; [exact H|apply heartbeat_same_session]|].
  split; [intros _ e port cn t H;
          eapply same_session_trans; [exact H|apply transmit_same_session]|].
  split; [intros e x _ H; eapply same_session_trans; [exact H|];
          unfold same_session; repeat split|].
  split; [intros _ e now timeout H;
          eapply same_session_trans; [exact H|apply sweep_same_session]|].
  intros e port ack_now p now H.
  eapply same_session_trans; [exact H|apply inbound_same_session].
Qed.

Lemma loop_iteration_same_session (self : TestEngine) (packet_interval : Q)
      (loc : locals) (tk : tick) :
  same_session self (snd (loop_iteration self packet_interval loc tk)).
Proof.
  destruct (session_kept self) as (K1 & K2 & K3 & K4 & K5 & K6).
  apply (loop_iteration_keeps (fun e => same_session self e) (mode self)
           K1 K2 K3 K4 K5).
  apply same_session_refl.
Qed.

Lemma transmitter_iteration_same_session (self : TestEngine)
      (packet_interval : Q) (loc : locals) (tk : tick) :
  mode self = TRANSMITTER ->
  same_session self (snd (transmitter_iteration self packet_interval loc tk)).
Proof.
  intros Hm. pose proof (loop_iteration_same_session self packet_interval
                           loc tk) as H.
  unfold loop_iteration in H. rewrite Hm in H. exact H.
Qed.

Lemma receiver_iteration_same_session (self : TestEngine)
      (loc : locals) (tk : tick) :
  mode self = RECEIVER ->
  same_session self (snd (receiver_iteration self loc tk)).
Proof.
  intros Hm. pose proof (loop_iteration_same_session self 0 loc tk) as H.
  unfold loop_iteration in H. rewrite Hm in H. exact H.
Qed.

End LoopFacts.

(* ================================================================== *)
(** * Properties of the drive loops *)

Import Drive Accounting SessionFacts LoopFacts.

Lemma duration_exceeded_same (e e' : TestEngine) (t : Q) :
  same_session e e' -> duration_exceeded e' t = duration_exceeded e t.
Proof.
  intros (_ & _ & _ & H4 & _ & _ & _ & _ & _ & H10 & _).
  unfold duration_exceeded. rewrite H4, H10. reflexivity.
Qed.

Lemma while_ends
      (iteration : TestEngine -> locals -> tick
                   -> outcome control * locals * TestEngine)
      (e0 : TestEngine) :
  (forall self loc tk,
      same_session e0 self ->
      same_session e0 (snd (iteration self loc tk))) ->
  (forall self loc tk,
      duration_exceeded self (tick_now tk) = true ->
      iteration self loc tk = (Ret Break, loc, self)) ->
  forall ticks self loc,
    same_session e0 self ->
    (exists tk, In tk ticks /\ duration_exceeded e0 (tick_now tk) = true) ->
    fst (fst (while_not_stopped iteration self loc ticks)) <> Unfinished.
Proof.
  intros Hs Hb. induction ticks as [|tk ticks IH]; intros self loc H Hex;
    cbn [while_not_stopped].
  - destruct Hex as (tk & [] & _).
  - destruct (stop_event self); [discriminate|].
    pose proof (Hs self loc tk H) as H'.
    destruct (iteration self loc tk) as [[[[|]|ex] l] e] eqn:E;
      cbn [fst snd] in *; try discriminate.
    apply IH; [exact H'|].
    destruct Hex as (tk0 & [<- | Hin] & Hd).
    + rewrite <- (duration_exceeded_same e0 self _ H) in Hd.
      rewrite (Hb self loc tk Hd) in E. discriminate.
    + exists tk0. split; assumption.
Qed.

Lemma same_session_start (self : TestEngine) (t : Q) (e : TestEngine) :
  same_session (set_metrics (set_start_time t (metrics self)) self) e ->
  mode e = mode self /\ packet_size e = packet_size self
  /\ transmission_rate e = transmission_rate self
  /\ test_duration e = test_duration self
  /\ is_paused e = is_paused self /\ stop_event e = stop_event self
  /\ start_time (metrics e) = t /\ signals e = signals self.
Proof.
  intros (H1 & H2 & H3 & H4 & _ & _ & H7 & H8 & _ & H10 & _ & H12).
  repeat split; assumption.
Qed.

(** X13: Once a tick of the drive loop reads a clock at which the configured
    duration has passed, [_test_loop] is over: it does not go on to
    another iteration.  When it leaves the loop it finalises: the session
    is stopped, the end time is set, [test_stopped] and "Test completed"
    are emitted after everything else, one last [metrics_updated] goes
    out, the timer's slot emits nothing any more, and a later
    [stop_test] changes nothing. *)
Theorem test_loop_stops_at_duration (self : TestEngine) (ck : clock)
        (ticks : list tick) (now : Q) :
  (exists tk,
      In tk ticks
      /\ (inject_Z (test_duration self) <= tick_now tk - start_now ck)%Q) ->
  let r := _test_loop self ck ticks in
  let self' := snd r in
  fst (fst r) <> Unfinished
  /\ (fst (fst r) = Exited ->
      snd (fst r) = [metrics_updated (metrics self')]
      /\ state_of self' = IDLE_OR_STOPPED
      /\ start_time (metrics self') = start_now ck
      /\ end_time (metrics self') = end_now ck
      /\ signals self'
         = signals self ++ [test_stopped; status_message "Test completed"]
      /\ _emit_metrics_update self' now = []
      /\ stop_test self' now = self'
      /\ (gt (end_now ck) 0 = true ->
          Metrics.test_duration (metrics self') now
          = (end_now ck - start_now ck)%Q)
      /\ mode self' = mode self
      /\ transmission_rate self' = transmission_rate self).
Proof.
  intros Hex. cbv zeta. unfold _test_loop.
  set (self1 := set_metrics (set_start_time (start_now ck) (metrics self))
                  self).
  assert (Hex1 : exists tk,
             In tk ticks /\ duration_exceeded self1 (tick_now tk) = true).
  { destruct Hex as (tk & Hin & Hle). exists tk. split; [exact Hin|].
    unfold duration_exceeded, ge. apply Qle_bool_iff. exact Hle. }
  destruct (session_kept self1) as (K1 & _).
  match goal with
  | |- context [match mode self1 with
                | TRANSMITTER => ?a
                | RECEIVER => ?b
                end] =>
      assert (L : exists r e2,
                 match mode self1 with
                 | TRANSMITTER => a
                 | RECEIVER => b
                 end = (r, e2)
                 /\ same_session self1 e2 /\ r <> Unfinished)
  end.
  { destruct (mode self1) eqn:M.
    - unfold _transmitter_loop.
      destruct (transmission_rate self1 =? 0).
      { exists (Failed ZeroDivisionError), self1.
        split; [reflexivity|].
        split; [apply same_session_refl|discriminate]. }
      match goal with
      | |- context [while_not_stopped ?it ?s ?l ?t] =>
          pose proof (while_ends it self1) as W;
          pose proof (while_keeps (fun e => same_session self1 e) it) as K;
          destruct (while_not_stopped it s l t) as [[r l2] e2] eqn:E
      end.
      exists r, e2. split; [reflexivity|].
      assert (Hit : forall e loc tk,
                 same_session self1 e ->
                 same_session self1
                   (snd (transmitter_iteration e
                           (1 / inject_Z (transmission_rate self1)) loc tk))).
      { intros e loc tk He. eapply same_session_trans; [exact He|].
        apply transmitter_iteration_same_session.
        exact (K1 e He). }
      split.
      + change e2 with (snd (r, l2, e2)). rewrite <- E.
        apply K; [exact Hit|apply same_session_refl].
      + change r with (fst (fst (r, l2, e2))). rewrite <- E.
        apply W; [exact Hit| |apply same_session_refl|exact Hex1].
        intros e loc tk Hd. unfold transmitter_iteration. rewrite Hd.
        reflexivity.
    - unfold _receiver_loop.
      match goal with
      | |- context [while_not_stopped ?it ?s ?l ?t] =>
          pose proof (while_ends it self1) as W;
          pose proof (while_keeps (fun e => same_session self1 e) it) as K;
          destruct (while_not_stopped it s l t) as [[r l2] e2] eqn:E
      end.
      exists r, e2. split; [reflexivity|].
      assert (Hit : forall e loc tk,
                 same_session self1 e ->
                 same_session self1 (snd (receiver_iteration e loc tk))).
      { intros e loc tk He. eapply same_session_trans; [exact He|].
        apply receiver_iteration_same_session.
        exact (K1 e He). }
      split.
      + change e2 with (snd (r, l2, e2)). rewrite <- E.
        apply K; [exact Hit|apply same_session_refl].
      + change r with (fst (fst (r, l2, e2))). rewrite <- E.
        apply W; [exact Hit| |apply same_session_refl|exact Hex1].
        intros e loc tk Hd. unfold receiver_iteration. rewrite Hd.
        reflexivity. }
  destruct L as (r & e2 & -> & Hs & Hr).
  destruct (same_session_start _ _ _ Hs)
    as (S1 & S2 & S3 & S4 & S5 & S6 & S7 & S8).
  destruct r as [| |ex]; cbn [fst snd]; [|contradiction|].
  2:{ split; [discriminate|intros H; discriminate]. }
  split; [discriminate|]. intros _.
  unfold state_of, _emit_metrics_update, stop_test, Metrics.test_duration.
  cbn [Engine.emit set_flags set_metrics set_end_time metrics is_running
       start_time end_time signals mode transmission_rate negb].
  rewrite S7, S8, S1, S3, <- app_assoc. cbn [app].
  repeat split. intros ->. reflexivity.
Qed.

Lemma test_loop_stops_at_duration_witness :
  fst (fst (_test_loop (Engine.init Serial.init) (mkClock 0 0 0 0 61)
              [mkTick 60 (fun _ => Ret 0) 60 (fun _ => Ret 0) 60]))
  <> Unfinished.
Proof.
  destruct (test_loop_stops_at_duration (Engine.init Serial.init)
              (mkClock 0 0 0 0 61)
              [mkTick 60 (fun _ => Ret 0) 60 (fun _ => Ret 0) 60] 0)
    as [H _]; [|exact H].
  exists (mkTick 60 (fun _ => Ret 0) 60 (fun _ => Ret 0) 60).
  split; [left; reflexivity|]. unfold Qle. simpl. lia.
Defined.

Lemma serialize_wall_clock (h : ProtocolHandler) (ty : PacketType)
      (seq : Z) (now : Q) (data : list byte) :
  (inject_Z (2 ^ 32) <= now * 1000)%Q ->
  serialize_packet h (mkPacket ty seq now data) = Raise StructError.
Proof.
  intros H. rewrite serialize_packet_eq.
  destruct (encodable (mkPacket ty seq now data)) eqn:E; [|reflexivity].
  apply encodable_true in E. destruct E as (_ & E & _).
  unfold timestamp_ms in E. cbn [timestamp] in E.
  pose proof (int_of_float_lower (2 ^ 32) (now * 1000) ltac:(lia) H). lia.
Qed.

Lemma send_packet_raises (sh : SerialHandler) (port : list byte -> outcome Z)
      (p : Packet) :
  is_connected sh = true -> serial_connection sh = true ->
  serialize_packet (protocol sh) p = Raise StructError ->
  send_packet sh port p = (Raise StructError, sh).
Proof. intros C S E. unfold send_packet. rewrite C, S, E. reflexivity. Qed.

Lemma send_heartbeat_wall (e : TestEngine) (port : list byte -> outcome Z)
      (now : Q) :
  is_connected (serial_handler e) = true ->
  serial_connection (serial_handler e) = true ->
  (inject_Z (2 ^ 32) <= now * 1000)%Q ->
  send_heartbeat e port now
  = (Raise StructError,
     set_serial_handler
       (set_protocol (mkProtocolHandler (counter e + 1)) (serial_handler e))
       e).
Proof.
  intros C S H. unfold send_heartbeat, create_heartbeat_packet, create_packet.
  rewrite send_packet_raises; [reflexivity|exact C|exact S|].
  apply serialize_wall_clock, H.
Qed.

Lemma transmit_data_wall (e : TestEngine) (port : list byte -> outcome Z)
      (now t : Q) :
  is_connected (serial_handler e) = true ->
  serial_connection (serial_handler e) = true ->
  (inject_Z (2 ^ 32) <= now * 1000)%Q ->
  transmit_data e port now t
  = (Raise StructError,
     set_serial_handler
       (set_protocol (mkProtocolHandler (counter e + 1)) (serial_handler e))
       e).
Proof.
  intros C S H. unfold transmit_data, create_data_packet, create_packet.
  rewrite send_packet_raises; [reflexivity|exact C|exact S|].
  apply serialize_wall_clock, H.
Qed.

(** X14: With a clock of 2^32 ms since the epoch or later, that is any date
    from 19 February 1970 on, the originator's loop ends in its first
    iteration that has something to send: [send_packet] lets the
    [struct.error] of [serialize_packet] through, the loop raises, and
    [_test_loop] never finalises.  The session stays as it was, running;
    nothing is counted as sent, nothing is signalled. *)
Theorem wall_clock_transmitter_dies (self : TestEngine) (ck : clock)
        (tk : tick) (ticks : list tick) :
  mode self = TRANSMITTER ->
  transmission_rate self <> 0 ->
  stop_event self = false ->
  is_connected (serial_handler self) = true ->
  serial_connection (serial_handler self) = true ->
  ge (tick_now tk - start_now ck) (inject_Z (test_duration self)) = false ->
  ge (tick_now tk) (sched_now ck) = true ->
  (inject_Z (2 ^ 32) <= hb_now tk * 1000)%Q ->
  (inject_Z (2 ^ 32) <= data_now tk * 1000)%Q ->
  let r := _test_loop self ck (tk :: ticks) in
  fst r = (Failed (Raised StructError), [])
  /\ state_of (snd r) = state_of self
  /\ metrics (snd r) = set_start_time (start_now ck) (metrics self)
  /\ pending_acks (snd r) = pending_acks self
  /\ signals (snd r) = signals self
  /\ get_statistics (serial_handler (snd r))
     = get_statistics (serial_handler self)
  /\ emitted (serial_handler (snd r)) = emitted (serial_handler self).
Proof.
  intros M Hrate Hstop C S Hdur Hdue Hhb Hdata. cbv zeta.
  unfold _test_loop.
  set (self1 := set_metrics (set_start_time (start_now ck) (metrics self))
                  self).
  change (mode self1) with (mode self). rewrite M.
  unfold _transmitter_loop.
  change (transmission_rate self1) with (transmission_rate self).
  rewrite (proj2 (Z.eqb_neq _ _) Hrate).
  cbn [while_not_stopped].
  change (stop_event self1) with (stop_event self). rewrite Hstop.
  unfold transmitter_iteration, duration_exceeded.
  change (start_time (metrics self1)) with (start_now ck).
  change (test_duration self1) with (test_duration self).
  rewrite Hdur. unfold heartbeat_block.
  destruct (ge (tick_now tk - _) (inject_Z (heartbeat_interval _))).
  - rewrite (send_heartbeat_wall self1) by assumption.
    unfold state_of. repeat split.
  - unfold data_block. cbn [next_packet_time]. rewrite Hdue.
    rewrite (transmit_data_wall self1) by assumption.
    unfold state_of. repeat split.
Qed.

Lemma wall_clock_transmitter_dies_witness :
  let self :=
    snd (start_test
           (set_serial_handler
              (mkSerialHandler Protocol.init true true 0 0 0 0 [])
              (Engine.init Serial.init))) in
  let now := 1700000000%Q in
  fst (_test_loop self (mkClock now now now now now)
         [mkTick now (fun _ => Ret 80) now (fun _ => Ret 80) now])
  = (Failed (Raised StructError), []).
Proof.
  cbv zeta.
  refine (proj1 (wall_clock_transmitter_dies _ _ _ _ _ _ _ _ _ _ _ _ _)).
  - reflexivity.
  - discriminate.
  - reflexivity.
  - reflexivity.
  - reflexivity.
  - reflexivity.
  - reflexivity.
  - unfold Qle. simpl. lia.
  - unfold Qle. simpl. lia.
Defined.

(** X15: [configure_test] takes a rate of 0 packets per second, and
    [start_test] starts the session; the originator's loop then raises
    [ZeroDivisionError] before its first iteration, so [_test_loop] never
    finalises and the session stays RUNNING with nothing sent, until
    [stop_test] ends it. *)
Theorem zero_rate_strands_test (e : TestEngine) (ps td : Z) (ck : clock)
        (ticks : list tick) (now : Q) :
  is_running e = false ->
  is_connected (serial_handler e) = true ->
  let c := configure_test e TRANSMITTER ps 0 td in
  let s := start_test (snd c) in
  let r := _test_loop (snd s) ck ticks in
  fst c = true /\ fst s = true
  /\ fst r = (Failed ZeroDivisionError, [])
  /\ state_of (snd r) = RUNNING
  /\ metrics (snd r) = set_start_time (start_now ck) empty_metrics
  /\ serial_handler (snd r) = serial_handler e
  /\ signals (snd r)
     = signals e
       ++ [test_started;
           status_message "Test started in transmitter mode"]
  /\ state_of (stop_test (snd r) now) = IDLE_OR_STOPPED.
Proof.
  intros R C. cbv zeta. unfold configure_test. rewrite R. cbn [snd fst].
  unfold start_test.
  cbn [is_running set_config serial_handler]. rewrite R, C. cbn [negb orb].
  cbn [fst snd]. unfold _test_loop.
  cbn [mode set_metrics Engine.emit set_flags _reset_metrics
       set_last_sequence set_received_sequences set_expected_sequences
       set_pending_acks set_config].
  unfold _transmitter_loop.
  cbn [transmission_rate set_metrics Engine.emit set_flags _reset_metrics
       set_last_sequence set_received_sequences set_expected_sequences
       set_pending_acks set_config Z.eqb].
  cbn [fst snd]. unfold state_of, stop_test.
  cbn [is_running is_paused negb metrics serial_handler signals
       Engine.emit set_flags set_metrics mode mode_value].
  rewrite <- app_assoc. repeat split.
Qed.

Lemma zero_rate_strands_test_witness :
  let e :=
    set_serial_handler (mkSerialHandler Protocol.init true true 0 0 0 0 [])
      (Engine.init Serial.init) in
  let r :=
    _test_loop (snd (start_test (snd (configure_test e TRANSMITTER 64 0 60))))
      (mkClock 0 0 0 0 0) [] in
  fst r = (Failed ZeroDivisionError, []) /\ state_of (snd r) = RUNNING.
Proof.
  cbv zeta.
  destruct (zero_rate_strands_test
              (set_serial_handler
                 (mkSerialHandler Protocol.init true true 0 0 0 0 [])
                 (Engine.init Serial.init))
              64 60 (mkClock 0 0 0 0 0) [] 0 eq_refl eq_refl)
    as (_ & _ & H3 & H4 & _).
  split; [exact H3|exact H4].
Defined.

(** X16: The session's state machine.  [start_test] takes an idle session
    with a connected handler to RUNNING and nothing else anywhere;
    [pause_test] takes RUNNING to PAUSED, [resume_test] PAUSED to
    RUNNING, and each is without any effect in every other state;
    [stop_test] ends a running or paused session and does nothing to an
    idle one; [configure_test] never changes the state and is accepted
    exactly when the session is idle. *)
Theorem lifecycle_transitions (e : TestEngine) (now : Q) (m : TestMode)
        (ps tr td : Z) :
  (fst (start_test e) = true <->
   state_of e = IDLE_OR_STOPPED
   /\ is_connected (serial_handler e) = true)
  /\ (fst (start_test e) = true -> state_of (snd (start_test e)) = RUNNING)
  /\ (fst (start_test e) = false -> snd (start_test e) = e)
  /\ state_of (pause_test e)
     = match state_of e with RUNNING => PAUSED | s => s end
  /\ (state_of e <> RUNNING -> pause_test e = e)
  /\ state_of (resume_test e)
     = match state_of e with PAUSED => RUNNING | s => s end
  /\ (state_of e <> PAUSED -> resume_test e = e)
  /\ state_of (stop_test e now) = IDLE_OR_STOPPED
  /\ (state_of e = IDLE_OR_STOPPED -> stop_test e now = e)
  /\ state_of (snd (configure_test e m ps tr td)) = state_of e
  /\ (fst (configure_test e m ps tr td) = true <->
      state_of e = IDLE_OR_STOPPED).
Proof.
  unfold start_test, pause_test, resume_test, stop_test, configure_test,
    state_of.
  destruct (is_running e) eqn:R, (is_paused e) eqn:Pa,
    (is_connected (serial_handler e)) eqn:C;
    cbn [negb orb andb fst snd is_running is_paused Engine.emit set_flags
         set_metrics set_config _reset_metrics set_last_sequence
         set_received_sequences set_expected_sequences set_pending_acks];
    rewrite ?R, ?Pa;
    repeat match goal with
           | |- _ /\ _ => split
           | |- _ <-> _ => split
           | |- _ -> _ => intro
           | H : _ /\ _ |- _ => destruct H
           end;
    try reflexivity; try discriminate; try congruence.
Qed.

Lemma lifecycle_transitions_witness :
  let e :=
    set_serial_handler (mkSerialHandler Protocol.init true true 0 0 0 0 [])
      (Engine.init Serial.init) in
  fst (start_test e) = true /\ state_of (snd (start_test e)) = RUNNING.
Proof.
  cbv zeta.
  destruct (lifecycle_transitions
              (set_serial_handler
                 (mkSerialHandler Protocol.init true true 0 0 0 0 [])
                 (Engine.init Serial.init)) 0 TRANSMITTER 64 10 60)
    as (H1 & H2 & _).
  assert (H : fst (start_test
                     (set_serial_handler
                        (mkSerialHandler Protocol.init true true 0 0 0 0 [])
                        (Engine.init Serial.init))) = true)
    by (apply H1; split; reflexivity).
  split; [exact H|apply H2, H].
Defined.



(** X18: An ACK for a pending sequence id is counted once: the handler takes
    the id out of the table, records the time since the packet was sent
    as a latency sample and adds one to [packets_received]; the other
    pending ids stay, nothing is counted lost; and the same ACK arriving
    again changes nothing. *)
Theorem ack_counted_once (e : TestEngine) (p : Packet) (k : Z)
        (t0 now later : Q) :
  wf (pending_acks e) ->
  get_acked_sequence (protocol (serial_handler e)) p = Ret (Some k) ->
  get k (pending_acks e) = Some t0 ->
  let r := _handle_ack_packet_transmitter e p now in
  let e1 := snd r in
  fst r = Ret tt
  /\ latency_samples (metrics e1)
     = latency_samples (metrics e) ++ [(now - t0)%Q]
  /\ packets_received (metrics e1) = packets_received (metrics e) + 1
  /\ packets_lost (metrics e1) = packets_lost (metrics e)
  /\ packets_sent (metrics e1) = packets_sent (metrics e)
  /\ get k (pending_acks e1) = None
  /\ (forall k', k' <> k ->
                 get k' (pending_acks e1) = get k' (pending_acks e))
  /\ len (pending_acks e1) = len (pending_acks e) - 1
  /\ _handle_ack_packet_transmitter e1 p later = (Ret tt, e1).
Proof.
  intros Hwf Ha Hg. cbv zeta.
  destruct (ack_cases e p now) as [E | (k1 & t1 & A1 & G1 & E)].
  { exfalso. unfold _handle_ack_packet_transmitter in E.
    rewrite Ha, Hg in E. unfold Dict.del, contains in E.
    cbn [set_metrics pending_acks] in E. rewrite Hg in E.
    injection E as E. apply (f_equal (fun x => get k (pending_acks x))) in E.
    cbn [set_metrics set_pending_acks pending_acks] in E.
    rewrite get_remove_same in E by exact Hwf. congruence. }
  rewrite Ha in A1. injection A1 as <-. rewrite Hg in G1. injection G1 as <-.
  rewrite E.
  cbn [fst snd set_metrics set_pending_acks metrics pending_acks
       add_packets_received append_latency latency_samples packets_received
       packets_lost packets_sent].
  split; [reflexivity|]. split; [reflexivity|]. split; [reflexivity|].
  split; [reflexivity|]. split; [reflexivity|].
  split; [apply get_remove_same, Hwf|].
  split; [intros k' Hk; apply get_remove_other, Hk|].
  split; [apply len_remove_present; congruence|].
  unfold _handle_ack_packet_transmitter.
  cbn [set_metrics set_pending_acks serial_handler pending_acks].
  rewrite Ha, get_remove_same by exact Hwf. reflexivity.
Qed.

Lemma ack_counted_once_witness :
  let e :=
    set_pending_acks [(0, 1%Q); (1, 4%Q)]
      (set_serial_handler
         (set_protocol (Protocol.mkProtocolHandler 2) Serial.init)
         (Engine.init Serial.init)) in
  let p := mkPacket ACK 0 0 [x00; x00; x00; x01] in
  let e1 := snd (_handle_ack_packet_transmitter e p 6) in
  packets_received (metrics e1) = 1
  /\ _handle_ack_packet_transmitter e1 p 7 = (Ret tt, e1).
Proof.
  cbv zeta.
  destruct (ack_counted_once
              (set_pending_acks [(0, 1%Q); (1, 4%Q)]
                 (set_serial_handler
                    (set_protocol (Protocol.mkProtocolHandler 2) Serial.init)
                    (Engine.init Serial.init)))
              (mkPacket ACK 0 0 [x00; x00; x00; x01]) 1 4 6 7)
    as (_ & _ & H3 & _ & _ & _ & _ & _ & H9).
  - unfold wf. cbn. repeat constructor; cbn; intuition discriminate.
  - reflexivity.
  - reflexivity.
  - split; [exact H3|exact H9].
Defined.

Lemma handle_arrival_counts (e : TestEngine) (a : arrival) :
  let e' := handle_arrival e a in
  same_session e e'
  /\ packets_received (metrics e') = packets_received (metrics e) + 1
  /\ packets_sent (metrics e') = packets_sent (metrics e)
  /\ packets_lost (metrics e')
     = packets_lost (metrics e) + Z.max 0 (arr_seq a - last_sequence e - 1)
  /\ last_sequence e' = Z.max (last_sequence e) (arr_seq a)
  /\ bandwidth_samples (metrics e') = bandwidth_samples (metrics e)
  /\ (latency_samples (metrics e') = latency_samples (metrics e)
      \/ exists x, (0 < x)%Q
                   /\ latency_samples (metrics e')
                      = latency_samples (metrics e) ++ [x]).
Proof.
  cbv zeta. unfold handle_arrival, arr_seq.
  split; [apply data_same_session|].
  rewrite handle_data_split.
  destruct (acknowledge_cases (track_data e (arr_packet a)) (arr_port a)
              (arr_ack_now a) (arr_packet a) (arr_now a))
    as (sh & _ & [-> | [G ->]]); rewrite track_data_explicit;
    cbn [set_serial_handler set_metrics metrics append_latency
         packets_received packets_sent packets_lost last_sequence
         bandwidth_samples latency_samples];
    repeat split; try (left; reflexivity).
  right. eexists. split; [apply gt_pos, G|reflexivity].
Qed.

Lemma is_data_true (a : arrival) :
  is_data a = true -> packet_type (arr_packet a) = DATA.
Proof.
  unfold is_data, PacketType_eqb.
  destruct (packet_type (arr_packet a)); cbn; congruence.
Qed.

Lemma inbound_data (e : TestEngine) (a : arrival) :
  is_running e = true -> mode e = RECEIVER -> is_data a = true ->
  snd (step e (inbound a)) = handle_arrival e a.
Proof.
  intros R M D. unfold inbound, handle_arrival. cbn [step].
  unfold _handle_received_packet.
  rewrite R, M, (is_data_true a D). reflexivity.
Qed.

Lemma inbound_other (e : TestEngine) (a : arrival) :
  mode e = RECEIVER -> is_data a = false ->
  let e' := snd (step e (inbound a)) in
  same_session e e'
  /\ packets_received (metrics e') = packets_received (metrics e)
  /\ packets_sent (metrics e') = packets_sent (metrics e)
  /\ packets_lost (metrics e') = packets_lost (metrics e)
  /\ last_sequence e' = last_sequence e
  /\ latency_samples (metrics e') = latency_samples (metrics e)
  /\ bandwidth_samples (metrics e') = bandwidth_samples (metrics e).
Proof.
  intros M D. cbv zeta. unfold inbound. cbn [step].
  split; [apply inbound_same_session|].
  unfold _handle_received_packet.
  destruct (is_running e); cbn [negb snd]; [|repeat split].
  unfold is_data, PacketType_eqb in D. rewrite M.
  destruct (packet_type (arr_packet a)); cbn in D; try discriminate;
    cbn [snd]; repeat split.
Qed.

Lemma last_cons (k : Z) (l : list Z) (d : Z) :
  List.last (k :: l) d = List.last l k.
Proof.
  revert k d. induction l as [|x l IH]; intros k d; [reflexivity|].
  change (List.last (k :: x :: l) d) with (List.last (x :: l) d).
  rewrite (IH x d), (IH x k). reflexivity.
Qed.

(** X19: The responder's books when DATA packets come in with increasing
    sequence ids, other packets among them: every DATA packet is counted
    received, every id skipped since [last_sequence] is counted lost, so
    [packets_received + packets_lost - last_sequence] stays what it was,
    and [last_sequence] ends at the id of the last DATA packet.  The ids
    that the originator's codec gave to heartbeats are among the ones
    counted lost. *)
Theorem receiver_in_order_accounting (e : TestEngine)
        (arrivals : list arrival) :
  is_running e = true -> mode e = RECEIVER ->
  ascending (last_sequence e) (map arr_seq (filter is_data arrivals)) ->
  let e' := deliver e arrivals in
  packets_received (metrics e')
  = packets_received (metrics e) + len (filter is_data arrivals)
  /\ packets_received (metrics e') + packets_lost (metrics e')
     - last_sequence e'
     = packets_received (metrics e) + packets_lost (metrics e)
       - last_sequence e
  /\ last_sequence e'
     = List.last (map arr_seq (filter is_data arrivals)) (last_sequence e).
Proof.
  cbv zeta. revert e.
  induction arrivals as [|a rest IH]; intros e R M A.
  - cbn. change (len (@nil arrival)) with 0. repeat split; lia.
  - change (deliver e (a :: rest))
      with (deliver (snd (step e (inbound a))) rest).
    cbn [filter] in *. destruct (is_data a) eqn:D.
    + rewrite (inbound_data e a R M D).
      destruct (handle_arrival_counts e a)
        as (S & C1 & _ & C3 & C4 & _).
      cbn [map ascending] in A. destruct A as [A1 A2].
      destruct S as (S1 & _ & _ & _ & _ & S6 & _).
      rewrite Z.max_r in C4 by lia.
      destruct (IH (handle_arrival e a)) as (I1 & I2 & I3).
      * congruence.
      * congruence.
      * rewrite C4. exact A2.
      * cbn [map]. rewrite last_cons.
        assert (L : len (a :: filter is_data rest)
                    = len (filter is_data rest) + 1)
          by (unfold len; cbn [List.length]; lia).
        rewrite L. split; [lia|]. split; [lia|].
        rewrite I3, C4. reflexivity.
    + destruct (inbound_other e a M D)
        as (S & C1 & _ & C3 & C4 & _).
      destruct S as (S1 & _ & _ & _ & _ & S6 & _).
      destruct (IH (snd (step e (inbound a)))) as (I1 & I2 & I3).
      * congruence.
      * congruence.
      * rewrite C4. exact A.
      * split; [lia|]. split; [lia|]. rewrite I3, C4. reflexivity.
Qed.

Lemma receiver_in_order_accounting_witness :
  let quiet := fun _ : list byte => Ret 0 in
  let e0 :=
    set_config RECEIVER 64 10 60
      (set_serial_handler
         (mkSerialHandler Protocol.init true true 0 0 0 0 [])
         (Engine.init Serial.init)) in
  let e' :=
    deliver (snd (start_test e0))
      [mkArrival quiet 0 (mkPacket DATA 0 0 []) 0;
       mkArrival quiet 0 (mkPacket HEARTBEAT 1 0 []) 0;
       mkArrival quiet 0 (mkPacket DATA 2 0 []) 0] in
  packets_received (metrics e') = 2
  /\ packets_received (metrics e') + packets_lost (metrics e')
     - last_sequence e' = 1
  /\ last_sequence e' = 2.
Proof.
  cbv zeta.
  refine (receiver_in_order_accounting _ _ _ _ _).
  - reflexivity.
  - reflexivity.
  - cbn. lia.
Defined.

Lemma sound_handler (e : TestEngine) (sh : SerialHandler) :
  sound e -> counter e <= sequence_counter (protocol sh) ->
  sound (set_serial_handler sh e).
Proof.
  intros (H1 & H2 & H3 & H4 & H5) Hc. unfold sound, balanced, counter in *.
  cbn [set_serial_handler pending_acks metrics serial_handler].
  repeat split; try assumption.
  intros k Hk. specialize (H2 k Hk). lia.
Qed.

Lemma sound_fresh (e : TestEngine) :
  sound e -> get (counter e) (pending_acks e) = None.
Proof.
  intros (_ & H2 & _).
  destruct (get (counter e) (pending_acks e)) eqn:G; [|reflexivity].
  assert (In (counter e) (keys (pending_acks e)))
    by (apply get_In_keys; congruence).
  specialize (H2 _ H). lia.
Qed.

Lemma sound_transmit (e : TestEngine) (port : list byte -> outcome Z)
      (create_now t : Q) :
  sound e -> sound (snd (transmit_data e port create_now t)).
Proof.
  intros H.
  destruct (transmit_data_cases e port create_now t)
    as (sh & Hp & [-> | [_ ->]]).
  { apply sound_handler; [exact H|]. rewrite Hp. cbn. lia. }
  pose proof (sound_fresh e H) as F.
  destruct H as (H1 & H2 & H3 & H4 & H5). unfold sound, balanced in *.
  cbn [set_expected_sequences set_pending_acks set_metrics
       set_serial_handler pending_acks metrics add_bytes_transmitted
       add_packets_sent packets_sent packets_received packets_lost].
  split; [apply wf_set, H1|]. split; [|split; [exact H3|split; [exact H4|]]].
  - intros k Hk. rewrite keys_set in Hk. unfold contains in Hk.
    rewrite F in Hk. unfold counter at 1.
    cbn [serial_handler set_expected_sequences set_pending_acks set_metrics
         set_serial_handler].
    rewrite Hp. cbn [sequence_counter].
    apply in_app_or in Hk. destruct Hk as [Hk | [<- | []]]; [|lia].
    specialize (H2 k Hk). lia.
  - rewrite len_set_absent by exact F. lia.
Qed.

Lemma sound_sweep (e : TestEngine) (now timeout : Q) :
  sound e -> sound (snd (_check_ack_timeouts e now timeout)).
Proof.
  intros (H1 & H2 & H3 & H4 & H5). unfold _check_ack_timeouts.
  set (seqs := timed_out (pending_acks e) now timeout).
  assert (Hnd : NoDup seqs) by (apply timed_out_NoDup, H1).
  assert (Hin : forall s, In s seqs -> get s (pending_acks e) <> None).
  { intros s Hs. apply get_In_keys. eapply timed_out_keys, Hs. }
  destruct (expire_present seqs e H1 Hnd Hin) as (_ & R2 & _ & R4 & R5).
  destruct (expire_frame seqs e) as (_ & F2 & F3 & F4 & _).
  pose proof (expire_len seqs e H1 Hnd Hin) as L.
  pose proof (expire_wf seqs e H1) as W.
  pose proof (len_nonneg seqs) as Ls.
  unfold sound, balanced, counter in *. rewrite F2, F3, F4, R2, L.
  repeat split; try assumption; try lia.
  intros k Hk. apply H2. apply get_In_keys. apply get_In_keys in Hk.
  destruct (in_dec Z.eq_dec k seqs) as [I|I].
  - rewrite (R4 k I) in Hk. contradiction.
  - rewrite (R5 k I) in Hk. exact Hk.
Qed.

Lemma sound_inbound (e : TestEngine) (port : list byte -> outcome Z)
      (ack_now : Q) (p : Packet) (now : Q) :
  mode e = TRANSMITTER -> sound e ->
  sound (snd (_handle_received_packet e port ack_now p now)).
Proof.
  intros M H. unfold _handle_received_packet.
  destruct (is_running e); cbn [negb snd]; [|exact H]. rewrite M.
  destruct (packet_type p); cbn [snd]; try exact H.
  destruct (ack_cases e p now) as [-> | (k & t0 & _ & G & ->)];
    [exact H|].
  destruct H as (H1 & H2 & H3 & H4 & H5). unfold sound, balanced, counter in *.
  cbn [snd set_metrics set_pending_acks pending_acks metrics serial_handler
       add_packets_received append_latency packets_sent packets_received
       packets_lost].
  rewrite len_remove_present by congruence.
  repeat split; try assumption; try lia.
  - apply wf_remove, H1.
  - intros k' Hk. apply H2. eapply keys_remove_incl, Hk.
Qed.

Lemma loss_rate_bounds (mt : TestMetrics) :
  0 <= packets_lost mt <= packets_sent mt ->
  (0 <= Metrics.packet_loss_rate mt <= 100)%Q.
Proof.
  intros [H1 H2]. unfold Metrics.packet_loss_rate.
  destruct (packets_sent mt =? 0) eqn:E.
  - split; unfold Qle; simpl; lia.
  - apply Z.eqb_neq in E.
    destruct (packets_sent mt) as [|s|s]; try lia.
    unfold Qle, Qdiv, Qmult, Qinv, inject_Z. cbn [Qnum Qden].
    split; nia.
Qed.

(** X20: The originator's books balance throughout a test: from [start_test]
    on, whatever the loop and the receive thread do (heartbeats, DATA
    packets sent or not, ACKs, duplicates and strays included, timeout
    sweeps), every packet counted as sent is acknowledged, lost or still
    pending, each exactly once: [packets_sent = packets_received +
    packets_lost + len(pending_acks)].  So [packets_lost] never exceeds
    [packets_sent] and [packet_loss_rate] stays within 0 and 100. *)
Theorem transmitter_conservation (e : TestEngine) (loc : locals)
        (l : list activity) :
  (fst (start_test e) = true -> sound (snd (start_test e)))
  /\ (mode e = TRANSMITTER -> sound e ->
      let e' := snd (activities (loc, e) l) in
      mode e' = TRANSMITTER
      /\ sound e'
      /\ 0 <= packets_lost (metrics e') <= packets_sent (metrics e')
      /\ (0 <= Metrics.packet_loss_rate (metrics e') <= 100)%Q).
Proof.
  split.
  { unfold start_test.
    destruct (is_running e || negb (is_connected (serial_handler e)));
      [discriminate|].
    intros _. unfold sound, balanced, wf. cbn.
    repeat split; try lia; try constructor. }
  intros M H. cbv zeta.
  assert (G : mode (snd (activities (loc, e) l)) = TRANSMITTER
              /\ sound (snd (activities (loc, e) l))).
  { apply (activities_keeps
             (fun x => mode x = TRANSMITTER /\ sound x) TRANSMITTER).
    - intros x [Hx _]. exact Hx.
    - intros x port now [Hm Hs].
      destruct (send_heartbeat_cases x port now) as (sh & Hp & ->).
      split; [exact Hm|]. apply sound_handler; [exact Hs|].
      rewrite Hp. cbn. lia.
    - intros _ x port cn t [Hm Hs]. split; [|apply sound_transmit, Hs].
      rewrite (proj1 (transmit_same_session x port cn t)). exact Hm.
    - intros x bw _ [Hm Hs]. split; [exact Hm|exact Hs].
    - intros _ x now timeout [Hm Hs]. split; [|apply sound_sweep, Hs].
      rewrite (proj1 (sweep_same_session x now timeout)). exact Hm.
    - intros x port ack_now p now [Hm Hs].
      split; [|apply sound_inbound; assumption].
      rewrite (proj1 (inbound_same_session x port ack_now p now)). exact Hm.
    - split; assumption. }
  destruct G as (G1 & G2). split; [exact G1|]. split; [exact G2|].
  assert (B : 0 <= packets_lost (metrics (snd (activities (loc, e) l)))
              <= packets_sent (metrics (snd (activities (loc, e) l)))).
  { destruct G2 as (_ & _ & H3 & H4 & H5). unfold balanced in H5.
    pose proof (len_nonneg (pending_acks (snd (activities (loc, e) l)))).
    lia. }
  split; [exact B|apply loss_rate_bounds, B].
Qed.

Lemma transmitter_conservation_witness :
  let e :=
    snd (start_test
           (set_serial_handler
              (mkSerialHandler Protocol.init true true 0 0 0 0 [])
              (Engine.init Serial.init))) in
  let tk t := mkTick t (fun _ => Ret 80) 0 (fun _ => Ret 80) 0 in
  let e' :=
    snd (activities (mkLocals 0 0 0 0, e)
           [Iterate (1 # 10) (tk 0%Q);
            Inbound (fun _ => Ret 0) 0
              (mkPacket ACK 0 0 [x00; x00; x00; x00]) 1;
            Iterate (1 # 10) (tk 1%Q); Iterate (1 # 10) (tk 7%Q)]) in
  sound e'.
Proof.
  cbv zeta.
  match goal with
  | |- sound (snd (activities (?loc, ?e) ?l)) =>
      destruct (transmitter_conservation e loc l) as (_ & H)
  end.
  refine (proj1 (proj2 (H _ _))).
  - reflexivity.
  - unfold sound, balanced, wf. cbn.
    repeat split; try lia; try constructor.
Defined.

Lemma positive_snoc (xs : list Q) (x : Q) :
  positive xs -> (0 < x)%Q -> positive (xs ++ [x]).
Proof.
  intros H Hx. apply Forall_app. split; [exact H|].
  constructor; [exact Hx|constructor].
Qed.

Lemma sum_positive (xs : list Q) :
  positive xs -> xs <> [] -> (0 < fold_right Qplus 0 xs)%Q.
Proof.
  induction 1 as [|x xs Hx _ IH]; intros Hne; [contradiction|].
  cbn [fold_right]. destruct xs as [|y ys].
  - cbn [fold_right]. rewrite Qplus_0_r. exact Hx.
  - assert (0 < fold_right Qplus 0 (y :: ys))%Q by (apply IH; discriminate).
    apply Qlt_trans with (0 + fold_right Qplus 0 (y :: ys))%Q.
    + rewrite Qplus_0_l. exact H.
    + apply Qplus_lt_le_compat; [exact Hx|apply Qle_refl].
Qed.

Lemma mean_positive (xs : list Q) :
  positive xs -> xs <> [] -> (0 < Metrics.mean xs)%Q.
Proof.
  intros H Hne. unfold Metrics.mean.
  apply Qlt_shift_div_l.
  - destruct xs as [|x xs]; [contradiction|].
    unfold Qlt, inject_Z, len. cbn [Qnum Qden List.length]. lia.
  - rewrite Qmult_0_l. apply sum_positive; assumption.
Qed.

(** X21: The responder's figures.  In RECEIVER mode nothing ever counts a
    packet as sent, so [packet_loss_rate] is 0 however many packets the
    responder counted lost; and every latency and bandwidth sample it
    keeps is positive, so each average is positive once there is a
    sample, and 0 before. *)
Theorem receiver_metrics (e : TestEngine) (loc : locals)
        (l : list activity) :
  mode e = RECEIVER ->
  packets_sent (metrics e) = 0 ->
  positive (latency_samples (metrics e)) ->
  positive (bandwidth_samples (metrics e)) ->
  let m' := metrics (snd (activities (loc, e) l)) in
  packets_sent m' = 0
  /\ Metrics.packet_loss_rate m' = 0%Q
  /\ positive (latency_samples m')
  /\ positive (bandwidth_samples m')
  /\ (latency_samples m' <> [] -> (0 < Metrics.average_latency m')%Q)
  /\ (latency_samples m' = [] -> Metrics.average_latency m' = 0%Q)
  /\ (bandwidth_samples m' <> [] -> (0 < Metrics.average_bandwidth m')%Q)
  /\ (bandwidth_samples m' = [] -> Metrics.average_bandwidth m' = 0%Q).
Proof.
  intros M H0 Hl Hb. cbv zeta.
  pose (P := fun x => mode x = RECEIVER /\ packets_sent (metrics x) = 0
                      /\ positive (latency_samples (metrics x))
                      /\ positive (bandwidth_samples (metrics x))).
  assert (G : P (snd (activities (loc, e) l))).
  { apply (activities_keeps P RECEIVER); unfold P.
    - intros x [Hx _]. exact Hx.
    - intros x port now Hx.
      destruct (send_heartbeat_cases x port now) as (sh & _ & ->). exact Hx.
    - discriminate.
    - intros x bw Hpos (Hm & Hs & H1 & H2).
      cbn [set_metrics metrics append_bandwidth packets_sent latency_samples
           bandwidth_samples mode].
      repeat split; try assumption.
      apply positive_snoc; [exact H2|]. apply gt_pos, Hpos. reflexivity.
    - discriminate.
    - intros x port ack_now p now (Hm & Hs & H1 & H2).
      set (a := mkArrival port ack_now p now).
      change (_handle_received_packet x port ack_now p now)
        with (step x (inbound a)).
      destruct (is_data a) eqn:D.
      + destruct (is_running x) eqn:R.
        * rewrite (inbound_data x a R Hm D).
          destruct (handle_arrival_counts x a)
            as (S & _ & C2 & _ & _ & C6 & C7).
          rewrite (proj1 S), C2, C6.
          repeat split; try assumption.
          destruct C7 as [-> | (y & Hy & ->)];
            [exact H1|apply positive_snoc; assumption].
        * unfold inbound. cbn [step]. unfold _handle_received_packet.
          rewrite R. cbn [negb snd]. repeat split; assumption.
      + destruct (inbound_other x a Hm D) as (S & _ & C2 & _ & _ & C5 & C6).
        rewrite (proj1 S), C2, C5, C6. repeat split; assumption.
    - cbn [snd]. repeat split; assumption. }
  unfold P in G. destruct G as (_ & G2 & G3 & G4).
  unfold Metrics.packet_loss_rate, Metrics.average_latency,
    Metrics.average_bandwidth.
  rewrite G2. cbn [Z.eqb].
  split; [reflexivity|]. split; [reflexivity|].
  split; [exact G3|]. split; [exact G4|].
  split; [|split; [|split]].
  - intros Hne. pose proof (mean_positive _ G3 Hne) as Hm.
    destruct (latency_samples (metrics (snd (activities (loc, e) l))));
      [contradiction Hne; reflexivity|exact Hm].
  - intros ->. reflexivity.
  - intros Hne. pose proof (mean_positive _ G4 Hne) as Hm.
    destruct (bandwidth_samples (metrics (snd (activities (loc, e) l))));
      [contradiction Hne; reflexivity|exact Hm].
  - intros ->. reflexivity.
Qed.

Lemma receiver_metrics_witness :
  let quiet := fun _ : list byte => Ret 0 in
  let e :=
    snd (start_test
           (set_config RECEIVER 64 10 60
              (set_serial_handler
                 (mkSerialHandler Protocol.init true true 0 0 0 0 [])
                 (Engine.init Serial.init)))) in
  let m' :=
    metrics
      (snd (activities (mkLocals 0 0 0 0, e)
              [Inbound quiet 0 (mkPacket DATA 3 0 []) 1])) in
  packets_lost m' = 3 /\ Metrics.packet_loss_rate m' = 0%Q.
Proof.
  cbv zeta. split; [reflexivity|].
  match goal with
  | |- Metrics.packet_loss_rate
         (metrics (snd (activities (?loc, ?e) ?l))) = _ =>
      destruct (receiver_metrics e loc l) as (_ & H & _)
  end.
  - reflexivity.
  - reflexivity.
  - constructor.
  - constructor.
  - exact H.
Defined.

Lemma send_packet_ok (sh : SerialHandler) (port : list byte -> outcome Z)
      (p : Packet) :
  is_connected sh = true -> serial_connection sh = true ->
  encodable p = true -> accepting port ->
  exists n, send_packet sh port p = (Ret true, add_sent n sh).
Proof.
  intros C S E A. unfold send_packet.
  rewrite C, S, serialize_packet_eq, E. cbn [negb orb].
  destruct (A (frame p)) as (n & ->). exists n. reflexivity.
Qed.

Lemma remove_set_fresh {V} (k : Z) (v : V) (d : Dict.t V) :
  get k d = None -> Dict.remove k (Dict.set k v d) = d.
Proof.
  induction d as [|[k' v'] d IH]; cbn [get Dict.set Dict.remove].
  - intros _. rewrite Z.eqb_refl. reflexivity.
  - destruct (k' =? k) eqn:E; [discriminate|]. intros H.
    cbn [Dict.remove]. rewrite E, IH by exact H. reflexivity.
Qed.

Lemma filler_len (n : Z) : len (filler n) = Z.max 0 n.
Proof. unfold filler, len. rewrite repeat_length. lia. Qed.

Lemma transmit_data_ok (T : TestEngine) (port : list byte -> outcome Z)
      (create_now t0 : Q) :
  is_connected (serial_handler T) = true ->
  serial_connection (serial_handler T) = true ->
  encodable (mkPacket DATA (counter T) create_now (filler (packet_size T)))
  = true ->
  accepting port ->
  exists n,
    transmit_data T port create_now t0
    = (Ret tt,
       set_expected_sequences (expected_sequences T ++ [counter T])
         (set_pending_acks (Dict.set (counter T) t0 (pending_acks T))
            (set_metrics
               (add_bytes_transmitted (len (filler (packet_size T)))
                  (add_packets_sent 1 (metrics T)))
               (set_serial_handler
                  (add_sent n
                     (set_protocol (mkProtocolHandler (counter T + 1))
                        (serial_handler T))) T)))).
Proof.
  intros C S E A.
  destruct (send_packet_ok
              (set_protocol (mkProtocolHandler (counter T + 1))
                 (serial_handler T)) port _ C S E A) as (n & Hn).
  exists n. unfold transmit_data, create_data_packet, create_packet.
  fold (counter T). cbn [serial_handler set_serial_handler].
  rewrite Hn. reflexivity.
Qed.

Lemma handle_data_ok (R : TestEngine) (port : list byte -> outcome Z)
      (ack_now : Q) (p : Packet) (t : Q) :
  is_connected (serial_handler R) = true ->
  serial_connection (serial_handler R) = true ->
  0 <= sequence_id p < 2 ^ 32 ->
  encodable (mkPacket ACK (counter R) ack_now (be32 (sequence_id p))) = true ->
  accepting port ->
  exists n e',
    _handle_data_packet_receiver R port ack_now p t = (Ret tt, e')
    /\ packets_received (metrics e') = packets_received (metrics R) + 1
    /\ serial_handler e'
       = add_sent n
           (set_protocol (mkProtocolHandler (counter R + 1))
              (serial_handler R)).
Proof.
  intros C S Hk E A.
  destruct (send_packet_ok
              (set_protocol (mkProtocolHandler (counter R + 1))
                 (serial_handler R)) port _ C S E A) as (n & Hn).
  exists n. rewrite handle_data_split. unfold acknowledge.
  rewrite track_data_explicit.
  cbn [serial_handler set_serial_handler].
  unfold create_ack_packet, pack_I.
  rewrite (proj2 (in_range_true 32 (sequence_id p)) Hk).
  cbn [bind]. unfold create_packet. fold (counter R). rewrite Hn.
  destruct (gt (t - timestamp p) 0); eexists;
    (split; [reflexivity|split; reflexivity]).
Qed.

Lemma handle_ack_ok (T : TestEngine) (port : list byte -> outcome Z)
      (ack_now : Q) (p : Packet) (now : Q) (k : Z) (t0 : Q) :
  is_running T = true -> mode T = TRANSMITTER -> packet_type p = ACK ->
  get_acked_sequence (protocol (serial_handler T)) p = Ret (Some k) ->
  get k (pending_acks T) = Some t0 ->
  _handle_received_packet T port ack_now p now
  = (Ret tt,
     set_metrics
       (add_packets_received 1 (append_latency (now - t0) (metrics T)))
       (set_pending_acks (Dict.remove k (pending_acks T)) T)).
Proof.
  intros R M Ty A G. unfold _handle_received_packet.
  rewrite R, M, Ty. cbn [negb]. unfold _handle_ack_packet_transmitter.
  rewrite A, G. cbn [set_metrics pending_acks]. unfold Dict.del, contains.
  rewrite G. reflexivity.
Qed.

(** X22: One DATA packet and its ACK, end to end, with clocks that the wire
    format can hold.  The originator stamps the packet with its codec's
    sequence id, sends it and enters it in the pending table; the
    responder decodes the frame to the same packet, counts it and sends
    an ACK whose payload is that sequence id; the originator decodes the
    ACK's frame, takes the id out of the table, which is then as it was
    before, counts the packet received and records the time since it was
    sent as the latency. *)
Theorem echo_round_trip (T R : TestEngine)
        (port_t port_r : list byte -> outcome Z)
        (create_now t0 ack_now r_now t1 : Q) :
  ready TRANSMITTER T -> ready RECEIVER R -> sound T ->
  packet_size T < 2 ^ 32 -> early create_now -> early ack_now ->
  accepting port_t -> accepting port_r ->
  let data_packet :=
    mkPacket DATA (counter T) create_now (filler (packet_size T)) in
  let ack_packet := mkPacket ACK (counter R) ack_now (be32 (counter T)) in
  let T1 := snd (transmit_data T port_t create_now t0) in
  let R1 :=
    snd (_handle_received_packet R port_r ack_now (decoded data_packet)
           r_now) in
  let T2 :=
    snd (_handle_received_packet T1 port_t 0 (decoded ack_packet) t1) in
  fst (create_data_packet (protocol (serial_handler T)) create_now
         (filler (packet_size T))) = data_packet
  /\ serialize_packet (protocol (serial_handler T)) data_packet
     = Ret (frame data_packet)
  /\ get (counter T) (pending_acks T1) = Some t0
  /\ packets_sent (metrics T1) = packets_sent (metrics T) + 1
  /\ fst (deserialize_packet (protocol (serial_handler R))
            (frame data_packet)) = Ret (Some (decoded data_packet))
  /\ create_ack_packet (protocol (serial_handler R)) ack_now
       (sequence_id (decoded data_packet))
     = Ret (ack_packet, mkProtocolHandler (counter R + 1))
  /\ packets_received (metrics R1) = packets_received (metrics R) + 1
  /\ Serial.packets_sent (serial_handler R1)
     = Serial.packets_sent (serial_handler R) + 1
  /\ serialize_packet (protocol (serial_handler R1)) ack_packet
     = Ret (frame ack_packet)
  /\ fst (deserialize_packet (protocol (serial_handler T1))
            (frame ack_packet)) = Ret (Some (decoded ack_packet))
  /\ pending_acks T2 = pending_acks T
  /\ packets_received (metrics T2) = packets_received (metrics T) + 1
  /\ latency_samples (metrics T2)
     = latency_samples (metrics T) ++ [(t1 - t0)%Q]
  /\ balanced T2.
Proof.
  intros (Tr & Tm & Tc & Tp & Tk) (Rr & Rm & Rc & Rp & Rk) Hs Hps Hcn Han
    Hpt Hpr.
  cbv zeta.
  remember (mkPacket DATA (counter T) create_now (filler (packet_size T)))
    as dp eqn:Hdp.
  remember (mkPacket ACK (counter R) ack_now (be32 (counter T)))
    as ap eqn:Hap.
  assert (E1 : encodable dp = true).
  { apply encodable_true. unfold timestamp_ms, payload_size. subst dp.
    cbn [sequence_id timestamp payload]. rewrite filler_len.
    split; [exact Tk|]. split; [exact Hcn|lia]. }
  assert (E2 : encodable ap = true).
  { apply encodable_true. unfold timestamp_ms, payload_size. subst ap.
    cbn [sequence_id timestamp payload].
    split; [exact Rk|]. split; [exact Han|]. change (len (be32 _)) with 4.
    lia. }
  assert (Hk32 : 0 <= counter T < 2 ^ 32).
  { change (2 ^ 16) with 65536 in Tk. change (2 ^ 32) with 4294967296. lia. }
  assert (Dseq : sequence_id (decoded dp) = counter T)
    by (subst dp; reflexivity).
  assert (Dty : packet_type (decoded dp) = DATA) by (subst dp; reflexivity).
  pose proof (sound_fresh T Hs) as Fresh.
  (* the originator sends *)
  rewrite Hdp in E1.
  destruct (transmit_data_ok T port_t create_now t0 Tc Tp E1 Hpt)
    as (n1 & HT1).
  rewrite <- Hdp in E1. rewrite HT1. cbn [snd].
  (* the responder handles the packet *)
  assert (HA : create_ack_packet (protocol (serial_handler R)) ack_now
                 (sequence_id (decoded dp))
               = Ret (ap, mkProtocolHandler (counter R + 1))).
  { rewrite Dseq, Hap. unfold create_ack_packet, pack_I.
    rewrite (proj2 (in_range_true 32 (counter T)) Hk32). reflexivity. }
  assert (HR : exists n2 R1,
             _handle_received_packet R port_r ack_now (decoded dp) r_now
             = (Ret tt, R1)
             /\ packets_received (metrics R1)
                = packets_received (metrics R) + 1
             /\ serial_handler R1
                = add_sent n2
                    (set_protocol (mkProtocolHandler (counter R + 1))
                       (serial_handler R))).
  { unfold _handle_received_packet. rewrite Rr, Rm, Dty. cbn [negb].
    apply handle_data_ok; try assumption.
    - rewrite Dseq. exact Hk32.
    - rewrite Dseq, <- Hap. exact E2. }
  destruct HR as (n2 & R1 & HR1 & HR1a & HR1b). rewrite HR1. cbn [snd].
  (* the originator handles the ACK *)
  assert (HG : forall h,
             get_acked_sequence h (decoded ap) = Ret (Some (counter T))).
  { intros h. subst ap. unfold get_acked_sequence, decoded.
    cbn [packet_type payload PacketType_eqb value Z.eqb negb orb].
    change (len (be32 (counter T)) <? 4) with false.
    change (slice 0 4 (be32 (counter T))) with (be32 (counter T)).
    rewrite unpack_I_be32 by exact Hk32. reflexivity. }
  rewrite (handle_ack_ok _ port_t 0 (decoded ap) t1 (counter T) t0);
    [|exact Tr|exact Tm|subst ap; reflexivity|apply HG|apply get_set_same].
  unfold balanced.
  cbn [snd pending_acks metrics set_expected_sequences set_pending_acks
       set_metrics set_serial_handler serial_handler add_packets_received
       append_latency add_bytes_transmitted add_packets_sent packets_sent
       packets_received packets_lost latency_samples protocol add_sent
       set_protocol].
  rewrite get_set_same, remove_set_fresh by exact Fresh.
  rewrite !serialize_packet_eq, E1, E2, !deserialize_packet_frame
    by assumption.
  rewrite HR1a, HR1b, HA.
  cbn [fst add_sent Serial.packets_sent set_protocol].
  destruct Hs as (_ & _ & _ & _ & B). unfold balanced in B.
  repeat split; try (subst dp; reflexivity); try lia.
Qed.

Lemma echo_round_trip_witness :
  let port := fun d : list byte => Ret (len d) in
  let sh := mkSerialHandler Protocol.init true true 0 0 0 0 [] in
  let T := snd (start_test (set_serial_handler sh (Engine.init Serial.init))) in
  let R :=
    snd (start_test
           (set_config RECEIVER 64 10 60
              (set_serial_handler sh (Engine.init Serial.init)))) in
  let T1 := snd (transmit_data T port 1 1) in
  let ack := decoded (mkPacket ACK (counter R) 2 (be32 (counter T))) in
  let T2 := snd (_handle_received_packet T1 port 0 ack 3) in
  pending_acks T2 = pending_acks T
  /\ packets_received (metrics T2) = packets_received (metrics T) + 1.
Proof.
  cbv zeta.
  match goal with
  | |- context [transmit_data ?T ?port _ _] =>
      match goal with
      | |- context [mkPacket ACK (counter ?R) _ _] =>
          destruct (echo_round_trip T R port port 1 1 2 2 3)
            as (_ & _ & _ & _ & _ & _ & _ & _ & _ & _ & H11 & H12 & _)
      end
  end.
  - unfold ready. cbn. repeat split; lia.
  - unfold ready. cbn. repeat split; lia.
  - unfold sound, balanced, wf. cbn.
    repeat split; try lia; try constructor.
  - cbn. lia.
  - unfold early. cbn. lia.
  - unfold early. cbn. lia.
  - intros d. eexists. reflexivity.
  - intros d. eexists. reflexivity.
  - split; [exact H11|exact H12].
Defined.
